(** * The input process of Slips: a model of [inputProcess.py]

    The development embeds the three routines of [InputProcess] that feed the
    profiler queue -- [read_nfdump_file], [read_zeek_files] and [run] -- as
    executable functions over an explicit machine state, and proves the
    properties of the flow-ingestion specification about them.

    Conventions.
    - Python dictionaries keep insertion order, so a [dict] is an association
      list; [sorted(d, key=d.get)] depends on that order.
    - Objects that the code mutates after handing them out (the [line]
      dictionaries put on the profiler queue) live in a heap and are passed
      by address.
    - Everything outside the process (catalog, files, clock, stdin) is an
      oracle indexed by a tick counter that advances at every interaction;
      text is held as its UTF-8 bytes, and what [str.isdigit] says of a
      character outside ASCII is an oracle as well.
    - Loops that wait for the outside world take fuel.
    - The telemetry queue ([self.print], [outputqueue.put]) is write-only and
      never read back by this code; it is left out of the machine state. *)

From Stdlib Require Import Bool Arith ZArith QArith List String Ascii Lia.
From Stdlib Require Import Permutation.
From Stdlib Require Import Decimal DecimalString DecimalZ Sorted.
Import ListNotations.
Local Open Scope string_scope.
Local Close Scope Q_scope.

(** ** Strings as Python uses them *)

Module PyStr.

Definition tab : ascii := "009"%char.
Definition newline : ascii := "010"%char.

(** [s[0]]; [None] stands for [IndexError]. *)
Definition first_char (s : string) : option ascii :=
  match s with
  | EmptyString => None
  | String c _ => Some c
  end.

(** Whether a byte is one of the ASCII digits. *)
Definition ascii_digit (c : ascii) : bool :=
  (48 <=? nat_of_ascii c)%nat && (nat_of_ascii c <=? 57)%nat.

(** [s[0].isdigit()] for a string [s] that starts with the byte [c].  Text
    is held as its UTF-8 bytes: a first byte below 128 is an ASCII
    character, a digit when it is one of [0] to [9]; otherwise the string
    starts with a character outside ASCII, and the Unicode database -- here
    [unicode_digit], asked with the string -- says whether it is a digit. *)
Definition isdigit (unicode_digit : string -> bool) (c : ascii) (s : string)
  : bool :=
  if (nat_of_ascii c <? 128)%nat then ascii_digit c else unicode_digit s.

(** [sub in s]. *)
Fixpoint contains (sub s : string) : bool :=
  String.prefix sub s ||
  match s with
  | EmptyString => false
  | String _ s' => contains sub s'
  end.

Fixpoint has_char (c : ascii) (s : string) : bool :=
  match s with
  | EmptyString => false
  | String d s' => Ascii.eqb d c || has_char c s'
  end.

(** [s.split(sep)[0]]. *)
Fixpoint split_head (sep : ascii) (s : string) : string :=
  match s with
  | EmptyString => EmptyString
  | String c s' =>
      if Ascii.eqb c sep then EmptyString else String c (split_head sep s')
  end.

(** [s.split(sep)[-1]]. *)
Fixpoint split_last (sep : ascii) (s : string) : string :=
  match s with
  | EmptyString => EmptyString
  | String _ s' => if has_char sep s then split_last sep s' else s
  end.

Fixpoint skip (n : nat) (s : string) : string :=
  match n, s with
  | O, _ => s
  | S _, EmptyString => EmptyString
  | S n', String _ s' => skip n' s'
  end.

Fixpoint take (n : nat) (s : string) : string :=
  match n, s with
  | O, _ => EmptyString
  | S _, EmptyString => EmptyString
  | S n', String c s' => String c (take n' s')
  end.

(** [s[-n:]] and [s[:-n]] for [n > 0]. *)
Definition last_n (n : nat) (s : string) : string :=
  skip (String.length s - n) s.

Definition drop_last_n (n : nat) (s : string) : string :=
  take (String.length s - n) s.

End PyStr.

(** ** Python values

    What [json.loads] returns, and what a [line] dictionary holds.  Numbers
    are the finite ones, as rationals (Python compares [int] and [float]
    exactly). *)

#[local] Set Warnings "-register-all".

Inductive pyval : Type :=
| PNone
| PBool (b : bool)
| PNum (q : Q)
| PStr (s : string)
| PList (l : list pyval)
| PDict (d : list (string * pyval)).

Definition pydict : Type := list (string * pyval).

(** The numeric reading of a value: [bool] is a subtype of [int]. *)
Definition num_of (v : pyval) : option Q :=
  match v with
  | PBool true => Some (1 # 1)%Q
  | PBool false => Some (0 # 1)%Q
  | PNum q => Some q
  | _ => None
  end.

Definition Qltb (x y : Q) : bool := negb (Qle_bool y x).

(** [a < b]; [None] stands for [TypeError].  Numbers compare with numbers
    and strings with strings (by code point, which on UTF-8 bytes is the
    byte-wise order).  [None], lists and dictionaries are taken as unordered:
    Python orders two lists element-wise, which no timestamp of a Zeek log
    exercises. *)
Definition py_lt (a b : pyval) : option bool :=
  match num_of a, num_of b with
  | Some x, Some y => Some (Qltb x y)
  | _, _ =>
      match a, b with
      | PStr s, PStr t => Some (String.ltb s t)
      | _, _ => None
      end
  end.

Definition py_truthy_str (s : string) : bool := negb (s =? "").

(** ** Insertion-ordered dictionaries *)

Module Dict.

Definition t (V : Type) : Type := list (string * V).

Definition empty {V} : t V := [].

(** [d[k]]; [None] stands for [KeyError]. *)
Fixpoint get {V} (k : string) (d : t V) : option V :=
  match d with
  | [] => None
  | (k', v) :: d' => if k' =? k then Some v else get k d'
  end.

(** [d[k] = v]: an existing key keeps its place, a new one goes last. *)
Fixpoint set {V} (k : string) (v : V) (d : t V) : t V :=
  match d with
  | [] => [(k, v)]
  | (k', v') :: d' =>
      if k' =? k then (k', v) :: d' else (k', v') :: set k v d'
  end.

(** [del d[k]] for a key that is present. *)
Fixpoint del {V} (k : string) (d : t V) : t V :=
  match d with
  | [] => []
  | (k', v') :: d' => if k' =? k then d' else (k', v') :: del k d'
  end.

Definition keys {V} (d : t V) : list string := map fst d.

(** [not d]. *)
Definition is_empty {V} (d : t V) : bool :=
  match d with
  | [] => true
  | _ :: _ => false
  end.

End Dict.

(** ** [sorted(d, key=d.get)]

    The entries of [d] in insertion order, sorted by value with [<] only,
    stably.  A stable comparison sort returns one and the same list when no
    comparison raises; [None] stands for the [TypeError] of a comparison. *)

Fixpoint insert_by_value (x : string * pyval) (l : list (string * pyval))
  : option (list (string * pyval)) :=
  match l with
  | [] => Some [x]
  | y :: l' =>
      match py_lt (snd y) (snd x) with
      | None => None
      | Some true =>
          match insert_by_value x l' with
          | None => None
          | Some r => Some (y :: r)
          end
      | Some false => Some (x :: l)
      end
  end.

Fixpoint sort_by_value (l : list (string * pyval))
  : option (list (string * pyval)) :=
  match l with
  | [] => Some []
  | x :: l' =>
      match sort_by_value l' with
      | None => None
      | Some r => insert_by_value x r
      end
  end.

Definition sorted_by_get (d : Dict.t pyval) : option (list string) :=
  option_map (map fst) (sort_by_value d).

(** ** The machine: heap, effects, outside world *)

Definition addr : Type := nat.

(** What [profilerqueue.put] receives: a reference to a [line] dictionary,
    or a string. *)
Inductive qitem : Type :=
| QRef (a : addr)
| QStr (s : string).

(** A put is logged with the value the item has at that moment ([seen]):
    the queue itself only receives the reference. *)
Inductive event : Type :=
| EvPut (x : qitem) (seen : option pyval)   (* profilerqueue.put(x) *)
| EvSleep (seconds : Q)          (* time.sleep(seconds) *)
| EvAddZeekFile (stem : string)  (* __database__.add_zeek_file(stem) *)
| EvClose (stem : string).       (* open_file_handlers[stem].close() *)

Inductive exn : Type :=
| TypeError
| KeyError
| IndexError
| FileNotFoundError.

Record machine : Type := Machine {
  tick : nat;
  heap : list pydict;
  trace : list event
}.

Definition m_tick (m : machine) : machine :=
  Machine (S (tick m)) (heap m) (trace m).

Definition m_set_heap (h : list pydict) (m : machine) : machine :=
  Machine (tick m) h (trace m).

Definition m_emit (e : event) (m : machine) : machine :=
  Machine (tick m) (heap m) (trace m ++ [e])%list.

Definition m_sleep (seconds : Q) (m : machine) : machine :=
  m_tick (m_emit (EvSleep seconds) m).

(** The items put on the profiler queue so far, oldest first, each with
    the value it had when it was put. *)
Fixpoint puts (tr : list event) : list (qitem * option pyval) :=
  match tr with
  | [] => []
  | EvPut x seen :: tr' => (x, seen) :: puts tr'
  | _ :: tr' => puts tr'
  end.

Definition profilerqueue (m : machine) : list qitem :=
  map fst (puts (trace m)).

(** [{}] at a fresh address. *)
Definition heap_alloc (h : list pydict) : list pydict * addr :=
  ((h ++ [[]])%list, List.length h).

Definition heap_get (h : list pydict) (a : addr) : option pydict :=
  nth_error h a.

Fixpoint heap_update (h : list pydict) (a : addr) (f : pydict -> pydict)
  : list pydict :=
  match h, a with
  | [], _ => []
  | d :: h', O => f d :: h'
  | d :: h', S a' => d :: heap_update h' a' f
  end.

(** [obj[k] = v] on the dictionary at address [a]. *)
Definition heap_setitem (h : list pydict) (a : addr) (k : string) (v : pyval)
  : list pydict :=
  heap_update h a (Dict.set k v).

(** What a holder of the item reads in machine [m]. *)
Definition deref (m : machine) (x : qitem) : option pyval :=
  match x with
  | QRef a => option_map PDict (heap_get (heap m) a)
  | QStr s => Some (PStr s)
  end.

Definition m_put (x : qitem) (m : machine) : machine :=
  m_emit (EvPut x (deref m x)) m.

(** The outside world.  Each oracle takes the tick at which it is asked. *)
Record world : Type := World {
  (* __database__.get_all_zeek_file() *)
  w_catalog : nat -> list string;
  (* whether open(path, 'r') finds the file *)
  w_exists : nat -> string -> bool;
  (* readline() on the handle of [path] that has returned [n] lines so far;
     the empty string when nothing more is there now *)
  w_readline : nat -> string -> nat -> string;
  (* datetime.now(), in microseconds *)
  w_now : nat -> Z;
  (* the lines of standard input up to its end *)
  w_stdin : list string;
  (* os.path.isdir, os.listdir *)
  w_isdir : string -> bool;
  w_listdir : string -> list string;
  (* the lines of a regular file opened for iteration *)
  w_lines : string -> list string;
  (* str.isdigit() of the character outside ASCII that a string starts
     with, as the Unicode database of the interpreter has it *)
  w_isdigit : string -> bool
}.

(** [(now - last).seconds]: the seconds field of the normalised
    [timedelta] (days, seconds, microseconds), between 0 and 86399. *)
Definition usec_per_second : Z := 1000000.
Definition usec_per_day : Z := 86400000000.

Definition timedelta_seconds (diff : Z) : Z :=
  ((diff mod usec_per_day) / usec_per_second)%Z.

(** ** [read_zeek_files] *)

Record tstate : Type := TState {
  mach : machine;
  zeek_files : list string;
  open_file_handlers : Dict.t nat;   (* stem -> lines the handle has returned *)
  time_last_lines : Dict.t pyval;
  cache_lines : Dict.t addr;
  last_updated_file_time : Z;
  lines : Z
}.

Definition set_mach (m : machine) (s : tstate) : tstate :=
  TState m (zeek_files s) (open_file_handlers s) (time_last_lines s)
         (cache_lines s) (last_updated_file_time s) (lines s).

Definition set_zeek_files (fs : list string) (s : tstate) : tstate :=
  TState (mach s) fs (open_file_handlers s) (time_last_lines s)
         (cache_lines s) (last_updated_file_time s) (lines s).

Definition set_open_file_handlers (d : Dict.t nat) (s : tstate) : tstate :=
  TState (mach s) (zeek_files s) d (time_last_lines s)
         (cache_lines s) (last_updated_file_time s) (lines s).

Definition set_time_last_lines (d : Dict.t pyval) (s : tstate) : tstate :=
  TState (mach s) (zeek_files s) (open_file_handlers s) d
         (cache_lines s) (last_updated_file_time s) (lines s).

Definition set_cache_lines (d : Dict.t addr) (s : tstate) : tstate :=
  TState (mach s) (zeek_files s) (open_file_handlers s) (time_last_lines s)
         d (last_updated_file_time s) (lines s).

Definition set_last_updated_file_time (t : Z) (s : tstate) : tstate :=
  TState (mach s) (zeek_files s) (open_file_handlers s) (time_last_lines s)
         (cache_lines s) t (lines s).

Definition set_lines (n : Z) (s : tstate) : tstate :=
  TState (mach s) (zeek_files s) (open_file_handlers s) (time_last_lines s)
         (cache_lines s) (last_updated_file_time s) n.

Definition on_mach (f : machine -> machine) (s : tstate) : tstate :=
  set_mach (f (mach s)) s.

(** The names of the logs that carry no flows. *)
Definition is_excluded (filename : string) : bool :=
  PyStr.contains "capture_loss" filename
  || PyStr.contains "loaded_scripts" filename
  || PyStr.contains "packet_filter" filename
  || PyStr.contains "stats" filename
  || PyStr.contains "weird" filename
  || PyStr.contains "reporter" filename.

Inductive step : Type :=
| Continue (s : tstate)
| Break (s : tstate)
| Raised (e : exn) (s : tstate).

Inductive outcome : Type :=
| Returned (n : Z)
| Failed (e : exn)
| OutOfFuel.

Section Tailer.

(** [json.loads]; [None] stands for [JSONDecodeError]. *)
Variable json_loads : string -> option pyval.
Variable w : world.
(** [self.bro_timeout] *)
Variable bro_timeout : Z.

(** [line = {}; line['type'] = filename; line['data'] = data]. *)
Definition new_line (filename : string) (data : pyval) (s : tstate)
  : tstate * addr :=
  let (h1, a) := heap_alloc (heap (mach s)) in
  let h2 := heap_setitem h1 a "type" (PStr filename) in
  let h3 := heap_setitem h2 a "data" data in
  (on_mach (m_set_heap h3) s, a).

(** [time_last_lines[filename] = timestamp; cache_lines[filename] = line]. *)
Definition store_head (filename : string) (timestamp : pyval) (a : addr)
           (s : tstate) : tstate :=
  set_cache_lines (Dict.set filename a (cache_lines s))
    (set_time_last_lines
       (Dict.set filename timestamp (time_last_lines s)) s).

(** Lines 202-237: what becomes of a line that was read. *)
Definition classify (filename zeek_line : string) (s : tstate)
  : tstate * option exn :=
  match json_loads zeek_line with
  | Some (PDict d) =>
      let timestamp :=
        match Dict.get "ts" d with
        | Some v => v
        | None => PNum (0 # 1)%Q
        end in
      let (s1, a) := new_line filename (PDict d) s in
      (store_head filename timestamp a s1, None)
  | Some _ =>
      (* line = {} is created, then nline['ts'] on a non-dictionary *)
      (on_mach (m_set_heap (fst (heap_alloc (heap (mach s))))) s,
       Some TypeError)
  | None =>
      match PyStr.first_char zeek_line with
      | None => (s, None)
      | Some c =>
          if Ascii.eqb c "#" then (s, None)
          else
            let (s1, a) := new_line filename (PStr zeek_line) s in
            let timestamp := PStr (PyStr.split_head PyStr.tab zeek_line) in
            (store_head filename timestamp a s1, None)
      end
  end.

(** Lines 187-237: read the next line of a file that has nothing cached. *)
Definition read_next (filename : string) (pos : nat) (s : tstate)
  : tstate * option exn :=
  match Dict.get filename (cache_lines s) with
  | Some _ => (s, None)
  | None =>
      let zeek_line :=
        w_readline w (tick (mach s)) (filename ++ ".log") pos in
      let s1 := on_mach m_tick s in
      if zeek_line =? "" then (s1, None)
      else
        let s2 :=
          set_open_file_handlers
            (Dict.set filename (S pos) (open_file_handlers s1)) s1 in
        let now := w_now w (tick (mach s2)) in
        let s3 := set_last_updated_file_time now (on_mach m_tick s2) in
        classify filename zeek_line s3
  end.

(** The body of [for filename in zeek_files]. *)
Definition for_body (filename : string) (s : tstate) : tstate * option exn :=
  match Dict.get filename (open_file_handlers s) with
  | Some pos => read_next filename pos s
  | None =>
      if is_excluded filename then (s, None)
      else
        let found := w_exists w (tick (mach s)) (filename ++ ".log") in
        let s1 := on_mach m_tick s in
        if found then
          read_next filename 0
            (set_open_file_handlers
               (Dict.set filename 0%nat (open_file_handlers s1)) s1)
        else (s1, Some FileNotFoundError)
  end.

Fixpoint for_files (files : list string) (s : tstate)
  : tstate * option exn :=
  match files with
  | [] => (s, None)
  | filename :: rest =>
      match for_body filename s with
      | (s', None) => for_files rest s'
      | r => r
      end
  end.

(** Lines 244-253: [true] when the loop breaks. *)
Definition quiescence_check (s : tstate) : tstate * bool :=
  if Dict.is_empty (cache_lines s) then
    let now := w_now w (tick (mach s)) in
    let diff := timedelta_seconds (now - last_updated_file_time s) in
    (on_mach m_tick s, (bro_timeout <=? diff)%Z)
  else (s, false).

Definition refresh_zeek_files (s : tstate) : tstate :=
  set_zeek_files (w_catalog w (tick (mach s))) (on_mach m_tick s).

(** Lines 255-284. *)
Definition emit_one (s : tstate) : step :=
  match sorted_by_get (time_last_lines s) with
  | None => Raised TypeError s
  | Some [] => Continue (on_mach (m_sleep (1 # 1)%Q) (refresh_zeek_files s))
  | Some (key :: _) =>
      match Dict.get key (cache_lines s) with
      | None => Raised KeyError s
      | Some line_to_send =>
          let s1 := on_mach (m_put (QRef line_to_send)) s in
          let s2 := set_lines (lines s1 + 1)%Z s1 in
          let s3 := set_cache_lines (Dict.del key (cache_lines s2)) s2 in
          let s4 :=
            set_time_last_lines (Dict.del key (time_last_lines s3)) s3 in
          Continue (refresh_zeek_files s4)
      end
  end.

(** One turn of [while True]. *)
Definition loop_body (s : tstate) : step :=
  match for_files (zeek_files s) s with
  | (s1, Some e) => Raised e s1
  | (s1, None) =>
      match quiescence_check s1 with
      | (s2, true) => Break s2
      | (s2, false) => emit_one s2
      end
  end.

Fixpoint tail_loop (fuel : nat) (s : tstate) : tstate * outcome :=
  match fuel with
  | O => (s, OutOfFuel)
  | S fuel' =>
      match loop_body s with
      | Continue s' => tail_loop fuel' s'
      | Break s' => (s', Returned (lines s'))
      | Raised e s' => (s', Failed e)
      end
  end.

(** Lines 159-166. *)
Definition tail_init (m : machine) : tstate :=
  let files := w_catalog w (tick m) in
  let m1 := m_tick m in
  let now := w_now w (tick m1) in
  TState (m_tick m1) files Dict.empty Dict.empty Dict.empty now 0%Z.

(** Lines 291-293. *)
Definition close_all (s : tstate) : machine :=
  fold_left (fun m file => m_emit (EvClose file) m)
            (Dict.keys (open_file_handlers s)) (mach s).

Definition read_zeek_files (fuel : nat) (m : machine) : machine * outcome :=
  match tail_loop fuel (tail_init m) with
  | (s, Returned n) => (close_all s, Returned n)
  | (s, o) => (mach s, o)
  end.

End Tailer.

(** ** [read_nfdump_file] *)

Definition nfdump_output_file : string := "nfdump_output.txt".

Definition py_truthy (v : pyval) : bool :=
  match v with
  | PNone => false
  | PBool b => b
  | PNum q => negb (Qeq_bool q (0 # 1)%Q)
  | PStr s => py_truthy_str s
  | PList l => negb (Nat.eqb (List.length l) 0)
  | PDict d => negb (Nat.eqb (List.length d) 0)
  end.

(** [v is None]. *)
Definition py_is_none (v : pyval) : bool :=
  match v with
  | PNone => true
  | _ => false
  end.

Record nstate : Type := NState {
  nf_mach : machine;
  nf_file_handler : option nat;      (* lines the handle has returned *)
  nf_next_line : option string;
  nf_last_updated_file_time : Z;
  nf_lines : Z;
  nf_line : addr                     (* the one [line] dictionary *)
}.

Inductive nstep : Type :=
| NContinue (s : nstate)
| NBreak (s : nstate).

Section Nfdump.

Variable w : world.
(** [self.nfdump_timeout] *)
Variable nfdump_timeout : Z.

Definition nf_on_mach (f : machine -> machine) (s : nstate) : nstate :=
  NState (f (nf_mach s)) (nf_file_handler s) (nf_next_line s)
         (nf_last_updated_file_time s) (nf_lines s) (nf_line s).

(** [file_handler.readline()]: always a [str]. *)
Definition nf_readline (pos : nat) (s : nstate) : pyval :=
  PStr (w_readline w (tick (nf_mach s)) nfdump_output_file pos).

(** Lines 148-153. *)
Definition nf_send (next_line : string) (s : nstate) : nstate :=
  let m1 :=
    m_set_heap
      (heap_setitem (heap (nf_mach s)) (nf_line s) "data" (PStr next_line))
      (nf_mach s) in
  let m2 := m_put (QRef (nf_line s)) m1 in
  NState m2 (nf_file_handler s) None (nf_last_updated_file_time s)
         (nf_lines s + 1)%Z (nf_line s).

(** Lines 114-147, with the handle at [pos]. *)
Definition nf_fetch (pos : nat) (s : nstate) : nstep :=
  match nf_next_line s with
  | Some next_line => NContinue (nf_send next_line s)
  | None =>
      let nfdump_line := nf_readline pos s in
      let s1 := nf_on_mach m_tick s in
      match nfdump_line with
      | PStr text =>
          if py_truthy nfdump_line then
            let s2 :=
              NState (nf_mach s1) (Some (S pos)) None
                     (nf_last_updated_file_time s1) (nf_lines s1)
                     (nf_line s1) in
            let ts := PyStr.split_head "," text in
            match PyStr.first_char ts with
            | None => NContinue s2            (* IndexError *)
            | Some c =>
                if negb (PyStr.isdigit (w_isdigit w) c ts) then NContinue s2
                else
                  let now := w_now w (tick (nf_mach s2)) in
                  let s3 :=
                    NState (m_tick (nf_mach s2)) (nf_file_handler s2)
                           (Some text) now (nf_lines s2) (nf_line s2) in
                  NContinue (nf_send text s3)
            end
          else if py_is_none nfdump_line then
            let now := w_now w (tick (nf_mach s1)) in
            let diff :=
              timedelta_seconds (now - nf_last_updated_file_time s1) in
            let s2 := nf_on_mach m_tick s1 in
            if (nfdump_timeout <=? diff)%Z then NBreak s2 else NContinue s2
          else NContinue s1
      | _ => NContinue s1
      end
  end.

(** One turn of [while True]. *)
Definition nf_body (s : nstate) : nstep :=
  match nf_file_handler s with
  | Some pos => nf_fetch pos s
  | None =>
      let found := w_exists w (tick (nf_mach s)) nfdump_output_file in
      let s1 := nf_on_mach m_tick s in
      if found then
        nf_fetch 0
          (NState (nf_mach s1) (Some 0%nat) (nf_next_line s1)
                  (nf_last_updated_file_time s1) (nf_lines s1) (nf_line s1))
      else NContinue (nf_on_mach (m_sleep (1 # 1)%Q) s1)
  end.

Fixpoint nf_loop (fuel : nat) (s : nstate) : nstate * outcome :=
  match fuel with
  | O => (s, OutOfFuel)
  | S fuel' =>
      match nf_body s with
      | NContinue s' => nf_loop fuel' s'
      | NBreak s' => (s', Returned (nf_lines s'))
      end
  end.

(** Lines 97-102. *)
Definition nf_init (m : machine) : nstate :=
  let now := w_now w (tick m) in
  let m1 := m_tick m in
  let (h1, a) := heap_alloc (heap m1) in
  let h2 := heap_setitem h1 a "type" (PStr "nfdump") in
  NState (m_set_heap h2 m1) None None now 0%Z a.

Definition read_nfdump_file (fuel : nat) (m : machine) : machine * outcome :=
  match nf_loop fuel (nf_init m) with
  | (s, Returned n) =>
      (m_emit (EvClose nfdump_output_file) (nf_mach s), Returned n)
  | (s, o) => (nf_mach s, o)
  end.

End Nfdump.

(** ** [run] *)

Record config : Type := Config {
  input_type : string;
  input_information : option string  (* [None] when no target was given *)
}.

Inductive run_result : Type :=
| RunTrue        (* return True *)
| RunNone        (* the end of the function is reached: None *)
| SysExit1       (* an exception reached sys.exit(1) *)
| RunOutOfFuel.

(** [bool(self.input_information)]. *)
Definition info_truthy (info : option string) : bool :=
  match info with
  | None => false
  | Some s => py_truthy_str s
  end.

Definition info_is (info : option string) (s : string) : bool :=
  match info with
  | None => false
  | Some s' => s' =? s
  end.

(** [for t_line in file_stream] of lines 316-320 and 354-359: the same
    dictionary at [line] is updated and put at every turn. *)
Fixpoint send_lines (delay : option Q) (line : addr) (stream : list string)
         (m : machine) : machine :=
  match stream with
  | [] => m
  | t_line :: rest =>
      let m1 :=
        match delay with
        | Some d => m_sleep d m
        | None => m
        end in
      let m2 :=
        m_set_heap (heap_setitem (heap m1) line "data" (PStr t_line)) m1 in
      send_lines delay line rest (m_put (QRef line) m2)
  end.

(** Lines 326-332. *)
Fixpoint add_log_files (dir : string) (files : list string) (m : machine)
  : machine :=
  match files with
  | [] => m
  | file :: rest =>
      let extension := PyStr.last_n 4 file in
      if extension =? ".log" then
        let file_name_without_extension := PyStr.drop_last_n 4 file in
        add_log_files dir rest
          (m_emit
             (EvAddZeekFile (dir ++ "/" ++ file_name_without_extension)) m)
      else add_log_files dir rest m
  end.

Section Run.

Variable json_loads : string -> option pyval.
Variable w : world.

(** Lines 362-368. *)
Definition finish_file_mode (m : machine) : machine * run_result :=
  (m_put (QStr "stop") m, RunTrue).

(** Lines 308-320. *)
Definition run_stdin (m : machine) : machine :=
  let (h1, line) := heap_alloc (heap m) in
  let h2 := heap_setitem h1 line "type" (PStr "stdin") in
  send_lines None line (w_stdin w) (m_set_heap h2 m).

(** Lines 341-360. *)
Definition run_single_file (path : string) (m : machine)
  : machine * option exn :=
  let found := w_exists w (tick m) path in
  let m1 := m_tick m in
  if found then
    let file_stream := w_lines w path in
    let (h1, line) := heap_alloc (heap m1) in
    let headers_line := PyStr.split_last "/" path in
    let '(h2, read_lines_delay) :=
      if PyStr.contains "binetflow" headers_line
         || PyStr.contains "argus" headers_line
      then (heap_setitem h1 line "type" (PStr "argus"), (2 # 100)%Q)
      else if PyStr.contains "log" headers_line
      then (heap_setitem h1 line "type" (PStr "zeek"), (0 # 1)%Q)
      else (h1, (0 # 1)%Q) in
    (send_lines (Some read_lines_delay) line file_stream (m_set_heap h2 m1),
     None)
  else (m1, Some FileNotFoundError).

Definition after_tailer (r : machine * outcome) (k : machine -> machine * run_result)
  : machine * run_result :=
  match r with
  | (m, Returned _) => k m
  | (m, Failed _) => (m, SysExit1)
  | (m, OutOfFuel) => (m, RunOutOfFuel)
  end.

Definition run (cfg : config) (fuel : nat) (m : machine)
  : machine * run_result :=
  let info := input_information cfg in
  if input_type cfg =? "file" then
    if negb (info_truthy info) || info_is info "-" then
      finish_file_mode (run_stdin m)
    else if info_truthy info then
      match info with
      | None => finish_file_mode m
      | Some path =>
          if w_isdir w path then
            let m1 := add_log_files path (w_listdir w path) m in
            after_tailer (read_zeek_files json_loads w 1 fuel m1)
                         finish_file_mode
          else
            match run_single_file path m with
            | (m1, None) => finish_file_mode m1
            | (m1, Some _) => (m1, SysExit1)
            end
      end
    else finish_file_mode m
  else if input_type cfg =? "nfdump" then
    match info with
    | None => (m, SysExit1)          (* str + None: TypeError *)
    | Some _ =>
        after_tailer (read_nfdump_file w 10 fuel m) (fun m1 => (m1, RunNone))
    end
  else if (input_type cfg =? "pcap") || (input_type cfg =? "interface") then
    match info with
    | None => (m, SysExit1)          (* TypeError *)
    | Some target =>
        let bro_timeout : option Z :=
          if input_type cfg =? "interface" then Some 9999999999999999%Z
          else
            match PyStr.first_char target with
            | None => None            (* IndexError *)
            | Some _ => Some 30%Z
            end in
        match bro_timeout with
        | None => (m, SysExit1)
        | Some timeout =>
            let m1 := m_sleep (3 # 1)%Q m in
            after_tailer (read_zeek_files json_loads w timeout fuel m1)
                         (fun m2 => (m2, RunTrue))
        end
    end
  else (m, RunNone).

End Run.

Definition machine0 : machine := Machine 0 [] [].

(** ** Scenarios

    Concrete worlds for the examples: a fixed catalog, files that no longer
    grow, a clock that advances one second per tick. *)

Module Scenario.

Definition dq : string := String "034"%char EmptyString.
Definition nl : string := String PyStr.newline EmptyString.
Definition tb : string := String PyStr.tab EmptyString.

(** The line [{}] and the line [{"ts":n}]. *)
Definition json_empty : string := "{}" ++ nl.
Definition json_ts (n : string) : string :=
  "{" ++ dq ++ "ts" ++ dq ++ ":" ++ n ++ "}" ++ nl.

(** [json.loads] on the lines of the scenarios: the JSON lines above
    decode, every other line used below (tab-separated rows, comments, a
    bare newline) is not JSON. *)
Definition json_table : Dict.t pyval :=
  [ (json_empty, PDict []);
    (json_ts "3", PDict [("ts", PNum (3 # 1)%Q)]);
    (json_ts "4", PDict [("ts", PNum (4 # 1)%Q)]);
    (json_ts "5", PDict [("ts", PNum (5 # 1)%Q)]);
    (json_ts "7", PDict [("ts", PNum (7 # 1)%Q)]) ].

Definition json_loads (s : string) : option pyval := Dict.get s json_table.

Definition file_lines (files : Dict.t (list string)) (path : string)
  : list string :=
  match Dict.get path files with
  | Some ls => ls
  | None => []
  end.

(** The digits outside ASCII that the scenarios know: the Arabic-Indic
    digits U+0660 to U+0669, in UTF-8 the byte 217 followed by a byte from
    160 to 169. *)
Definition arabic_indic_digit (s : string) : bool :=
  match s with
  | String c1 (String c2 _) =>
      (nat_of_ascii c1 =? 217)%nat
      && (160 <=? nat_of_ascii c2)%nat && (nat_of_ascii c2 <=? 169)%nat
  | _ => false
  end.

Definition static_world (catalog : list string)
           (files : Dict.t (list string)) (stdin : list string) : world :=
  World (fun _ => catalog)
        (fun _ path =>
           match Dict.get path files with
           | Some _ => true
           | None => false
           end)
        (fun _ path n => nth n (file_lines files path) "")
        (fun t => (Z.of_nat t * usec_per_second)%Z)
        stdin
        (fun _ => false)
        (fun _ => [])
        (file_lines files)
        arabic_indic_digit.

(** [static_world] with another clock. *)
Definition with_clock (now : nat -> Z) (w : world) : world :=
  World (w_catalog w) (w_exists w) (w_readline w) now
        (w_stdin w) (w_isdir w) (w_listdir w) (w_lines w) (w_isdigit w).

(** S2: [conn.log] holds ts 3 and 5, [dns.log] holds ts 4. *)
Definition two_files : world :=
  static_world ["conn"; "dns"]
    [("conn.log", [json_ts "3"; json_ts "5"]); ("dns.log", [json_ts "4"])]
    [].

(** [a.log] and [b.log] hold one line with ts 7 each; the catalog lists
    [b] first. *)
Definition tie_b_first : world :=
  static_world ["b"; "a"]
    [("a.log", [json_ts "7"]); ("b.log", [json_ts "7"])] [].

(** The same two files, the catalog listing [a] first. *)
Definition tie_a_first : world :=
  static_world ["a"; "b"]
    [("a.log", [json_ts "7"]); ("b.log", [json_ts "7"])] [].

(** The catalog is in alphabetical order; [a.log] holds ts 5 and 7,
    [b.log] holds ts 7. *)
Definition tie_after_refill : world :=
  static_world ["a"; "b"]
    [("a.log", [json_ts "5"; json_ts "7"]); ("b.log", [json_ts "7"])] [].

(** A JSON log without [ts] next to a tab-separated log. *)
Definition mixed_formats : world :=
  static_world ["a"; "b"]
    [("a.log", [json_empty]); ("b.log", ["10" ++ tb ++ "foo" ++ nl])] [].

(** A JSON log without [ts] next to a JSON log with ts 7. *)
Definition missing_ts : world :=
  static_world ["a"; "b"]
    [("a.log", [json_ts "7"]); ("b.log", [json_empty])] [].

(** S4: a header comment, then one row. *)
Definition with_comment : world :=
  static_world ["x"]
    [("x.log", ["#header" ++ nl; "10" ++ tb ++ "foo" ++ nl])] [].

(** A log whose only line is empty. *)
Definition blank_line : world :=
  static_world ["x"] [("x.log", [nl])] [].

(** An excluded log next to a flow log. *)
Definition with_stats : world :=
  static_world ["stats"; "conn"]
    [("stats.log", [json_ts "3"]); ("conn.log", [json_ts "4"])] [].

(** S1: two lines on standard input. *)
Definition two_stdin_lines : world :=
  static_world [] [] ["a" ++ nl; "b" ++ nl].

(** No log file ever appears. *)
Definition silent : world := static_world [] [] [].

(** No log file ever appears, and the wall clock reads a day more at the
    first check than when the tailer started. *)
Definition clock_jumps_a_day : world :=
  with_clock (fun t => if (t <=? 1)%nat then 0%Z else usec_per_day) silent.

(** No log file ever appears, and the wall clock is set back by one second
    right after the tailer started. *)
Definition clock_steps_back : world :=
  with_clock
    (fun t => if (t <=? 1)%nat then (10 * usec_per_second)%Z
              else (9 * usec_per_second)%Z)
    silent.

(** Single flat files. *)
Definition flat_files : world :=
  static_world []
    [("caps/day1.binetflow", ["r1" ++ nl; "r2" ++ nl]);
     ("caps/conn.log", ["r1" ++ nl]);
     ("caps/flows.txt", ["r1" ++ nl])] [].

(** The nfdump output holds one valid row and nothing more arrives. *)
Definition nfdump_one_row : world :=
  static_world [] [(nfdump_output_file, ["1620000000,1.2.3.4" ++ nl])] [].

(** A row whose first character is the Arabic-Indic digit three (U+0663,
    the bytes 217 and 163). *)
Definition arabic_three_row : string :=
  String "217"%char (String "163"%char (",1.2.3.4" ++ nl)).

(** The nfdump output holds a header, a row that starts with a digit outside
    ASCII and a row that starts with an ASCII digit. *)
Definition nfdump_three_rows : world :=
  static_world []
    [(nfdump_output_file,
      ["header,row,row" ++ nl; arabic_three_row;
       "1620000000,1.2.3.4" ++ nl])] [].

End Scenario.


(** ** What the properties speak about *)

(** The state a step leaves behind. *)
Definition step_state (r : step) : tstate :=
  match r with
  | Continue s | Break s | Raised _ s => s
  end.

(** The fields of a record as it was seen at a put. *)
Definition seen_field (k : string) (v : option pyval) : option pyval :=
  match v with
  | Some (PDict d) => Dict.get k d
  | _ => None
  end.

Definition is_some {A : Type} (o : option A) : bool :=
  match o with
  | Some _ => true
  | None => false
  end.

(** Every two buffered timestamps compare without a [TypeError]. *)
Definition pairwise_comparable (d : Dict.t pyval) : bool :=
  forallb (fun x => forallb (fun y => is_some (py_lt (snd x) (snd y))) d) d.

(** Every buffered timestamp is a number. *)
Definition all_numeric (d : Dict.t pyval) : bool :=
  forallb (fun x => is_some (num_of (snd x))) d.

(** The sleep that precedes a put in [send_lines]. *)
Definition sleep_events (delay : option Q) : list event :=
  match delay with
  | Some d => [EvSleep d]
  | None => []
  end.

Definition excluded_names : list string :=
  ["capture_loss"; "loaded_scripts"; "packet_filter"; "stats"; "weird";
   "reporter"].

(** A [line] dictionary as [read_zeek_files] builds it for [stem]. *)
Definition flow_record (stem : string) (v : option pyval) : Prop :=
  exists data, v = Some (PDict [("type", PStr stem); ("data", data)]).

(** A put made by the tailer: a reference to the record of a stem that is
    not excluded, which still reads in [m] as it did when it was put. *)
Definition flow_put (m : machine) (p : qitem * option pyval) : Prop :=
  exists a stem,
    fst p = QRef a
    /\ is_excluded stem = false
    /\ flow_record stem (snd p)
    /\ deref m (QRef a) = snd p.




Record tailer_inv (q0 : list (qitem * option pyval)) (s : tstate) : Prop :=
  TailerInv {
    inv_keys : Dict.keys (time_last_lines s) = Dict.keys (cache_lines s);
    inv_nodup : NoDup (Dict.keys (time_last_lines s));
    inv_handlers :
      forall k, In k (Dict.keys (open_file_handlers s)) ->
                is_excluded k = false;
    inv_cache :
      forall k a, In (k, a) (cache_lines s) ->
                  is_excluded k = false
                  /\ flow_record k (deref (mach s) (QRef a));
    inv_queue :
      exists new, puts (trace (mach s)) = (q0 ++ new)%list
                  /\ Forall (flow_put (mach s)) new
  }.


Section Reachability.

Variable json_loads : string -> option pyval.
Variable w : world.
Variable bro_timeout : Z.

(** The states at the top of [while True], for a tailer started in
    machine [m0]. *)
Inductive reachable (m0 : machine) : tstate -> Prop :=
| reach_init : reachable m0 (tail_init w m0)
| reach_step s s' :
    reachable m0 s ->
    loop_body json_loads w bro_timeout s = Continue s' ->
    reachable m0 s'.

(** The state in which a turn of the loop arrives at line 255, after the
    heads were filled and the quiescence check let it pass. *)
Definition before_emit (s : tstate) : option tstate :=
  match for_files json_loads w (zeek_files s) s with
  | (s1, None) =>
      match quiescence_check w bro_timeout s1 with
      | (s2, false) => Some s2
      | (_, true) => None
      end
  | (_, Some _) => None
  end.

End Reachability.

(** States of the scenarios that the examples start from. *)
Module ScenarioStates.

Import Scenario.

Definition or_init (w : world) (o : option tstate) : tstate :=
  match o with
  | Some s => s
  | None => tail_init w machine0
  end.


(** [tie_after_refill] at the top of the second turn, and at line 255 of
    that turn: [b] was buffered in the first turn, [a] again in the
    second. *)
Definition tie_second_turn : tstate :=
  Eval vm_compute in
    step_state
      (loop_body json_loads tie_after_refill 1
                 (tail_init tie_after_refill machine0)).

Definition tie_second_heads : tstate :=
  Eval vm_compute in
    or_init tie_after_refill
      (before_emit json_loads tie_after_refill 1 tie_second_turn).

(** [missing_ts], first turn, at line 255. *)
Definition missing_ts_heads : tstate :=
  Eval vm_compute in
    or_init missing_ts
      (before_emit json_loads missing_ts 1 (tail_init missing_ts machine0)).

End ScenarioStates.

(** ** Further notions for the properties of the tailer *)

(** The addresses among a list of puts. *)
Definition put_addrs (ps : list (qitem * option pyval)) : list addr :=
  flat_map (fun p => match fst p with
                     | QRef a => [a]
                     | QStr _ => []
                     end) ps.

(** Bookkeeping of the tailer: the counter [lines] counts the puts, and the
    dictionaries that were put or are buffered are pairwise distinct cells
    of the heap. *)
Record tailer_books (q0 : list (qitem * option pyval)) (s : tstate) : Prop :=
  TailerBooks {
    books_keys : NoDup (Dict.keys (cache_lines s));
    books_new :
      exists new,
        puts (trace (mach s)) = (q0 ++ new)%list
        /\ lines s = Z.of_nat (List.length new)
        /\ List.length (put_addrs new) = List.length new
        /\ NoDup (put_addrs new ++ map snd (cache_lines s))
        /\ Forall (fun a => (a < List.length (heap (mach s)))%nat)
                  (put_addrs new ++ map snd (cache_lines s))
  }.

(** The tailer while it has touched no file: nothing opened, nothing
    buffered, nothing sent, and only excluded stems to look at. *)
Definition untouched (s : tstate) : Prop :=
  open_file_handlers s = []
  /\ time_last_lines s = []
  /\ cache_lines s = []
  /\ lines s = 0%Z
  /\ forall stem, In stem (zeek_files s) -> is_excluded stem = true.

(** Scenarios for the error paths. *)
Module ErrorScenario.

(** [json.loads] on the lines of this module: the line [10] decodes to the
    number 10, a document that is not an object. *)
Definition json_loads (s : string) : option pyval :=
  if s =? ("10" ++ Scenario.nl) then Some (PNum (10 # 1)%Q) else None.

(** A log whose first line is the bare number 10. *)
Definition bare_number : world :=
  Scenario.static_world ["x"] [("x.log", ["10" ++ Scenario.nl])] [].

(** The catalog names a log that is not on disk. *)
Definition missing_log : world :=
  Scenario.static_world ["gone"] [] [].

End ErrorScenario.

(** A folder whose own name holds an excluded name. *)
Module FolderScenario.

Definition under_stats : world :=
  Scenario.static_world ["logs/stats_2021/conn"]
    [("logs/stats_2021/conn.log", [Scenario.json_ts "3"])] [].

End FolderScenario.

(** ** Further notions for the nfdump reader *)

(** A put of the nfdump reader: the dictionary at [line], showing type
    [nfdump] and a row whose first comma-separated field starts with a
    character that [str.isdigit] accepts. *)
Definition nf_put (w : world) (line : addr) (p : qitem * option pyval)
  : Prop :=
  exists row c,
    p = (QRef line,
         Some (PDict [("type", PStr "nfdump"); ("data", PStr row)]))
    /\ PyStr.first_char (PyStr.split_head "," row) = Some c
    /\ PyStr.isdigit (w_isdigit w) c (PyStr.split_head "," row) = true.

(** The first byte of the first comma-separated field of the row that a
    put shows, if there is one. *)
Definition put_first_byte (p : qitem * option pyval) : option ascii :=
  match seen_field "data" (snd p) with
  | Some (PStr row) => PyStr.first_char (PyStr.split_head "," row)
  | _ => None
  end.

Record nf_inv (w : world) (q0 : list (qitem * option pyval)) (s : nstate)
  : Prop :=
  NfInv {
    nfi_next : nf_next_line s = None;
    nfi_cell :
      exists d,
        heap_get (heap (nf_mach s)) (nf_line s) = Some d
        /\ (d = [("type", PStr "nfdump")]
            \/ exists row, d = [("type", PStr "nfdump"); ("data", PStr row)]);
    nfi_new :
      exists new,
        puts (trace (nf_mach s)) = (q0 ++ new)%list
        /\ nf_lines s = Z.of_nat (List.length new)
        /\ Forall (nf_put w (nf_line s)) new
  }.

(** ** Closing the logs *)

(** The files closed so far, oldest first. *)
Definition closes (tr : list event) : list string :=
  flat_map (fun e => match e with
                     | EvClose stem => [stem]
                     | _ => []
                     end) tr.

(** ** Telemetry lines *)

(** [str(n)] for an integer. *)
Definition py_str_int (z : Z) : string := NilZero.string_of_int (Z.to_int z).

(** Lines 89-90: the string that [print] puts on the output queue. *)
Definition print_message (name text : string) (verbose debug : Z) : string :=
  let vd_text := py_str_int (verbose * 10 + debug) in
  vd_text ++ "|" ++ name ++ "|[" ++ name ++ "] " ++ text.

(** The handles of the tailer: each stem is opened at most once, and
    nothing has been closed since the tailer started with [c0] closed. *)
Definition tailer_handles (c0 : list string) (s : tstate) : Prop :=
  closes (trace (mach s)) = c0
  /\ NoDup (Dict.keys (open_file_handlers s)).

(** The stem that a put shows as the type of its record. *)
Definition put_stem (p : qitem * option pyval) : option string :=
  match seen_field "type" (snd p) with
  | Some (PStr stem) => Some stem
  | _ => None
  end.

(** A put that shows the record of a stem with an open handle. *)
Definition put_of_open (s : tstate) (p : qitem * option pyval) : Prop :=
  exists stem,
    put_stem p = Some stem /\ In stem (Dict.keys (open_file_handlers s)).

(** Whatever is buffered or was put comes from a log that has a handle. *)
Definition handles_cover (q0 : list (qitem * option pyval)) (s : tstate)
  : Prop :=
  (forall k, In k (Dict.keys (cache_lines s)) ->
             In k (Dict.keys (open_file_handlers s)))
  /\ exists new,
      puts (trace (mach s)) = (q0 ++ new)%list
      /\ Forall (put_of_open s) new.

(** ** Further notions for the order of emission *)

(** Logs that no longer change: a read returns the line at the position of
    the handle, whenever it is made. *)
Definition static_files (w : world) (content : string -> list string) : Prop :=
  forall t path n, w_readline w t path n = nth n (content path) "".

Section RecordsOfLines.

Variable json_loads : string -> option pyval.


(** The timestamp that goes with it. *)
Definition record_timestamp (zeek_line : string) : option pyval :=
  match json_loads zeek_line with
  | Some (PDict d) =>
      Some match Dict.get "ts" d with
           | Some v => v
           | None => PNum (0 # 1)%Q
           end
  | Some _ => None
  | None =>
      match PyStr.first_char zeek_line with
      | None => None
      | Some c =>
          if Ascii.eqb c "#" then None
          else Some (PStr (PyStr.split_head PyStr.tab zeek_line))
      end
  end.



End RecordsOfLines.



(** The number of lines read from [stem] so far. *)
Definition pos_of (stem : string) (s : tstate) : nat :=
  match Dict.get stem (open_file_handlers s) with
  | Some n => n
  | None => 0
  end.



(** ** Further notions for the order across files *)

(** The timestamp that line 209-213 take from a decoded object. *)
Definition ts_of_dict (d : pydict) : pyval :=
  match Dict.get "ts" d with
  | Some v => v
  | None => PNum (0 # 1)%Q
  end.

Definition q_of (v : pyval) : Q :=
  match num_of v with
  | Some q => q
  | None => (0 # 1)%Q
  end.

(** The numeric timestamp of a JSON line, and of a record as it was put. *)
Definition line_q (json_loads : string -> option pyval) (zeek_line : string)
  : Q :=
  match json_loads zeek_line with
  | Some (PDict d) => q_of (ts_of_dict d)
  | _ => (0 # 1)%Q
  end.

Definition put_q (p : qitem * option pyval) : Q :=
  match seen_field "data" (snd p) with
  | Some (PDict d) => q_of (ts_of_dict d)
  | _ => (0 # 1)%Q
  end.

(** The index of the first line of [stem] that has not been put yet: the
    buffered head if there is one, else the next line to read. *)
Definition frontier (stem : string) (s : tstate) : nat :=
  match Dict.get stem (cache_lines s) with
  | Some _ => pos_of stem s - 1
  | None => pos_of stem s
  end.

Section MergeInvariant.

Variable json_loads : string -> option pyval.
Variable content : string -> list string.
Variable catalog : list string.

(** The stems the tailer reads. *)
Definition tracked (stem : string) : Prop :=
  In stem catalog /\ is_excluded stem = false.

(** The head buffered for a stem is the line before the handle, decoded. *)
Definition head_is_last_read (s : tstate) (stem : string) (a : addr) : Prop :=
  tracked stem
  /\ exists i d,
      pos_of stem s = S i
      /\ nth i (content (stem ++ ".log")) "" <> ""
      /\ json_loads (nth i (content (stem ++ ".log")) "") = Some (PDict d)
      /\ deref (mach s) (QRef a)
         = Some (PDict [("type", PStr stem); ("data", PDict d)])
      /\ In (stem, ts_of_dict d) (time_last_lines s).

(** A put whose timestamp is not above that of any line still to be put. *)
Definition below_frontier (s : tstate) (p : qitem * option pyval) : Prop :=
  forall stem j,
    tracked stem ->
    (frontier stem s <= j)%nat ->
    (j < List.length (content (stem ++ ".log")))%nat ->
    (put_q p <= line_q json_loads (nth j (content (stem ++ ".log")) ""))%Q.

Record merge_inv (q0 : list (qitem * option pyval)) (s : tstate) : Prop :=
  MergeInv {
    merge_catalog : zeek_files s = catalog;
    merge_heads :
      forall stem a, In (stem, a) (cache_lines s) ->
                     head_is_last_read s stem a;
    merge_new :
      exists new,
        puts (trace (mach s)) = (q0 ++ new)%list
        /\ Forall (below_frontier s) new
        /\ StronglySorted (fun p q => (put_q p <= put_q q)%Q) new
  }.

(** A stem with nothing buffered has nothing more to read. *)
Definition exhausted_or_buffered (s : tstate) (stem : string) : Prop :=
  Dict.get stem (cache_lines s) <> None
  \/ (List.length (content (stem ++ ".log")) <= pos_of stem s)%nat.

End MergeInvariant.

(** The two logs of [Scenario.two_files], as a content function. *)
Module MergeScenario.

Definition two_files_content : string -> list string :=
  Scenario.file_lines
    [("conn.log", [Scenario.json_ts "3"; Scenario.json_ts "5"]);
     ("dns.log", [Scenario.json_ts "4"])].

(** A header comment in front of the older row: [x.log] holds a comment and
    a row of timestamp 1, [y.log] a row of timestamp 5. *)
Definition comment_first : world :=
  Scenario.static_world ["x"; "y"]
    [("x.log", ["#fields" ++ Scenario.nl;
                "1" ++ Scenario.tb ++ "a" ++ Scenario.nl]);
     ("y.log", ["5" ++ Scenario.tb ++ "b" ++ Scenario.nl])] [].

End MergeScenario.
(** * Properties *)

(** ** The order on Python values *)

Section Order.

Lemma ascii_compare_refl (c : ascii) : Ascii.compare c c = Eq.
Proof. unfold Ascii.compare. apply N.compare_refl. Qed.

Lemma string_compare_refl (s : string) : String.compare s s = Eq.
Proof.
  induction s as [|c s IH]; simpl; [reflexivity|].
  now rewrite ascii_compare_refl.
Qed.

(** [<=] on strings, phrased with [compare], is transitive. *)
Lemma string_compare_not_gt_trans (a b c : string) :
  String.compare a b <> Gt ->
  String.compare b c <> Gt ->
  String.compare a c <> Gt.
Proof.
  revert b c.
  induction a as [|x a IH]; intros [|y b] [|z c]; simpl; try congruence.
  unfold Ascii.compare.
  destruct (N.compare_spec (N_of_ascii x) (N_of_ascii y)) as [Exy|Lxy|Gxy];
    destruct (N.compare_spec (N_of_ascii y) (N_of_ascii z)) as [Eyz|Lyz|Gyz];
    intros Hab Hbc; try congruence.
  - rewrite Exy, Eyz, N.compare_refl. now apply IH with b.
  - rewrite Exy. apply N.compare_lt_iff in Lyz. now rewrite Lyz.
  - rewrite <- Eyz. apply N.compare_lt_iff in Lxy. now rewrite Lxy.
  - assert (H : (N_of_ascii x < N_of_ascii z)%N) by lia.
    apply N.compare_lt_iff in H. now rewrite H.
Qed.

Lemma string_ltb_irrefl (s : string) : String.ltb s s = false.
Proof. unfold String.ltb. now rewrite string_compare_refl. Qed.

Lemma string_ltb_asym (s t : string) :
  String.ltb s t = true -> String.ltb t s = false.
Proof.
  unfold String.ltb. rewrite (String.compare_antisym t s).
  destruct (String.compare s t); simpl; congruence.
Qed.

Lemma string_nlt_trans (a b c : string) :
  String.ltb b a = false ->
  String.ltb c b = false ->
  String.ltb c a = false.
Proof.
  unfold String.ltb. intros Hba Hcb.
  assert (Hab : String.compare a b <> Gt).
  { rewrite (String.compare_antisym a b).
    destruct (String.compare b a); simpl in *; congruence. }
  assert (Hbc : String.compare b c <> Gt).
  { rewrite (String.compare_antisym b c).
    destruct (String.compare c b); simpl in *; congruence. }
  pose proof (string_compare_not_gt_trans a b c Hab Hbc) as Hac.
  rewrite (String.compare_antisym c a).
  destruct (String.compare a c); simpl in *; congruence.
Qed.

Lemma Qltb_false_iff (x y : Q) : Qltb x y = false <-> (y <= x)%Q.
Proof.
  unfold Qltb. rewrite negb_false_iff. apply Qle_bool_iff.
Qed.

Lemma Qltb_true_iff (x y : Q) : Qltb x y = true <-> (x < y)%Q.
Proof.
  unfold Qltb. rewrite negb_true_iff. split.
  - intros H. apply Qnot_le_lt. intros Hle.
    apply Qle_bool_iff in Hle. congruence.
  - intros H. destruct (Qle_bool y x) eqn:E; [|reflexivity].
    apply Qle_bool_iff in E. exfalso. now apply (Qlt_not_le x y).
Qed.

(** A comparison that does not raise is between two numbers or between
    two strings. *)
Lemma py_lt_cases (a b : pyval) (r : bool) :
  py_lt a b = Some r ->
  (exists x y, num_of a = Some x /\ num_of b = Some y /\ r = Qltb x y)
  \/ (exists s t, a = PStr s /\ b = PStr t /\ r = String.ltb s t).
Proof.
  unfold py_lt.
  destruct (num_of a) as [x|] eqn:Ea; destruct (num_of b) as [y|] eqn:Eb.
  - intros [= <-]. left. now exists x, y.
  - destruct a; destruct b; simpl in *; congruence.
  - destruct a; destruct b; simpl in *; congruence.
  - destruct a; destruct b; simpl in *; try congruence.
    intros [= <-]. right. now exists s, s0.
Qed.

Lemma py_lt_num (a b : pyval) (x y : Q) :
  num_of a = Some x -> num_of b = Some y -> py_lt a b = Some (Qltb x y).
Proof. intros Ha Hb. unfold py_lt. now rewrite Ha, Hb. Qed.

Lemma py_lt_irrefl (a : pyval) (b : bool) : py_lt a a = Some b -> b = false.
Proof.
  intros H. destruct (py_lt_cases _ _ _ H) as
      [(x & y & Hx & Hy & ->)|(s & t & Hs & Ht & ->)].
  - rewrite Hx in Hy. injection Hy as <-.
    apply Qltb_false_iff. apply Qle_refl.
  - rewrite Hs in Ht. injection Ht as <-. apply string_ltb_irrefl.
Qed.

Lemma py_lt_asym (a b : pyval) :
  py_lt a b = Some true -> py_lt b a = Some false.
Proof.
  intros H. destruct (py_lt_cases _ _ _ H) as
      [(x & y & Hx & Hy & E)|(s & t & -> & -> & E)].
  - rewrite (py_lt_num _ _ _ _ Hy Hx). f_equal.
    apply Qltb_false_iff. symmetry in E. apply Qltb_true_iff in E.
    now apply Qlt_le_weak.
  - unfold py_lt; simpl. f_equal. now apply string_ltb_asym.
Qed.

(** Transitivity of "not smaller than", which is [<=] where it is defined. *)
Lemma py_nlt_trans (a b c : pyval) :
  py_lt b a = Some false ->
  py_lt c b = Some false ->
  py_lt c a = Some false.
Proof.
  intros Hba Hcb.
  destruct (py_lt_cases _ _ _ Hba) as
      [(y & x & Hy & Hx & E1)|(t & s & -> & -> & E1)];
    destruct (py_lt_cases _ _ _ Hcb) as
      [(z & y' & Hz & Hy' & E2)|(u & t' & -> & Ht & E2)];
    try (subst; simpl in *; discriminate).
  - rewrite Hy in Hy'. injection Hy' as <-.
    rewrite (py_lt_num _ _ _ _ Hz Hx). f_equal.
    symmetry in E1, E2. apply Qltb_false_iff in E1, E2.
    apply Qltb_false_iff. now apply Qle_trans with y.
  - injection Ht as <-. unfold py_lt; simpl. f_equal.
    symmetry in E1, E2. now apply string_nlt_trans with t.
Qed.

End Order.

(** ** Dictionaries *)

Section DictFacts.

Context {V : Type}.
Implicit Types (d : Dict.t V) (k : string) (v : V).

Lemma dict_get_In k v d : Dict.get k d = Some v -> In (k, v) d.
Proof.
  induction d as [|[k' v'] d IH]; simpl; [discriminate|].
  destruct (String.eqb_spec k' k) as [->|Hne].
  - intros [= ->]. now left.
  - intros H. right. now apply IH.
Qed.

Lemma dict_get_keys k d :
  In k (Dict.keys d) -> exists v, Dict.get k d = Some v.
Proof.
  induction d as [|[k' v'] d IH]; simpl; [tauto|].
  destruct (String.eqb_spec k' k) as [->|Hne].
  - intros _. now exists v'.
  - intros [E|H]; [congruence|now apply IH].
Qed.

Lemma dict_get_None k d : Dict.get k d = None -> ~ In k (Dict.keys d).
Proof.
  intros H Hin. destruct (dict_get_keys _ _ Hin) as [v Hv]. congruence.
Qed.

Lemma dict_In_keys k v d : In (k, v) d -> In k (Dict.keys d).
Proof. intros H. apply (in_map fst) in H. exact H. Qed.

Lemma dict_In_get k v d :
  NoDup (Dict.keys d) -> In (k, v) d -> Dict.get k d = Some v.
Proof.
  induction d as [|[k' v'] d IH]; simpl; [tauto|].
  intros Hnd [E|Hin].
  - injection E as -> ->. now rewrite String.eqb_refl.
  - inversion Hnd as [|? ? Hnotin Hnd']; subst.
    destruct (String.eqb_spec k' k) as [->|Hne].
    + exfalso. apply Hnotin. now apply dict_In_keys with v.
    + now apply IH.
Qed.

Lemma dict_In_set k v d k' v' :
  In (k', v') (Dict.set k v d) -> (k' = k /\ v' = v) \/ In (k', v') d.
Proof.
  induction d as [|[k0 v0] d IH]; simpl.
  - intros [[= <- <-]|[]]. now left.
  - destruct (String.eqb_spec k0 k) as [->|Hne]; simpl.
    + intros [[= <- <-]|H]; [now left|right; now right].
    + intros [E|H]; [right; now left|].
      destruct (IH H) as [?|?]; [now left|right; now right].
Qed.

Lemma dict_In_del k d p : In p (Dict.del k d) -> In p d.
Proof.
  induction d as [|[k0 v0] d IH]; simpl; [tauto|].
  destruct (k0 =? k); simpl.
  - intros H. now right.
  - intros [E|H]; [now left|right; now apply IH].
Qed.

Lemma dict_keys_set_In k v d k' :
  In k' (Dict.keys (Dict.set k v d)) -> k' = k \/ In k' (Dict.keys d).
Proof.
  induction d as [|[k0 v0] d IH]; simpl.
  - intros [<-|[]]. now left.
  - destruct (String.eqb_spec k0 k) as [->|Hne]; simpl.
    + intros [<-|H]; [now left|right; now right].
    + intros [E|H]; [right; now left|].
      destruct (IH H) as [?|?]; [now left|right; now right].
Qed.

Lemma dict_NoDup_set k v d :
  NoDup (Dict.keys d) -> NoDup (Dict.keys (Dict.set k v d)).
Proof.
  induction d as [|[k0 v0] d IH]; simpl; intros Hnd.
  - constructor; [simpl; tauto|constructor].
  - inversion Hnd as [|? ? Hnotin Hnd']; subst.
    destruct (String.eqb_spec k0 k) as [->|Hne]; simpl.
    + now constructor.
    + constructor; [|now apply IH].
      intros Hin. destruct (dict_keys_set_In _ _ _ _ Hin); congruence.
Qed.

Lemma dict_NoDup_del k d :
  NoDup (Dict.keys d) -> NoDup (Dict.keys (Dict.del k d)).
Proof.
  induction d as [|[k0 v0] d IH]; simpl; intros Hnd; [constructor|].
  inversion Hnd as [|? ? Hnotin Hnd']; subst.
  destruct (k0 =? k); simpl; [assumption|].
  constructor; [|now apply IH].
  intros Hin. apply Hnotin.
  apply in_map_iff in Hin. destruct Hin as [[k1 v1] [E Hin]].
  simpl in E. subst k1. apply dict_In_del in Hin.
  now apply dict_In_keys with v1.
Qed.

End DictFacts.

(** Two dictionaries that are written and cleared together keep the same
    keys in the same order. *)
Lemma dict_keys_set_eq {A B : Type} (k : string) (a : A) (b : B)
      (d1 : Dict.t A) (d2 : Dict.t B) :
  Dict.keys d1 = Dict.keys d2 ->
  Dict.keys (Dict.set k a d1) = Dict.keys (Dict.set k b d2).
Proof.
  revert d2.
  induction d1 as [|[k1 v1] d1 IH]; intros [|[k2 v2] d2]; simpl;
    try discriminate; [reflexivity|].
  intros [= -> H]. destruct (k2 =? k); simpl; f_equal; auto.
Qed.

Lemma dict_keys_del_eq {A B : Type} (k : string)
      (d1 : Dict.t A) (d2 : Dict.t B) :
  Dict.keys d1 = Dict.keys d2 ->
  Dict.keys (Dict.del k d1) = Dict.keys (Dict.del k d2).
Proof.
  revert d2.
  induction d1 as [|[k1 v1] d1 IH]; intros [|[k2 v2] d2]; simpl;
    try discriminate; [reflexivity|].
  intros [= -> H]. destruct (k2 =? k); simpl; [assumption|f_equal; auto].
Qed.

Section DictLookups.

Context {V : Type}.
Implicit Types (d : Dict.t V) (k : string) (v : V).

Lemma dict_get_set_same k v d : Dict.get k (Dict.set k v d) = Some v.
Proof.
  induction d as [|[k0 v0] d IH]; simpl.
  - now rewrite String.eqb_refl.
  - destruct (k0 =? k) eqn:E; simpl; rewrite E; [reflexivity|assumption].
Qed.

Lemma dict_get_set_other k k' v d :
  k <> k' -> Dict.get k' (Dict.set k v d) = Dict.get k' d.
Proof.
  intros Hne. induction d as [|[k0 v0] d IH]; simpl.
  - apply String.eqb_neq in Hne. now rewrite Hne.
  - destruct (String.eqb_spec k0 k) as [->|Hk]; simpl.
    + apply String.eqb_neq in Hne. now rewrite Hne.
    + destruct (k0 =? k'); [reflexivity|assumption].
Qed.

Lemma dict_get_del_other k k' d :
  k <> k' -> Dict.get k' (Dict.del k d) = Dict.get k' d.
Proof.
  intros Hne. induction d as [|[k0 v0] d IH]; simpl; [reflexivity|].
  destruct (String.eqb_spec k0 k) as [->|Hk]; simpl.
  - apply String.eqb_neq in Hne. now rewrite Hne.
  - destruct (k0 =? k'); [reflexivity|assumption].
Qed.

Lemma dict_get_del_same k d :
  NoDup (Dict.keys d) -> Dict.get k (Dict.del k d) = None.
Proof.
  induction d as [|[k0 v0] d IH]; simpl; [reflexivity|].
  intros Hnd. inversion Hnd as [|? ? Hnotin Hnd']; subst.
  destruct (String.eqb_spec k0 k) as [->|Hk]; simpl.
  - destruct (Dict.get k d) eqn:E; [|reflexivity].
    exfalso. apply Hnotin. apply dict_In_keys with v. now apply dict_get_In.
  - apply String.eqb_neq in Hk. rewrite Hk. now apply IH.
Qed.

End DictLookups.

Lemma dict_In_set_same {V : Type} (k : string) (v : V) (d : Dict.t V) :
  In (k, v) (Dict.set k v d).
Proof. apply dict_get_In. apply dict_get_set_same. Qed.

Lemma dict_In_set_other {V : Type} (k k' : string) (v v' : V) (d : Dict.t V) :
  k <> k' -> In (k', v') d -> In (k', v') (Dict.set k v d).
Proof.
  intros Hne. induction d as [|[k0 v0] d IH]; simpl; [tauto|].
  destruct (String.eqb_spec k0 k) as [->|Hk]; simpl.
  - intros [[= <- <-]|H]; [congruence|now right].
  - intros [H|H]; [now left|right; now apply IH].
Qed.

Lemma dict_In_del_neq {V : Type} (k k' : string) (v : V) (d : Dict.t V) :
  NoDup (Dict.keys d) -> In (k', v) (Dict.del k d) -> k' <> k.
Proof.
  induction d as [|[k0 v0] d IH]; simpl; [tauto|].
  intros Hnd. inversion Hnd as [|? ? Hnotin Hnd']; subst.
  destruct (String.eqb_spec k0 k) as [->|Hk]; simpl.
  - intros Hin ->. apply Hnotin. now apply dict_In_keys with v.
  - intros [[= <- <-]|Hin]; [assumption|now apply IH].
Qed.

Lemma dict_In_del_other {V : Type} (k k' : string) (v : V) (d : Dict.t V) :
  k' <> k -> In (k', v) d -> In (k', v) (Dict.del k d).
Proof.
  intros Hne. induction d as [|[k0 v0] d IH]; simpl; [tauto|].
  destruct (String.eqb_spec k0 k) as [->|Hk]; simpl.
  - intros [[= -> <-]|Hin]; [congruence|assumption].
  - intros [H|Hin]; [now left|right; now apply IH].
Qed.

Lemma dict_keys_set_incl {V : Type} (k k' : string) (v : V) (d : Dict.t V) :
  In k' (Dict.keys d) -> In k' (Dict.keys (Dict.set k v d)).
Proof.
  induction d as [|[k0 v0] d IH]; simpl; [tauto|].
  destruct (k0 =? k); simpl; [tauto|].
  intros [H|H]; [now left|right; now apply IH].
Qed.

Lemma dict_keys_set_same {V : Type} (k : string) (v : V) (d : Dict.t V) :
  In k (Dict.keys (Dict.set k v d)).
Proof. apply dict_In_keys with v. apply dict_In_set_same. Qed.

Lemma dict_keys_del_In {V : Type} (k k' : string) (d : Dict.t V) :
  In k' (Dict.keys (Dict.del k d)) -> In k' (Dict.keys d).
Proof.
  intros H. apply in_map_iff in H. destruct H as [[k1 v1] [E H]].
  simpl in E. subst k1. apply dict_In_del in H.
  now apply dict_In_keys with v1.
Qed.

(** ** Sorting by value *)

Section Sorting.

Implicit Types (x y : string * pyval) (l r : list (string * pyval)).

Lemma insert_by_value_length x l r :
  insert_by_value x l = Some r -> List.length r = S (List.length l).
Proof.
  revert r. induction l as [|y l IH]; simpl; intros r.
  - now intros [= <-].
  - destruct (py_lt (snd y) (snd x)) as [[|]|]; try discriminate.
    + destruct (insert_by_value x l) as [r'|]; try discriminate.
      intros [= <-]. simpl. f_equal. now apply IH.
    + now intros [= <-].
Qed.

Lemma sort_by_value_length l r :
  sort_by_value l = Some r -> List.length r = List.length l.
Proof.
  revert r. induction l as [|x l IH]; simpl; intros r.
  - now intros [= <-].
  - destruct (sort_by_value l) as [r'|]; try discriminate.
    intros H. apply insert_by_value_length in H. rewrite H.
    f_equal. now apply IH.
Qed.

Lemma insert_by_value_In x l r :
  insert_by_value x l = Some r -> forall y, In y r -> y = x \/ In y l.
Proof.
  revert r. induction l as [|z l IH]; simpl; intros r.
  - intros [= <-] y [<-|[]]. now left.
  - destruct (py_lt (snd z) (snd x)) as [[|]|]; try discriminate.
    + destruct (insert_by_value x l) as [r'|]; try discriminate.
      intros [= <-] y [<-|Hin]; [right; now left|].
      destruct (IH r' eq_refl y Hin); [now left|right; now right].
    + intros [= <-] y [<-|Hin]; [now left|now right].
Qed.

Lemma sort_by_value_In l r :
  sort_by_value l = Some r -> forall y, In y r -> In y l.
Proof.
  revert r. induction l as [|x l IH]; simpl; intros r.
  - now intros [= <-].
  - destruct (sort_by_value l) as [r'|]; try discriminate.
    intros H y Hin.
    destruct (insert_by_value_In _ _ _ H y Hin) as [->|Hin'];
      [now left|right; now apply IH with r'].
Qed.

Lemma insert_by_value_total x l :
  (forall y, In y l -> py_lt (snd y) (snd x) <> None) ->
  exists r, insert_by_value x l = Some r.
Proof.
  induction l as [|y l IH]; simpl; intros Hcmp; [now eexists|].
  destruct (py_lt (snd y) (snd x)) as [[|]|] eqn:E.
  - destruct IH as [r ->]; [intros; apply Hcmp; now right|]. now eexists.
  - now eexists.
  - exfalso. apply (Hcmp y); [now left|assumption].
Qed.

(** Values that compare pairwise sort without a [TypeError]. *)
Lemma sort_by_value_total l :
  (forall x y, In x l -> In y l -> py_lt (snd x) (snd y) <> None) ->
  exists r, sort_by_value l = Some r.
Proof.
  induction l as [|x l IH]; simpl; intros Hcmp; [now eexists|].
  destruct IH as [r Hr].
  { intros a b Ha Hb. apply Hcmp; now right. }
  rewrite Hr. apply insert_by_value_total.
  intros y Hy. apply Hcmp; [right; now apply sort_by_value_In with r|now left].
Qed.

(** The first entry of the sorted list is the earliest entry of [l] that
    no other entry undercuts: entries before it are strictly greater,
    entries after it are not smaller. *)
Lemma sort_by_value_head l x r :
  sort_by_value l = Some (x :: r) ->
  exists l1 l2,
    l = (l1 ++ x :: l2)%list
    /\ Forall (fun y => py_lt (snd x) (snd y) = Some true) l1
    /\ Forall (fun y => py_lt (snd y) (snd x) = Some false) l2.
Proof.
  revert x r. induction l as [|a l IH]; simpl; intros x r; [discriminate|].
  destruct (sort_by_value l) as [[|y r0]|] eqn:Hs; try discriminate.
  - simpl. intros [= <- <-].
    apply sort_by_value_length in Hs. destruct l; [|discriminate].
    exists [], []. repeat split; constructor.
  - destruct (IH y r0 eq_refl) as (l1 & l2 & -> & H1 & H2).
    simpl. destruct (py_lt (snd y) (snd a)) as [[|]|] eqn:E;
      try discriminate.
    + destruct (insert_by_value a r0) as [r1|]; try discriminate.
      intros [= <- <-]. exists (a :: l1), l2.
      repeat split; [constructor|]; assumption.
    + intros [= <- <-]. exists [], (l1 ++ y :: l2)%list.
      repeat split; [constructor|].
      apply Forall_app. split; [|constructor].
      * rewrite Forall_forall in *. intros z Hz.
        apply py_nlt_trans with (snd y); [assumption|].
        apply py_lt_asym. now apply H1.
      * assumption.
      * rewrite Forall_forall in *. intros z Hz.
        apply py_nlt_trans with (snd y); [assumption|now apply H2].
Qed.

(** A number next to a string makes the sort raise. *)
Lemma sort_by_value_mixed l x y (q : Q) (s : string) :
  In x l -> In y l ->
  num_of (snd x) = Some q -> snd y = PStr s ->
  sort_by_value l = None.
Proof.
  intros Hx Hy Hq Hs.
  destruct (sort_by_value l) as [[|h r]|] eqn:E; [| |reflexivity].
  - apply sort_by_value_length in E. destruct l; [destruct Hx|discriminate].
  - exfalso.
    destruct (sort_by_value_head _ _ _ E) as (l1 & l2 & -> & H1 & H2).
    rewrite Forall_forall in H1, H2.
    assert (Hcls : forall z, In z (l1 ++ h :: l2)%list ->
              z = h \/ exists b, py_lt (snd h) (snd z) = Some b
                                 \/ py_lt (snd z) (snd h) = Some b).
    { intros z Hz. apply in_app_or in Hz. destruct Hz as [Hz|[<-|Hz]].
      - right. exists true. left. now apply H1.
      - now left.
      - right. exists false. right. now apply H2. }
    assert (Hnum : num_of (snd h) <> None).
    { destruct (Hcls x Hx) as [->|[b [Hb|Hb]]]; [congruence| |];
        destruct (py_lt_cases _ _ _ Hb) as
          [(u & v & Hu & Hv & _)|(u & v & Hu & Hv & _)];
        try congruence; rewrite ?Hu, ?Hv in Hq; discriminate. }
    destruct (Hcls y Hy) as [->|[b [Hb|Hb]]].
    + rewrite Hs in Hnum. now apply Hnum.
    + destruct (py_lt_cases _ _ _ Hb) as
          [(u & v & Hu & Hv & _)|(u & v & Hu & Hv & _)].
      * rewrite Hs in Hv. discriminate.
      * rewrite Hu in Hnum. now apply Hnum.
    + destruct (py_lt_cases _ _ _ Hb) as
          [(u & v & Hu & Hv & _)|(u & v & Hu & Hv & _)].
      * rewrite Hs in Hu. discriminate.
      * rewrite Hv in Hnum. now apply Hnum.
Qed.

End Sorting.

(** ** The heap *)

Section HeapFacts.

Lemma heap_update_last (h : list pydict) (d : pydict) (f : pydict -> pydict) :
  heap_update (h ++ [d]) (List.length h) f = (h ++ [f d])%list.
Proof. induction h as [|d0 h IH]; simpl; [reflexivity|now rewrite IH]. Qed.

Lemma heap_get_app (h l : list pydict) (a : addr) (d : pydict) :
  heap_get h a = Some d -> heap_get (h ++ l) a = Some d.
Proof.
  unfold heap_get. intros H. rewrite nth_error_app1; [assumption|].
  apply nth_error_Some. congruence.
Qed.

Lemma heap_get_last (h : list pydict) (d : pydict) :
  heap_get (h ++ [d]) (List.length h) = Some d.
Proof.
  unfold heap_get. rewrite nth_error_app2 by lia.
  now rewrite Nat.sub_diag.
Qed.

Lemma heap_get_update_same (h : list pydict) (a : addr) (f : pydict -> pydict)
      (d : pydict) :
  heap_get h a = Some d -> heap_get (heap_update h a f) a = Some (f d).
Proof.
  unfold heap_get. revert a.
  induction h as [|d0 h IH]; intros [|a]; simpl; try discriminate.
  - now intros [= ->].
  - apply IH.
Qed.

Lemma puts_app (t1 t2 : list event) :
  puts (t1 ++ t2) = (puts t1 ++ puts t2)%list.
Proof.
  induction t1 as [|[] t1 IH]; simpl; rewrite ?IH; reflexivity.
Qed.

End HeapFacts.

(** ** An invariant of the tailer *)

Section TailerInvariant.

Variable json_loads : string -> option pyval.
Variable w : world.
Variable bro_timeout : Z.
Variable q0 : list (qitem * option pyval).

Lemma flow_put_heap_eq (m m' : machine) (p : qitem * option pyval) :
  heap m' = heap m -> flow_put m p -> flow_put m' p.
Proof.
  intros Hh (a & k & P1 & P2 & P3 & P4). exists a, k.
  unfold deref in *. rewrite Hh. auto.
Qed.

(** The invariant looks at the heap, the puts and the three dictionaries
    only. *)
Lemma tailer_inv_ext (s s' : tstate) :
  heap (mach s') = heap (mach s) ->
  puts (trace (mach s')) = puts (trace (mach s)) ->
  open_file_handlers s' = open_file_handlers s ->
  time_last_lines s' = time_last_lines s ->
  cache_lines s' = cache_lines s ->
  tailer_inv q0 s -> tailer_inv q0 s'.
Proof.
  intros Hh Ht Ho Htl Hc [I1 I2 I3 I4 I5]. constructor.
  - now rewrite Htl, Hc.
  - now rewrite Htl.
  - now rewrite Ho.
  - rewrite Hc. intros k a Hin. unfold deref. rewrite Hh. now apply I4.
  - destruct I5 as (new & E & F). exists new. rewrite Ht.
    split; [assumption|].
    eapply Forall_impl; [|exact F]. intros p. now apply flow_put_heap_eq.
Qed.

Lemma deref_ref_app (m : machine) (l : list pydict) (a : addr) (v : pyval) :
  deref m (QRef a) = Some v ->
  deref (m_set_heap (heap m ++ l) m) (QRef a) = Some v.
Proof.
  unfold deref; simpl. destruct (heap_get (heap m) a) as [d|] eqn:E;
    [|discriminate].
  now rewrite (heap_get_app _ l _ _ E).
Qed.

Lemma flow_record_app (m : machine) (l : list pydict) (a : addr) (k : string) :
  flow_record k (deref m (QRef a)) ->
  flow_record k (deref (m_set_heap (heap m ++ l) m) (QRef a)).
Proof.
  intros [data E]. exists data. now apply deref_ref_app.
Qed.

Lemma flow_put_app (m : machine) (l : list pydict) (p : qitem * option pyval) :
  flow_put m p -> flow_put (m_set_heap (heap m ++ l) m) p.
Proof.
  intros (a & k & P1 & P2 & P3 & P4). exists a, k.
  repeat split; try assumption.
  destruct P3 as [data E]. rewrite E in *. now apply deref_ref_app.
Qed.

(** Allocation keeps the invariant: the heap only grows at its end. *)
Lemma tailer_inv_heap_app (l : list pydict) (s : tstate) :
  tailer_inv q0 s ->
  tailer_inv q0 (on_mach (m_set_heap (heap (mach s) ++ l)) s).
Proof.
  intros [I1 I2 I3 I4 I5]. constructor; simpl; try assumption.
  - intros k a Hin. destruct (I4 k a Hin) as [E R]. split; [assumption|].
    now apply flow_record_app.
  - destruct I5 as (new & E & F). exists new. split; [assumption|].
    eapply Forall_impl; [|exact F]. intros p. apply flow_put_app.
Qed.

Lemma new_line_eq (filename : string) (data : pyval) (s : tstate) :
  new_line filename data s
  = (on_mach
       (m_set_heap
          (heap (mach s) ++ [[("type", PStr filename); ("data", data)]])) s,
     List.length (heap (mach s))).
Proof.
  unfold new_line, heap_alloc, heap_setitem.
  now rewrite !heap_update_last.
Qed.

Lemma store_head_inv (filename : string) (timestamp data : pyval)
      (s : tstate) :
  is_excluded filename = false ->
  tailer_inv q0 s ->
  tailer_inv q0
    (store_head filename timestamp (snd (new_line filename data s))
                (fst (new_line filename data s))).
Proof.
  intros Hex I. rewrite new_line_eq. simpl.
  pose proof (tailer_inv_heap_app
                [[("type", PStr filename); ("data", data)]] s I)
    as [I1 I2 I3 I4 I5].
  simpl in *. constructor; simpl.
  - now apply dict_keys_set_eq.
  - now apply dict_NoDup_set.
  - assumption.
  - intros k a Hin. apply dict_In_set in Hin.
    destruct Hin as [[-> ->]|Hin]; [|now apply I4].
    split; [assumption|]. exists data. unfold deref; simpl.
    now rewrite heap_get_last.
  - assumption.
Qed.

Lemma classify_inv (filename zeek_line : string) (s : tstate) :
  is_excluded filename = false ->
  tailer_inv q0 s ->
  tailer_inv q0 (fst (classify json_loads filename zeek_line s)).
Proof.
  intros Hex I. unfold classify.
  destruct (json_loads zeek_line) as [[]|];
    try (simpl; now apply (tailer_inv_heap_app [[]] s I)).
  - pose proof (store_head_inv filename
                  match Dict.get "ts" d with
                  | Some v => v
                  | None => PNum (0 # 1)%Q
                  end (PDict d) s Hex I) as H.
    destruct (new_line filename (PDict d) s) as [s1 a]. exact H.
  - destruct (PyStr.first_char zeek_line) as [c|]; [|exact I].
    destruct (Ascii.eqb c "#"); [exact I|].
    pose proof (store_head_inv filename
                  (PStr (PyStr.split_head PyStr.tab zeek_line))
                  (PStr zeek_line) s Hex I) as H.
    destruct (new_line filename (PStr zeek_line) s) as [s1 a]. exact H.
Qed.

Lemma read_next_inv (filename : string) (pos : nat) (s : tstate) :
  is_excluded filename = false ->
  tailer_inv q0 s ->
  tailer_inv q0 (fst (read_next json_loads w filename pos s)).
Proof.
  intros Hex I. unfold read_next.
  destruct (Dict.get filename (cache_lines s)); [exact I|].
  destruct (_ =? ""); simpl.
  - now apply (tailer_inv_ext s).
  - apply classify_inv; [assumption|].
    destruct I as [I1 I2 I3 I4 I5]. constructor; simpl; try assumption.
    intros k Hin. apply dict_keys_set_In in Hin.
    destruct Hin as [->|Hin]; [assumption|now apply I3].
Qed.

Lemma for_body_inv (filename : string) (s : tstate) :
  tailer_inv q0 s ->
  tailer_inv q0 (fst (for_body json_loads w filename s)).
Proof.
  intros I. unfold for_body.
  destruct (Dict.get filename (open_file_handlers s)) as [pos|] eqn:E.
  - apply read_next_inv; [|assumption].
    apply (inv_handlers _ _ I).
    apply dict_In_keys with pos. now apply dict_get_In.
  - destruct (is_excluded filename) eqn:Hex; [exact I|].
    destruct (w_exists w _ _); simpl.
    + apply read_next_inv; [assumption|].
      destruct I as [I1 I2 I3 I4 I5]. constructor; simpl; try assumption.
      intros k Hin. apply dict_keys_set_In in Hin.
      destruct Hin as [->|Hin]; [assumption|now apply I3].
    + now apply (tailer_inv_ext s).
Qed.

Lemma for_files_inv (files : list string) (s : tstate) :
  tailer_inv q0 s ->
  tailer_inv q0 (fst (for_files json_loads w files s)).
Proof.
  revert s. induction files as [|f files IH]; simpl; intros s I;
    [assumption|].
  pose proof (for_body_inv f s I) as H.
  destruct (for_body json_loads w f s) as [s' [e|]]; simpl in *;
    [assumption|now apply IH].
Qed.

Lemma quiescence_check_inv (s : tstate) :
  tailer_inv q0 s ->
  tailer_inv q0 (fst (quiescence_check w bro_timeout s)).
Proof.
  intros I. unfold quiescence_check.
  destruct (Dict.is_empty (cache_lines s)); simpl; [|assumption].
  now apply (tailer_inv_ext s).
Qed.

Lemma emit_one_inv (s : tstate) :
  tailer_inv q0 s -> tailer_inv q0 (step_state (emit_one w s)).
Proof.
  intros I. unfold emit_one.
  destruct (sorted_by_get (time_last_lines s)) as [[|key ks]|]; simpl;
    [| |assumption].
  - apply (tailer_inv_ext s); simpl; auto.
    rewrite puts_app. simpl. now rewrite app_nil_r.
  - destruct (Dict.get key (cache_lines s)) as [a|] eqn:E; simpl;
      [|assumption].
    apply dict_get_In in E.
    destruct I as [I1 I2 I3 I4 I5]. constructor; simpl.
    + now apply dict_keys_del_eq.
    + now apply dict_NoDup_del.
    + assumption.
    + intros k a' Hin. apply dict_In_del in Hin. now apply I4.
    + destruct I5 as (new & E5 & F).
      exists (new ++ [(QRef a, deref (mach s) (QRef a))])%list.
      rewrite puts_app, E5, app_assoc. split; [reflexivity|].
      apply Forall_app. split.
      * eapply Forall_impl; [|exact F]. intros p.
        now apply flow_put_heap_eq.
      * constructor; [|constructor].
        destruct (I4 key a E) as [Hex R].
        exists a, key. simpl. auto.
Qed.

Lemma loop_body_inv (s : tstate) :
  tailer_inv q0 s ->
  tailer_inv q0 (step_state (loop_body json_loads w bro_timeout s)).
Proof.
  intros I. unfold loop_body.
  pose proof (for_files_inv (zeek_files s) s I) as H1.
  destruct (for_files json_loads w (zeek_files s) s) as [s1 [e|]];
    simpl in *; [assumption|].
  pose proof (quiescence_check_inv s1 H1) as H2.
  destruct (quiescence_check w bro_timeout s1) as [s2 [|]]; simpl in *;
    [assumption|].
  now apply emit_one_inv.
Qed.

Lemma tail_loop_inv (fuel : nat) (s : tstate) :
  tailer_inv q0 s ->
  tailer_inv q0 (fst (tail_loop json_loads w bro_timeout fuel s)).
Proof.
  revert s. induction fuel as [|fuel IH]; simpl; intros s I; [assumption|].
  pose proof (loop_body_inv s I) as H.
  destruct (loop_body json_loads w bro_timeout s); simpl in *;
    [now apply IH|assumption|assumption].
Qed.

End TailerInvariant.

Lemma tail_init_inv (w : world) (m : machine) :
  tailer_inv (puts (trace m)) (tail_init w m).
Proof.
  constructor; simpl; try tauto.
  - constructor.
  - exists []. now rewrite app_nil_r.
Qed.

(** ** The emission step *)

Section Emission.

Variable json_loads : string -> option pyval.
Variable w : world.
Variable bro_timeout : Z.

Lemma reachable_inv (m0 : machine) (s : tstate) :
  reachable json_loads w bro_timeout m0 s ->
  tailer_inv (puts (trace m0)) s.
Proof.
  induction 1 as [|s s' _ IH Hstep].
  - apply tail_init_inv.
  - pose proof (loop_body_inv json_loads w bro_timeout _ s IH) as H.
    now rewrite Hstep in H.
Qed.

Lemma before_emit_inv (q0 : list (qitem * option pyval)) (s s2 : tstate) :
  tailer_inv q0 s ->
  before_emit json_loads w bro_timeout s = Some s2 ->
  tailer_inv q0 s2.
Proof.
  unfold before_emit. intros I.
  pose proof (for_files_inv json_loads w q0 (zeek_files s) s I) as H1.
  destruct (for_files json_loads w (zeek_files s) s) as [s1 [e|]];
    [discriminate|]. simpl in H1.
  pose proof (quiescence_check_inv w bro_timeout q0 s1 H1) as H2.
  destruct (quiescence_check w bro_timeout s1) as [s2' [|]];
    [discriminate|]. now intros [= <-].
Qed.


Lemma pairwise_comparable_spec (d : Dict.t pyval) :
  pairwise_comparable d = true ->
  forall x y, In x d -> In y d -> py_lt (snd x) (snd y) <> None.
Proof.
  unfold pairwise_comparable. intros H x y Hx Hy.
  rewrite forallb_forall in H. specialize (H x Hx).
  rewrite forallb_forall in H. specialize (H y Hy).
  destruct (py_lt (snd x) (snd y)); [discriminate|discriminate].
Qed.

(** What the emission step does to a state in which heads are buffered:
    it puts the head of the key that [sorted] lists first, and that key is
    the earliest entry of [time_last_lines] that no entry undercuts. *)
Lemma emit_one_head (q0 : list (qitem * option pyval)) (s s' : tstate) :
  tailer_inv q0 s ->
  emit_one w s = Continue s' ->
  time_last_lines s <> [] ->
  exists key ts line earlier later,
    time_last_lines s = (earlier ++ (key, ts) :: later)%list
    /\ Dict.get key (time_last_lines s) = Some ts
    /\ Dict.get key (cache_lines s) = Some line
    /\ trace (mach s')
       = (trace (mach s)
            ++ [EvPut (QRef line) (deref (mach s) (QRef line))])%list
    /\ Forall (fun e => py_lt ts (snd e) = Some true) earlier
    /\ Forall (fun e => py_lt (snd e) ts = Some false) later.
Proof.
  intros I. unfold emit_one, sorted_by_get.
  destruct (sort_by_value (time_last_lines s)) as [[|[key ts] r]|] eqn:Hs;
    simpl; try discriminate.
  - apply sort_by_value_length in Hs.
    destruct (time_last_lines s); [congruence|discriminate].
  - destruct (Dict.get key (cache_lines s)) as [line|] eqn:Hc;
      [|discriminate].
    intros [= <-] _.
    destruct (sort_by_value_head _ _ _ Hs) as (l1 & l2 & E & H1 & H2).
    exists key, ts, line, l1, l2. simpl in *.
    repeat split; try assumption.
    apply dict_In_get; [apply (inv_nodup _ _ I)|].
    rewrite E. apply in_or_app. right. now left.
Qed.

(** Under pairwise comparable timestamps the emission step does not
    raise. *)
Lemma emit_one_continues (q0 : list (qitem * option pyval)) (s : tstate) :
  tailer_inv q0 s ->
  pairwise_comparable (time_last_lines s) = true ->
  exists s', emit_one w s = Continue s'.
Proof.
  intros I Hcmp. unfold emit_one, sorted_by_get.
  destruct (sort_by_value_total (time_last_lines s)) as [r Hr].
  { now apply pairwise_comparable_spec. }
  rewrite Hr. simpl. destruct r as [|[key ts] r]; simpl; [now eexists|].
  assert (Hin : In key (Dict.keys (cache_lines s))).
  { rewrite <- (inv_keys _ _ I).
    apply dict_In_keys with ts.
    apply (sort_by_value_In _ _ Hr). now left. }
  destruct (dict_get_keys _ _ Hin) as [line ->]. now eexists.
Qed.

Lemma emit_one_minimum (q0 : list (qitem * option pyval)) (s : tstate) :
  tailer_inv q0 s ->
  cache_lines s <> [] ->
  pairwise_comparable (time_last_lines s) = true ->
  exists key ts line s',
    emit_one w s = Continue s'
    /\ Dict.get key (time_last_lines s) = Some ts
    /\ Dict.get key (cache_lines s) = Some line
    /\ trace (mach s')
       = (trace (mach s)
            ++ [EvPut (QRef line) (deref (mach s) (QRef line))])%list
    /\ forall k' ts', Dict.get k' (time_last_lines s) = Some ts' ->
                      py_lt ts' ts = Some false.
Proof.
  intros I Hne Hcmp.
  destruct (emit_one_continues q0 s I Hcmp) as [s' Hs'].
  assert (Hne' : time_last_lines s <> []).
  { intros E. apply Hne. pose proof (inv_keys _ _ I) as K.
    rewrite E in K. destruct (cache_lines s); [reflexivity|discriminate]. }
  destruct (emit_one_head q0 s s' I Hs' Hne')
    as (key & ts & line & l1 & l2 & E & Ht & Hc & Htr & H1 & H2).
  exists key, ts, line, s'. repeat split; try assumption.
  intros k' ts' Hget. apply dict_get_In in Hget.
  rewrite E in Hget. apply in_app_or in Hget.
  rewrite Forall_forall in H1, H2.
  destruct Hget as [Hin|[Heq|Hin]].
  - apply py_lt_asym. apply (H1 _ Hin).
  - injection Heq as <- <-.
    pose proof (pairwise_comparable_spec _ Hcmp (key, ts) (key, ts)) as Hself.
    simpl in Hself. destruct (py_lt ts ts) as [b|] eqn:Eb.
    + now rewrite (py_lt_irrefl ts b Eb).
    + exfalso. apply Hself; try reflexivity;
        rewrite E; apply in_or_app; right; now left.
  - apply (H2 _ Hin).
Qed.

(** *** The timestamp kept for a head is the timestamp of its record *)














End Emission.

(** ** Order of emission *)



(** A lone head whose [ts] is [null] is put as well: [sorted] compares
    nothing when there is one key. *)
Example lone_null_timestamp_is_put :
  let d := [("x", PNone)] in
  sorted_by_get d = Some ["x"] /\ pairwise_comparable d = false.
Proof. split; reflexivity. Qed.

(** C3, as the code has it.  When several buffered heads share the smallest
    timestamp, the tailer emits the one that was buffered first: the chosen
    entry of [time_last_lines] has only strictly greater timestamps before
    it, and none smaller after it.  File stems play no role. *)
Theorem ties_go_to_earliest_buffered
        (json_loads : string -> option pyval) (w : world) (bro_timeout : Z)
        (m0 : machine) (s s2 s' : tstate) :
  reachable json_loads w bro_timeout m0 s ->
  before_emit json_loads w bro_timeout s = Some s2 ->
  cache_lines s2 <> [] ->
  emit_one w s2 = Continue s' ->
  exists key ts line earlier later,
    time_last_lines s2 = (earlier ++ (key, ts) :: later)%list
    /\ Dict.get key (cache_lines s2) = Some line
    /\ trace (mach s')
       = (trace (mach s2)
            ++ [EvPut (QRef line) (deref (mach s2) (QRef line))])%list
    /\ Forall (fun e => py_lt ts (snd e) = Some true) earlier
    /\ Forall (fun e => py_lt (snd e) ts = Some false) later.
Proof.
  intros Hreach Hbefore Hne Hemit.
  pose proof (reachable_inv _ _ _ _ _ Hreach) as I.
  pose proof (before_emit_inv _ _ _ _ _ _ I Hbefore) as I2.
  assert (Hne' : time_last_lines s2 <> []).
  { intros E. apply Hne. pose proof (inv_keys _ _ I2) as K.
    rewrite E in K. destruct (cache_lines s2); [reflexivity|discriminate]. }
  destruct (emit_one_head w _ s2 s' I2 Hemit Hne')
    as (key & ts & line & l1 & l2 & E & Ht & Hc & Htr & H1 & H2).
  exists key, ts, line, l1, l2. auto.
Qed.

Lemma ties_go_to_earliest_buffered_witness :
  let s2 := ScenarioStates.tie_second_heads in
  time_last_lines s2 = [("b", PNum (7 # 1)%Q); ("a", PNum (7 # 1)%Q)]
  /\ exists key ts line earlier later,
      time_last_lines s2 = (earlier ++ (key, ts) :: later)%list
      /\ Dict.get key (cache_lines s2) = Some line
      /\ trace (mach (step_state (emit_one Scenario.tie_after_refill s2)))
         = (trace (mach s2)
              ++ [EvPut (QRef line) (deref (mach s2) (QRef line))])%list
      /\ Forall (fun e => py_lt ts (snd e) = Some true) earlier
      /\ Forall (fun e => py_lt (snd e) ts = Some false) later.
Proof.
  split; [reflexivity|].
  apply (ties_go_to_earliest_buffered
           Scenario.json_loads Scenario.tie_after_refill 1 machine0
           ScenarioStates.tie_second_turn).
  - apply (reach_step _ _ _ _ (tail_init Scenario.tie_after_refill machine0));
      [apply reach_init|vm_compute; reflexivity].
  - vm_compute. reflexivity.
  - vm_compute. discriminate.
  - vm_compute. reflexivity.
Defined.

(** C3, as stated, fails.  With the catalog listing [b] before [a] and one
    line of ts 7 in each file, [b]'s record is put first.  With the catalog
    in alphabetical order, [a.log] holding ts 5 and 7 and [b.log] holding
    ts 7, the two heads of ts 7 are emitted [b] first. *)
Lemma tie_not_broken_by_stem :
  map (fun p => seen_field "type" (snd p))
      (puts (trace (fst (read_zeek_files Scenario.json_loads
                                         Scenario.tie_b_first 1 20 machine0))))
  = [Some (PStr "b"); Some (PStr "a")]
  /\ map (fun p => (seen_field "type" (snd p), seen_field "data" (snd p)))
         (puts (trace (fst (read_zeek_files Scenario.json_loads
                                            Scenario.tie_after_refill 1 20
                                            machine0))))
     = [(Some (PStr "a"), Some (PDict [("ts", PNum (5 # 1)%Q)]));
        (Some (PStr "b"), Some (PDict [("ts", PNum (7 # 1)%Q)]));
        (Some (PStr "a"), Some (PDict [("ts", PNum (7 # 1)%Q)]))].
Proof. split; vm_compute; reflexivity. Qed.

(** ** Timestamps of different types *)

Lemma all_numeric_comparable (d : Dict.t pyval) :
  all_numeric d = true -> pairwise_comparable d = true.
Proof.
  unfold all_numeric, pairwise_comparable. intros H.
  rewrite forallb_forall in H.
  apply forallb_forall. intros x Hx. apply forallb_forall. intros y Hy.
  pose proof (H x Hx) as Nx. pose proof (H y Hy) as Ny.
  destruct (num_of (snd x)) as [qx|] eqn:Ex; [|discriminate].
  destruct (num_of (snd y)) as [qy|] eqn:Ey; [|discriminate].
  now rewrite (py_lt_num _ _ _ _ Ex Ey).
Qed.

Lemma emit_one_mixed (w : world) (s : tstate) (k1 k2 : string) (t1 : pyval)
      (q : Q) (text : string) :
  In (k1, t1) (time_last_lines s) ->
  num_of t1 = Some q ->
  In (k2, PStr text) (time_last_lines s) ->
  emit_one w s = Raised TypeError s.
Proof.
  intros H1 Hq H2. unfold emit_one, sorted_by_get.
  now rewrite (sort_by_value_mixed _ (k1, t1) (k2, PStr text) q text H1 H2 Hq).
Qed.

(** C4, as the code has it.  When every buffered head carries a numeric
    timestamp (the substituted 0 included) the comparison does not raise,
    and while a head with the substituted 0 is buffered no head with a
    timestamp above 0 is emitted.  When a numeric and a textual timestamp
    are buffered together, the emission step raises [TypeError]. *)
Theorem numeric_timestamps_sort_and_mixed_raise
        (json_loads : string -> option pyval) (w : world) (bro_timeout : Z)
        (m0 : machine) (s s2 : tstate) :
  reachable json_loads w bro_timeout m0 s ->
  before_emit json_loads w bro_timeout s = Some s2 ->
  (all_numeric (time_last_lines s2) = true ->
   cache_lines s2 <> [] ->
   exists key ts line s',
     emit_one w s2 = Continue s'
     /\ Dict.get key (time_last_lines s2) = Some ts
     /\ Dict.get key (cache_lines s2) = Some line
     /\ trace (mach s')
        = (trace (mach s2)
             ++ [EvPut (QRef line) (deref (mach s2) (QRef line))])%list
     /\ ((exists k0, Dict.get k0 (time_last_lines s2) = Some (PNum (0 # 1)%Q))
         -> py_lt (PNum (0 # 1)%Q) ts = Some false))
  /\ (forall k1 t1 q k2 text,
         In (k1, t1) (time_last_lines s2) ->
         num_of t1 = Some q ->
         In (k2, PStr text) (time_last_lines s2) ->
         emit_one w s2 = Raised TypeError s2).
Proof.
  intros Hreach Hbefore. split.
  - intros Hnum Hne.
    pose proof (reachable_inv _ _ _ _ _ Hreach) as I.
    pose proof (before_emit_inv _ _ _ _ _ _ I Hbefore) as I2.
    destruct (emit_one_minimum w _ s2 I2 Hne (all_numeric_comparable _ Hnum))
      as (key & ts & line & s' & H1 & H2 & H3 & H4 & H5).
    exists key, ts, line, s'. repeat split; try assumption.
    intros [k0 Hk0]. now apply (H5 k0).
  - intros k1 t1 q k2 text H1 Hq H2. now apply (emit_one_mixed w s2 k1 k2 t1 q text).
Qed.

Lemma numeric_timestamps_sort_and_mixed_raise_witness :
  let s2 := ScenarioStates.missing_ts_heads in
  time_last_lines s2 = [("a", PNum (7 # 1)%Q); ("b", PNum (0 # 1)%Q)]
  /\ exists key ts line s',
      emit_one Scenario.missing_ts s2 = Continue s'
      /\ Dict.get key (time_last_lines s2) = Some ts
      /\ Dict.get key (cache_lines s2) = Some line
      /\ trace (mach s')
         = (trace (mach s2)
              ++ [EvPut (QRef line) (deref (mach s2) (QRef line))])%list
      /\ ((exists k0, Dict.get k0 (time_last_lines s2) = Some (PNum (0 # 1)%Q))
          -> py_lt (PNum (0 # 1)%Q) ts = Some false).
Proof.
  split; [reflexivity|].
  apply (numeric_timestamps_sort_and_mixed_raise
           Scenario.json_loads Scenario.missing_ts 1 machine0
           (tail_init Scenario.missing_ts machine0)).
  - apply reach_init.
  - vm_compute. reflexivity.
  - vm_compute. reflexivity.
  - vm_compute. discriminate.
Defined.

(** C4, as stated, fails.  A JSON log without [ts] (timestamp 0) next to a
    tab-separated log (timestamp ["10"]): both heads are buffered, the
    comparison raises and nothing is emitted. *)
Lemma mixed_timestamps_raise :
  let s := tail_init Scenario.mixed_formats machine0 in
  option_map time_last_lines
             (before_emit Scenario.json_loads Scenario.mixed_formats 1 s)
  = Some [("a", PNum (0 # 1)%Q); ("b", PStr "10")]
  /\ read_zeek_files Scenario.json_loads Scenario.mixed_formats 1 20 machine0
     = (mach (step_state
                (loop_body Scenario.json_loads Scenario.mixed_formats 1 s)),
        Failed TypeError)
  /\ puts (trace (fst (read_zeek_files Scenario.json_loads
                                        Scenario.mixed_formats 1 20 machine0)))
     = [].
Proof. split; [|split]; vm_compute; reflexivity. Qed.

(** ** The exclusion filter *)

Lemma close_all_heap (s : tstate) : heap (close_all s) = heap (mach s).
Proof.
  unfold close_all. generalize (mach s).
  induction (Dict.keys (open_file_handlers s)) as [|f fs IH]; simpl; intros m;
    [reflexivity|]. now rewrite IH.
Qed.

Lemma close_all_puts (s : tstate) :
  puts (trace (close_all s)) = puts (trace (mach s)).
Proof.
  unfold close_all. generalize (mach s).
  induction (Dict.keys (open_file_handlers s)) as [|f fs IH]; simpl; intros m;
    [reflexivity|]. rewrite IH. simpl. rewrite puts_app. simpl.
  now rewrite app_nil_r.
Qed.

Lemma is_excluded_false (stem : string) :
  is_excluded stem = false ->
  Forall (fun name => PyStr.contains name stem = false) excluded_names.
Proof.
  unfold is_excluded, excluded_names. intros H.
  repeat (apply orb_false_iff in H; destruct H as [H ?]).
  repeat constructor; assumption.
Qed.

(** C7.  In every run of the multi-file tailer, whatever the catalog holds,
    every record put on the profiler queue is the record of a stem that
    contains none of the excluded names. *)
Theorem excluded_stems_never_emitted
        (json_loads : string -> option pyval) (w : world) (bro_timeout : Z)
        (fuel : nat) (m : machine) :
  let m' := fst (read_zeek_files json_loads w bro_timeout fuel m) in
  exists new,
    puts (trace m') = (puts (trace m) ++ new)%list
    /\ Forall
         (fun p =>
            exists a stem data,
              p = (QRef a, Some (PDict [("type", PStr stem); ("data", data)]))
              /\ Forall (fun name => PyStr.contains name stem = false)
                        excluded_names
              /\ deref m' (QRef a) = snd p)
         new.
Proof.
  simpl. unfold read_zeek_files.
  pose proof (tail_loop_inv json_loads w bro_timeout (puts (trace m)) fuel
                (tail_init w m) (tail_init_inv w m)) as I.
  destruct (tail_loop json_loads w bro_timeout fuel (tail_init w m))
    as [s o]. simpl in I.
  destruct (inv_queue _ _ I) as (new & E & F).
  assert (G : forall m',
             heap m' = heap (mach s) ->
             Forall
               (fun p =>
                  exists a stem data,
                    p = (QRef a,
                         Some (PDict [("type", PStr stem); ("data", data)]))
                    /\ Forall (fun name => PyStr.contains name stem = false)
                              excluded_names
                    /\ deref m' (QRef a) = snd p)
               new).
  { intros m' Hh. eapply Forall_impl; [|exact F].
    intros [x seen] (a & stem & P1 & P2 & [data P3] & P4). simpl in *.
    exists a, stem, data. subst x seen.
    repeat split; [now apply is_excluded_false|].
    unfold deref in *. now rewrite Hh. }
  destruct o; simpl.
  - exists new. rewrite close_all_puts. split; [assumption|].
    apply G. apply close_all_heap.
  - exists new. split; [assumption|now apply G].
  - exists new. split; [assumption|now apply G].
Qed.

(** A catalog that lists [stats] next to [conn]: only [conn] is emitted. *)
Example stats_log_is_skipped :
  map (fun p => seen_field "type" (snd p))
      (puts (trace (fst (read_zeek_files Scenario.json_loads
                                         Scenario.with_stats 1 20 machine0))))
  = [Some (PStr "conn")].
Proof. vm_compute. reflexivity. Qed.

(** ** Quiescence *)

Section Quiescence.

Variable json_loads : string -> option pyval.
Variable w : world.
Variable bro_timeout : Z.

Lemma emit_one_not_break (s s' : tstate) : emit_one w s <> Break s'.
Proof.
  unfold emit_one.
  destruct (sorted_by_get _) as [[|k ks]|]; try discriminate.
  destruct (Dict.get k _); discriminate.
Qed.

(** The loop breaks exactly when the heads were filled without an
    exception, nothing is buffered, and the seconds field of
    [now - last_updated_file_time] has reached [bro_timeout]. *)
Lemma loop_body_break_iff (s : tstate) :
  (exists s', loop_body json_loads w bro_timeout s = Break s')
  <-> exists s1,
      for_files json_loads w (zeek_files s) s = (s1, None)
      /\ cache_lines s1 = []
      /\ (bro_timeout
          <= timedelta_seconds
               (w_now w (tick (mach s1)) - last_updated_file_time s1))%Z.
Proof.
  unfold loop_body, quiescence_check.
  destruct (for_files json_loads w (zeek_files s) s) as [s1 [e|]].
  - split; [intros [s' H]; discriminate|].
    intros (s1' & H & _). discriminate.
  - destruct (cache_lines s1) as [|c cs] eqn:Ec; simpl.
    + destruct (Z.leb_spec bro_timeout
                  (timedelta_seconds
                     (w_now w (tick (mach s1)) - last_updated_file_time s1)))
        as [Hle|Hgt].
      * split; [|intros _; now eexists].
        intros _. exists s1. rewrite Ec. auto.
      * split.
        -- intros [s' H]. now apply emit_one_not_break in H.
        -- intros (s1' & [= <-] & _ & Hle). lia.
    + split.
      * intros [s' H]. now apply emit_one_not_break in H.
      * intros (s1' & [= <-] & E & _). rewrite Ec in E. discriminate.
Qed.

(** The loop never breaks while a head is buffered. *)
Lemma loop_body_break_no_heads (s s' : tstate) :
  loop_body json_loads w bro_timeout s = Break s' -> cache_lines s' = [].
Proof.
  unfold loop_body, quiescence_check.
  destruct (for_files json_loads w (zeek_files s) s) as [s1 [e|]];
    [discriminate|].
  destruct (cache_lines s1) as [|c cs] eqn:Ec; simpl.
  - destruct (bro_timeout <=? _)%Z.
    + now intros [= <-].
    + intros H. now apply emit_one_not_break in H.
  - intros H. now apply emit_one_not_break in H.
Qed.

End Quiescence.

(** Within a day of the last read, and with a clock that did not go back,
    the seconds field is the whole number of seconds elapsed. *)
Lemma timedelta_seconds_within_a_day (diff timeout : Z) :
  (0 <= diff < usec_per_day)%Z ->
  (timeout <= timedelta_seconds diff)%Z
  <-> (timeout * usec_per_second <= diff)%Z.
Proof.
  intros H. unfold timedelta_seconds.
  rewrite Z.mod_small by assumption.
  unfold usec_per_second, usec_per_day in *.
  split; intros Hle.
  - assert (diff / 1000000 * 1000000 <= diff)%Z.
    { pose proof (Z.mul_div_le diff 1000000). lia. }
    nia.
  - apply Z.div_le_lower_bound; lia.
Qed.

(** C5, at the inputs where the code departs from it.  The check reads the
    seconds field of the time elapsed, which drops whole days and is 86399
    for a clock set back by a second.  With nothing buffered and no file at
    all: when the clock reads a day more than at the last activity the loop
    goes on although quiescence is reached; when the clock was set back by
    one second the loop breaks although no time has passed. *)
Theorem quiescence_reads_seconds_field :
  (let w := Scenario.clock_jumps_a_day in
   let s := tail_init w machine0 in
   cache_lines s = []
   /\ (w_now w (tick (mach s)) - last_updated_file_time s
       = 86400 * usec_per_second)%Z
   /\ exists s', loop_body Scenario.json_loads w 30 s = Continue s')
  /\ (let w := Scenario.clock_steps_back in
      let s := tail_init w machine0 in
      (w_now w (tick (mach s)) - last_updated_file_time s
       = - usec_per_second)%Z
      /\ exists s', loop_body Scenario.json_loads w 30 s = Break s').
Proof.
  split; simpl.
  - split; [reflexivity|]. split; [reflexivity|].
    eexists. vm_compute. reflexivity.
  - split; [reflexivity|]. eexists. vm_compute. reflexivity.
Qed.

(** ** The nfdump reader *)

Section NfdumpFacts.

Variable w : world.
Variable nfdump_timeout : Z.

Lemma nf_fetch_continues (pos : nat) (s : nstate) :
  exists s', nf_fetch w nfdump_timeout pos s = NContinue s'.
Proof.
  unfold nf_fetch, nf_readline.
  destruct (nf_next_line s); [now eexists|].
  simpl. destruct (py_truthy_str _).
  - destruct (PyStr.first_char _) as [c|]; [|now eexists].
    destruct (negb (PyStr.isdigit _ c _)); now eexists.
  - now eexists.
Qed.

Lemma nf_body_continues (s : nstate) :
  exists s', nf_body w nfdump_timeout s = NContinue s'.
Proof.
  unfold nf_body. destruct (nf_file_handler s).
  - apply nf_fetch_continues.
  - destruct (w_exists w _ _); [apply nf_fetch_continues|now eexists].
Qed.

Lemma nf_loop_out_of_fuel (fuel : nat) (s : nstate) :
  snd (nf_loop w nfdump_timeout fuel s) = OutOfFuel.
Proof.
  revert s. induction fuel as [|fuel IH]; simpl; intros s; [reflexivity|].
  destruct (nf_body_continues s) as [s' ->]. apply IH.
Qed.

End NfdumpFacts.

(** C6, as the code has it.  [readline] returns a string, never [None], so
    the timeout check of line 137 is never reached: whatever the file holds,
    whatever the clock reads and however long the reader is let run, it does
    not return. *)
Theorem nfdump_reader_never_returns
        (w : world) (nfdump_timeout : Z) (fuel : nat) (m : machine) :
  snd (read_nfdump_file w nfdump_timeout fuel m) = OutOfFuel.
Proof.
  unfold read_nfdump_file.
  pose proof (nf_loop_out_of_fuel w nfdump_timeout fuel (nf_init w m)) as H.
  destruct (nf_loop w nfdump_timeout fuel (nf_init w m)) as [s o].
  simpl in H. subst o. reflexivity.
Qed.

(** One valid row, then silence: the row is sent, and four hundred turns
    later (the clock at a second per tick) the reader is still looping. *)
Example nfdump_one_row_keeps_looping :
  let r := read_nfdump_file Scenario.nfdump_one_row 10 400 machine0 in
  map (fun p => seen_field "data" (snd p)) (puts (trace (fst r)))
  = [Some (PStr ("1620000000,1.2.3.4" ++ Scenario.nl))]
  /\ snd r = OutOfFuel
  /\ (400 <= tick (fst r))%nat.
Proof.
  split; [vm_compute; reflexivity|].
  split; [vm_compute; reflexivity|].
  apply Nat.leb_le. vm_compute. reflexivity.
Qed.

(** ** The single-stream readers *)

Lemma dict_set_set {V : Type} (k : string) (v v' : V) (d : Dict.t V) :
  Dict.set k v (Dict.set k v' d) = Dict.set k v d.
Proof.
  induction d as [|[k0 v0] d IH]; simpl.
  - now rewrite String.eqb_refl.
  - destruct (k0 =? k) eqn:E; simpl; rewrite E; [reflexivity|now rewrite IH].
Qed.

Lemma heap_update_length (h : list pydict) (a : addr) (f : pydict -> pydict) :
  List.length (heap_update h a f) = List.length h.
Proof.
  revert a. induction h as [|d h IH]; intros [|a]; simpl; auto.
Qed.

(** The reader of a stream updates one dictionary and puts it once per
    line: every put shows the line of its turn in [data], on top of what
    the dictionary held before the loop; the heap cell is left with the
    last line. *)
Lemma send_lines_spec (delay : option Q) (line : addr) (stream : list string)
      (m : machine) (d : pydict) :
  heap_get (heap m) line = Some d ->
  let m' := send_lines delay line stream m in
  trace m'
  = (trace m
       ++ flat_map
            (fun t =>
               sleep_events delay
               ++ [EvPut (QRef line)
                         (Some (PDict (Dict.set "data" (PStr t) d)))])
            stream)%list
  /\ heap_get (heap m') line
     = Some (fold_left (fun d t => Dict.set "data" (PStr t) d) stream d)
  /\ List.length (heap m') = List.length (heap m).
Proof.
  revert m d. induction stream as [|t rest IH]; intros m d Hd; simpl.
  - rewrite app_nil_r. auto.
  - set (m1 := match delay with Some d0 => m_sleep d0 m | None => m end).
    assert (Hh1 : heap m1 = heap m) by (unfold m1; now destruct delay).
    assert (Ht1 : trace m1 = (trace m ++ sleep_events delay)%list).
    { unfold m1. destruct delay; simpl; [reflexivity|now rewrite app_nil_r]. }
    set (m2 := m_set_heap
                 (heap_setitem (heap m1) line "data" (PStr t)) m1).
    assert (Hd2 : heap_get (heap m2) line
                  = Some (Dict.set "data" (PStr t) d)).
    { unfold m2, heap_setitem. simpl. rewrite Hh1.
      now apply heap_get_update_same. }
    assert (Hderef : deref m2 (QRef line)
                     = Some (PDict (Dict.set "data" (PStr t) d))).
    { unfold deref. now rewrite Hd2. }
    assert (Hd3 : heap_get (heap (m_put (QRef line) m2)) line
                  = Some (Dict.set "data" (PStr t) d)) by exact Hd2.
    specialize (IH (m_put (QRef line) m2) (Dict.set "data" (PStr t) d) Hd3).
    cbv zeta in IH. destruct IH as (IH1 & IH2 & IH3).
    fold m1. fold m2.
    split; [|split].
    + rewrite IH1.
      change (trace (m_put (QRef line) m2))
        with (trace m1 ++ [EvPut (QRef line) (deref m2 (QRef line))])%list.
      rewrite Hderef, Ht1. rewrite <- !app_assoc. f_equal. f_equal.
      simpl. f_equal.
      apply flat_map_ext. intros t'. now rewrite dict_set_set.
    + exact IH2.
    + rewrite IH3.
      change (heap (m_put (QRef line) m2))
        with (heap_update (heap m1) line (Dict.set "data" (PStr t))).
      now rewrite heap_update_length, Hh1.
Qed.

(** In file mode, a run that returns ends with the sentinel on the
    profiler queue. *)
Lemma file_mode_stop_last
      (json_loads : string -> option pyval) (w : world)
      (info : option string) (fuel : nat) (m m' : machine) :
  run json_loads w (Config "file" info) fuel m = (m', RunTrue) ->
  exists q, profilerqueue m' = (q ++ [QStr "stop"])%list.
Proof.
  assert (F : forall m0 r, finish_file_mode m0 = (m', r) ->
                           exists q, profilerqueue m' = (q ++ [QStr "stop"])%list).
  { intros m0 r [= <- _]. exists (profilerqueue m0).
    unfold profilerqueue, m_put, m_emit. simpl.
    now rewrite puts_app, map_app. }
  unfold run. simpl.
  destruct (negb (info_truthy info) || info_is info "-"); [apply F|].
  destruct (info_truthy info); [|apply F].
  destruct info as [path|]; [|apply F].
  destruct (w_isdir w path).
  - unfold after_tailer.
    destruct (read_zeek_files json_loads w 1 fuel _) as [m1 [n|e|]];
      [apply F|discriminate|discriminate].
  - destruct (run_single_file w path m) as [m1 [e|]]; [discriminate|apply F].
Qed.

(** C1, at the input where the code departs from it.  In pcap mode, with
    Zeek writing no log at all, the tailer reaches quiescence after thirty
    seconds and [run] returns [True]; nothing was put on the profiler
    queue, the sentinel included. *)
Theorem pcap_mode_ends_without_stop :
  let r := run Scenario.json_loads Scenario.silent
               (Config "pcap" (Some "capture.pcap")) 40 machine0 in
  snd r = RunTrue /\ profilerqueue (fst r) = [].
Proof. split; vm_compute; reflexivity. Qed.

(** C9, at the input where the code departs from it.  With the lines
    ["a\n"] and ["b\n"] on standard input, the three puts show
    [{type: stdin, data: "a\n"}], [{type: stdin, data: "b\n"}] and
    ["stop"] at the time they are made; the first two are one and the same
    dictionary, which the second turn overwrites: what was enqueued first
    reads [data: "b\n"] once the reader is done. *)
Theorem stdin_record_is_overwritten :
  let m := fst (run Scenario.json_loads Scenario.two_stdin_lines
                    (Config "file" (Some "-")) 0 machine0) in
  let rec_of (t : string) :=
    PDict [("type", PStr "stdin"); ("data", PStr (t ++ Scenario.nl))] in
  puts (trace m)
  = [(QRef 0, Some (rec_of "a")); (QRef 0, Some (rec_of "b"));
     (QStr "stop", Some (PStr "stop"))]
  /\ deref m (QRef 0) = Some (rec_of "b").
Proof. split; vm_compute; reflexivity. Qed.

(** C8, as the code has it.  For mode=file with a regular-file target,
    every record put carries type [argus] when the basename contains
    [binetflow] or [argus], each put coming after a sleep of 0.02 s; type
    [zeek] when it contains neither but contains [log]; and no [type] key
    at all otherwise.  The sentinel follows the last record. *)
Theorem single_file_record_types
        (json_loads : string -> option pyval) (w : world) (path : string)
        (fuel : nat) (m : machine) :
  path <> "" -> path <> "-" ->
  w_isdir w path = false ->
  w_exists w (tick m) path = true ->
  let base := PyStr.split_last "/" path in
  let r := run json_loads w (Config "file" (Some path)) fuel m in
  exists (typed : pydict) (delay : Q),
    ((PyStr.contains "binetflow" base || PyStr.contains "argus" base = true
      /\ typed = [("type", PStr "argus")] /\ delay = (2 # 100)%Q)
     \/ (PyStr.contains "binetflow" base || PyStr.contains "argus" base = false
         /\ PyStr.contains "log" base = true
         /\ typed = [("type", PStr "zeek")] /\ delay = (0 # 1)%Q)
     \/ (PyStr.contains "binetflow" base || PyStr.contains "argus" base = false
         /\ PyStr.contains "log" base = false
         /\ typed = [] /\ delay = (0 # 1)%Q))
    /\ snd r = RunTrue
    /\ trace (fst r)
       = (trace m
            ++ flat_map
                 (fun t =>
                    [EvSleep delay;
                     EvPut (QRef (List.length (heap m)))
                           (Some (PDict (typed ++ [("data", PStr t)])))])
                 (w_lines w path)
            ++ [EvPut (QStr "stop") (Some (PStr "stop"))])%list.
Proof.
  intros Hne Hdash Hdir Hex. simpl.
  unfold run. simpl.
  assert (E1 : (path =? "") = false) by now apply String.eqb_neq.
  assert (E2 : (path =? "-") = false) by now apply String.eqb_neq.
  unfold py_truthy_str. rewrite E1, E2, Hdir. simpl.
  unfold run_single_file. rewrite Hex. unfold heap_alloc, heap_setitem.
  set (base := PyStr.split_last "/" path).
  set (line := List.length (heap m)).
  assert (S : forall (typed : pydict) (delay : Q) (h : list pydict),
             heap_get h line = Some typed ->
             (forall t, Dict.set "data" (PStr t) typed
                        = (typed ++ [("data", PStr t)])%list) ->
             let r := finish_file_mode
                        (send_lines (Some delay) line (w_lines w path)
                                    (m_set_heap h (m_tick m))) in
             snd r = RunTrue
             /\ trace (fst r)
                = (trace m
                     ++ flat_map
                          (fun t =>
                             [EvSleep delay;
                              EvPut (QRef line)
                                    (Some (PDict (typed ++ [("data", PStr t)])))])
                          (w_lines w path)
                     ++ [EvPut (QStr "stop") (Some (PStr "stop"))])%list).
  { intros typed delay h Hh Hset. simpl. split; [reflexivity|].
    destruct (send_lines_spec (Some delay) line (w_lines w path)
                              (m_set_heap h (m_tick m)) typed Hh)
      as (T & _ & _).
    rewrite T. simpl. rewrite <- app_assoc. f_equal. f_equal.
    apply flat_map_ext. intros t. simpl. now rewrite Hset. }
  destruct (PyStr.contains "binetflow" base || PyStr.contains "argus" base)
           eqn:Ea.
  - exists [("type", PStr "argus")], (2 # 100)%Q.
    split; [left; auto|].
    apply S; [|reflexivity].
    rewrite heap_update_last. apply heap_get_last.
  - destruct (PyStr.contains "log" base) eqn:El.
    + exists [("type", PStr "zeek")], (0 # 1)%Q.
      split; [right; left; auto|].
      apply S; [|reflexivity].
      rewrite heap_update_last. apply heap_get_last.
    + exists [], (0 # 1)%Q.
      split; [right; right; auto|].
      apply S; [|reflexivity]. apply heap_get_last.
Qed.

Lemma single_file_record_types_witness :
  let w := Scenario.flat_files in
  let r := run Scenario.json_loads w
               (Config "file" (Some "caps/day1.binetflow")) 0 machine0 in
  exists (typed : pydict) (delay : Q),
    ((true = true /\ typed = [("type", PStr "argus")] /\ delay = (2 # 100)%Q)
     \/ (true = false /\ false = true
         /\ typed = [("type", PStr "zeek")] /\ delay = (0 # 1)%Q)
     \/ (true = false /\ false = false /\ typed = [] /\ delay = (0 # 1)%Q))
    /\ snd r = RunTrue
    /\ trace (fst r)
       = (flat_map
            (fun t =>
               [EvSleep delay;
                EvPut (QRef 0) (Some (PDict (typed ++ [("data", PStr t)])))])
            [("r1" ++ Scenario.nl)%string; ("r2" ++ Scenario.nl)%string]
            ++ [EvPut (QStr "stop") (Some (PStr "stop"))])%list.
Proof.
  apply (single_file_record_types
           Scenario.json_loads Scenario.flat_files "caps/day1.binetflow"
           0 machine0).
  - discriminate.
  - discriminate.
  - reflexivity.
  - reflexivity.
Defined.

(** C8, as stated, fails.  A regular file whose basename contains none of
    [binetflow], [argus], [log]: its record is put without a [type]. *)
Lemma plain_file_record_has_no_type :
  let r := run Scenario.json_loads Scenario.flat_files
               (Config "file" (Some "caps/flows.txt")) 0 machine0 in
  snd r = RunTrue
  /\ puts (trace (fst r))
     = [(QRef 0, Some (PDict [("data", PStr ("r1" ++ Scenario.nl))]));
        (QStr "stop", Some (PStr "stop"))]
  /\ map (fun p => seen_field "type" (snd p)) (puts (trace (fst r)))
     <> [Some (PStr "zeek"); None].
Proof.
  split; [vm_compute; reflexivity|].
  split; [vm_compute; reflexivity|].
  vm_compute. discriminate.
Qed.

(** ** Activity and the quiescence clock *)

Section Activity.

Variable json_loads : string -> option pyval.
Variable w : world.

Lemma classify_last_updated (filename zeek_line : string) (s : tstate) :
  last_updated_file_time (fst (classify json_loads filename zeek_line s))
  = last_updated_file_time s.
Proof.
  unfold classify.
  destruct (json_loads zeek_line) as [v|].
  - destruct v; reflexivity.
  - destruct (PyStr.first_char zeek_line) as [c|]; [|reflexivity].
    destruct (Ascii.eqb c "#"); reflexivity.
Qed.

Lemma classify_comment (filename rest : string) (s : tstate) :
  json_loads (String "#" rest) = None ->
  classify json_loads filename (String "#" rest) s = (s, None).
Proof. intros H. unfold classify. now rewrite H. Qed.

End Activity.

(** C10, as the code has it.  Every read that returns a non-empty line sets
    [last_updated_file_time] to the clock before the line is classified,
    whatever becomes of the line.  So a comment line, which starts with [#]
    and is not JSON, buffers no head, puts nothing and raises nothing, and
    still counts as activity: a quiescence check that follows it breaks only
    when the seconds field of the time since that read has reached the
    timeout. *)
Theorem read_updates_clock_before_classifying
        (json_loads : string -> option pyval) (w : world)
        (filename : string) (pos : nat) (s : tstate) :
  Dict.get filename (cache_lines s) = None ->
  w_readline w (tick (mach s)) (filename ++ ".log") pos <> "" ->
  let zeek_line := w_readline w (tick (mach s)) (filename ++ ".log") pos in
  let r := read_next json_loads w filename pos s in
  last_updated_file_time (fst r) = w_now w (S (tick (mach s)))
  /\ (forall rest,
         zeek_line = String "#" rest ->
         json_loads zeek_line = None ->
         snd r = None
         /\ cache_lines (fst r) = cache_lines s
         /\ time_last_lines (fst r) = time_last_lines s
         /\ trace (mach (fst r)) = trace (mach s)
         /\ forall bro_timeout,
             snd (quiescence_check w bro_timeout (fst r)) = true ->
             (bro_timeout
              <= timedelta_seconds
                   (w_now w (tick (mach (fst r)))
                    - w_now w (S (tick (mach s)))))%Z).
Proof.
  intros Hcache Hline. cbv zeta. unfold read_next. rewrite Hcache.
  apply String.eqb_neq in Hline. rewrite Hline.
  split; [now rewrite classify_last_updated|].
  intros rest Hz Hjson. rewrite Hz in *.
  rewrite classify_comment by assumption. simpl.
  repeat split.
  intros bro_timeout. unfold quiescence_check. simpl.
  destruct (Dict.is_empty (cache_lines s)); simpl; [|discriminate].
  intros H. now apply Z.leb_le.
Qed.

Lemma read_updates_clock_before_classifying_witness :
  let w := Scenario.with_comment in
  let s := tail_init w machine0 in
  let r := read_next Scenario.json_loads w "x" 0 s in
  w_readline w (tick (mach s)) "x.log" 0 = ("#header" ++ Scenario.nl)%string
  /\ last_updated_file_time (fst r) = w_now w (S (tick (mach s)))
  /\ (forall rest,
         ("#header" ++ Scenario.nl)%string = String "#" rest ->
         Scenario.json_loads ("#header" ++ Scenario.nl) = None ->
         snd r = None
         /\ cache_lines (fst r) = cache_lines s
         /\ time_last_lines (fst r) = time_last_lines s
         /\ trace (mach (fst r)) = trace (mach s)
         /\ forall bro_timeout,
             snd (quiescence_check w bro_timeout (fst r)) = true ->
             (bro_timeout
              <= timedelta_seconds
                   (w_now w (tick (mach (fst r)))
                    - w_now w (S (tick (mach s)))))%Z).
Proof.
  split; [reflexivity|].
  apply (read_updates_clock_before_classifying
           Scenario.json_loads Scenario.with_comment "x" 0
           (tail_init Scenario.with_comment machine0)).
  - reflexivity.
  - vm_compute. discriminate.
Defined.

(** C10, as stated, fails for empty lines.  A line that holds nothing but
    its newline is not JSON and does not start with [#]: it is buffered and
    emitted as a record.  A read that returns the empty string (nothing more
    in the file for now) leaves the clock as it was. *)
Lemma empty_line_is_emitted :
  (let r := read_zeek_files Scenario.json_loads Scenario.blank_line 1 20
                            machine0 in
   puts (trace (fst r))
   = [(QRef 0,
       Some (PDict [("type", PStr "x"); ("data", PStr Scenario.nl)]))]
   /\ snd r = Returned 1)
  /\ (let w := Scenario.silent in
      let s := tail_init w machine0 in
      w_readline w (tick (mach s)) "x.log" 0 = ""
      /\ last_updated_file_time
           (fst (read_next Scenario.json_loads w "x" 0 s))
         = last_updated_file_time s).
Proof.
  split; [split|split]; vm_compute; reflexivity.
Qed.

(** ** Bookkeeping of the tailer *)

Lemma dict_set_absent {V : Type} (k : string) (v : V) (d : Dict.t V) :
  Dict.get k d = None -> Dict.set k v d = (d ++ [(k, v)])%list.
Proof.
  induction d as [|[k0 v0] d IH]; simpl; [reflexivity|].
  destruct (k0 =? k); [discriminate|]. intros H. now rewrite IH.
Qed.

Lemma dict_del_values {V : Type} (k : string) (v : V) (d : Dict.t V) :
  Dict.get k d = Some v ->
  Permutation (map snd d) (v :: map snd (Dict.del k d)).
Proof.
  induction d as [|[k0 v0] d IH]; simpl; [discriminate|].
  destruct (k0 =? k).
  - intros [= ->]. reflexivity.
  - intros H. simpl. rewrite (IH H). apply perm_swap.
Qed.

Lemma put_addrs_app (p q : list (qitem * option pyval)) :
  put_addrs (p ++ q) = (put_addrs p ++ put_addrs q)%list.
Proof. unfold put_addrs. apply flat_map_app. Qed.

Section TailerBooks.

Variable json_loads : string -> option pyval.
Variable w : world.
Variable bro_timeout : Z.
Variable q0 : list (qitem * option pyval).

Lemma tailer_books_ext (s s' : tstate) :
  List.length (heap (mach s')) = List.length (heap (mach s)) ->
  puts (trace (mach s')) = puts (trace (mach s)) ->
  lines s' = lines s ->
  cache_lines s' = cache_lines s ->
  tailer_books q0 s -> tailer_books q0 s'.
Proof.
  intros Hh Ht Hl Hc [B1 B2]. constructor.
  - now rewrite Hc.
  - rewrite Ht, Hl, Hc, Hh. exact B2.
Qed.

Lemma tailer_books_alloc (l : list pydict) (s : tstate) :
  tailer_books q0 s ->
  tailer_books q0 (on_mach (m_set_heap (heap (mach s) ++ l)) s).
Proof.
  intros [B1 (new & E & L & A & N & F)]. constructor; simpl; [assumption|].
  exists new. repeat split; try assumption.
  eapply Forall_impl; [|exact F]. intros a Ha. cbv beta in Ha. rewrite length_app. lia.
Qed.

Lemma store_head_books (filename : string) (timestamp data : pyval)
      (s : tstate) :
  Dict.get filename (cache_lines s) = None ->
  tailer_books q0 s ->
  tailer_books q0
    (store_head filename timestamp (snd (new_line filename data s))
                (fst (new_line filename data s))).
Proof.
  intros Habs [B1 (new & E & L & A & N & F)]. rewrite new_line_eq. simpl.
  constructor; simpl.
  - now apply dict_NoDup_set.
  - exists new. rewrite (dict_set_absent _ _ _ Habs), map_app. simpl.
    rewrite app_assoc, length_app. simpl.
    repeat split; try assumption.
    + apply NoDup_app_remove_r with (l' := []). rewrite app_nil_r.
      apply Permutation_NoDup
        with (l := (List.length (heap (mach s))
                      :: (put_addrs new ++ map snd (cache_lines s)))%list).
      * apply Permutation_cons_append.
      * constructor; [|assumption]. intros Hin.
        rewrite Forall_forall in F. specialize (F _ Hin). lia.
    + apply Forall_app. split.
      * eapply Forall_impl; [|exact F]. intros a Ha. cbv beta in Ha. lia.
      * constructor; [lia|constructor].
Qed.

Lemma classify_books (filename zeek_line : string) (s : tstate) :
  Dict.get filename (cache_lines s) = None ->
  tailer_books q0 s ->
  tailer_books q0 (fst (classify json_loads filename zeek_line s)).
Proof.
  intros Habs B. unfold classify.
  destruct (json_loads zeek_line) as [v|].
  - destruct v; try (simpl; now apply (tailer_books_alloc [[]] s B)).
    pose proof (store_head_books filename
                  match Dict.get "ts" d with
                  | Some v => v
                  | None => PNum (0 # 1)%Q
                  end (PDict d) s Habs B) as H.
    destruct (new_line filename (PDict d) s) as [s1 a]. exact H.
  - destruct (PyStr.first_char zeek_line) as [c|]; [|exact B].
    destruct (Ascii.eqb c "#"); [exact B|].
    pose proof (store_head_books filename
                  (PStr (PyStr.split_head PyStr.tab zeek_line))
                  (PStr zeek_line) s Habs B) as H.
    destruct (new_line filename (PStr zeek_line) s) as [s1 a]. exact H.
Qed.

Lemma read_next_books (filename : string) (pos : nat) (s : tstate) :
  tailer_books q0 s ->
  tailer_books q0 (fst (read_next json_loads w filename pos s)).
Proof.
  intros B. unfold read_next.
  destruct (Dict.get filename (cache_lines s)) eqn:Habs; [exact B|].
  destruct (_ =? ""); simpl.
  - now apply (tailer_books_ext s).
  - apply classify_books; [exact Habs|].
    now apply (tailer_books_ext s).
Qed.

Lemma for_body_books (filename : string) (s : tstate) :
  tailer_books q0 s ->
  tailer_books q0 (fst (for_body json_loads w filename s)).
Proof.
  intros B. unfold for_body.
  destruct (Dict.get filename (open_file_handlers s)) as [pos|].
  - now apply read_next_books.
  - destruct (is_excluded filename); [exact B|].
    destruct (w_exists w _ _); simpl.
    + apply read_next_books. now apply (tailer_books_ext s).
    + now apply (tailer_books_ext s).
Qed.

Lemma for_files_books (files : list string) (s : tstate) :
  tailer_books q0 s ->
  tailer_books q0 (fst (for_files json_loads w files s)).
Proof.
  revert s. induction files as [|f files IH]; simpl; intros s B;
    [assumption|].
  pose proof (for_body_books f s B) as H.
  destruct (for_body json_loads w f s) as [s' [e|]]; simpl in *;
    [assumption|now apply IH].
Qed.

Lemma emit_one_books (s : tstate) :
  tailer_books q0 s -> tailer_books q0 (step_state (emit_one w s)).
Proof.
  intros B. unfold emit_one.
  destruct (sorted_by_get (time_last_lines s)) as [[|key ks]|]; simpl;
    [| |assumption].
  - apply (tailer_books_ext s); simpl; auto.
    rewrite puts_app. simpl. now rewrite app_nil_r.
  - destruct (Dict.get key (cache_lines s)) as [a|] eqn:E; simpl;
      [|assumption].
    destruct B as [B1 (new & E5 & L & A & N & F)]. constructor; simpl.
    + now apply dict_NoDup_del.
    + exists (new ++ [(QRef a, deref (mach s) (QRef a))])%list.
      rewrite puts_app, E5, app_assoc, put_addrs_app, !length_app. simpl.
      pose proof (dict_del_values _ _ _ E) as P.
      assert (P' : Permutation
                     (put_addrs new ++ map snd (cache_lines s))
                     ((put_addrs new ++ [a])
                        ++ map snd (Dict.del key (cache_lines s)))).
      { rewrite <- app_assoc. apply Permutation_app_head. exact P. }
      repeat split.
      * rewrite L. lia.
      * lia.
      * now apply (Permutation_NoDup P').
      * now apply (Permutation_Forall P').
Qed.

Lemma loop_body_books (s : tstate) :
  tailer_books q0 s ->
  tailer_books q0 (step_state (loop_body json_loads w bro_timeout s)).
Proof.
  intros B. unfold loop_body.
  pose proof (for_files_books (zeek_files s) s B) as H1.
  destruct (for_files json_loads w (zeek_files s) s) as [s1 [e|]];
    simpl in *; [assumption|].
  unfold quiescence_check.
  destruct (Dict.is_empty (cache_lines s1)).
  - destruct (bro_timeout <=? _)%Z; simpl.
    + now apply (tailer_books_ext s1).
    + apply emit_one_books. now apply (tailer_books_ext s1).
  - now apply emit_one_books.
Qed.

Lemma tail_loop_books (fuel : nat) (s : tstate) :
  tailer_books q0 s ->
  tailer_books q0 (fst (tail_loop json_loads w bro_timeout fuel s)).
Proof.
  revert s. induction fuel as [|fuel IH]; simpl; intros s B; [assumption|].
  pose proof (loop_body_books s B) as H.
  destruct (loop_body json_loads w bro_timeout s); simpl in *;
    [now apply IH|assumption|assumption].
Qed.

End TailerBooks.

Lemma tail_init_books (w : world) (m : machine) :
  tailer_books (puts (trace m)) (tail_init w m).
Proof.
  constructor; simpl; [constructor|].
  exists []. rewrite app_nil_r. simpl. repeat split; constructor.
Qed.

Lemma tail_loop_returned
      (json_loads : string -> option pyval) (w : world) (bro_timeout : Z)
      (fuel : nat) (s s' : tstate) (n : Z) :
  tail_loop json_loads w bro_timeout fuel s = (s', Returned n) ->
  n = lines s' /\ cache_lines s' = [].
Proof.
  revert s. induction fuel as [|fuel IH]; simpl; intros s; [discriminate|].
  destruct (loop_body json_loads w bro_timeout s) as [s1|s1|e s1] eqn:E.
  - apply IH.
  - intros [= <- <-]. split; [reflexivity|].
    now apply (loop_body_break_no_heads json_loads w bro_timeout s).
  - discriminate.
Qed.

(** X1.  When the tailer returns, nothing is left buffered and the count it
    returns is the number of records it has put on the profiler queue. *)
Theorem returned_count_is_number_of_puts
        (json_loads : string -> option pyval) (w : world) (bro_timeout : Z)
        (fuel : nat) (m : machine) (s : tstate) (n : Z) :
  tail_loop json_loads w bro_timeout fuel (tail_init w m) = (s, Returned n) ->
  cache_lines s = []
  /\ exists new,
      puts (trace (mach s)) = (puts (trace m) ++ new)%list
      /\ n = Z.of_nat (List.length new).
Proof.
  intros H. destruct (tail_loop_returned _ _ _ _ _ _ _ H) as [-> Hc].
  split; [assumption|].
  pose proof (tail_loop_books json_loads w bro_timeout (puts (trace m)) fuel
                (tail_init w m) (tail_init_books w m)) as B.
  rewrite H in B. simpl in B.
  destruct (books_new _ _ B) as (new & E & L & _).
  exists new. auto.
Qed.

Lemma returned_count_is_number_of_puts_witness :
  exists s,
    tail_loop Scenario.json_loads Scenario.two_files 1 20
              (tail_init Scenario.two_files machine0) = (s, Returned 3)
    /\ cache_lines s = []
    /\ exists new,
        puts (trace (mach s)) = (puts (trace machine0) ++ new)%list
        /\ 3%Z = Z.of_nat (List.length new).
Proof.
  eexists. split; [vm_compute; reflexivity|].
  apply (returned_count_is_number_of_puts
           Scenario.json_loads Scenario.two_files 1 20 machine0).
  vm_compute. reflexivity.
Defined.

(** X2.  Every record that the tailer puts is a dictionary of its own: the
    references it puts on the profiler queue are pairwise distinct. *)
Theorem tailer_puts_distinct_dictionaries
        (json_loads : string -> option pyval) (w : world) (bro_timeout : Z)
        (fuel : nat) (m : machine) :
  exists new,
    puts (trace (fst (read_zeek_files json_loads w bro_timeout fuel m)))
    = (puts (trace m) ++ new)%list
    /\ List.length (put_addrs new) = List.length new
    /\ NoDup (put_addrs new).
Proof.
  unfold read_zeek_files.
  pose proof (tail_loop_books json_loads w bro_timeout (puts (trace m)) fuel
                (tail_init w m) (tail_init_books w m)) as B.
  destruct (tail_loop json_loads w bro_timeout fuel (tail_init w m))
    as [s o]. simpl in B.
  destruct (books_new _ _ B) as (new & E & _ & A & N & _).
  exists new. apply NoDup_app_remove_r in N.
  destruct o; simpl; rewrite ?close_all_puts; auto.
Qed.

(** ** Exceptions of the tailer *)

Section TailerExceptions.

Variable json_loads : string -> option pyval.
Variable w : world.
Variable bro_timeout : Z.

Lemma classify_raises (filename zeek_line : string) (s : tstate) (e : exn) :
  snd (classify json_loads filename zeek_line s) = Some e ->
  e = TypeError
  /\ exists v, json_loads zeek_line = Some v /\ forall d, v <> PDict d.
Proof.
  unfold classify. destruct (json_loads zeek_line) as [v|].
  - destruct v; simpl; try discriminate;
      intros [= <-]; (split; [reflexivity|]); eexists;
        (split; [reflexivity|]); discriminate.
  - destruct (PyStr.first_char zeek_line) as [c|]; [|discriminate].
    destruct (Ascii.eqb c "#"); discriminate.
Qed.

Lemma classify_non_object (filename zeek_line : string) (s : tstate)
      (v : pyval) :
  json_loads zeek_line = Some v ->
  (forall d, v <> PDict d) ->
  classify json_loads filename zeek_line s
  = (on_mach (m_set_heap (heap (mach s) ++ [[]])) s, Some TypeError).
Proof.
  intros H Hv. unfold classify. rewrite H.
  destruct v; try reflexivity. now destruct (Hv d).
Qed.

Lemma read_next_raises (filename : string) (pos : nat) (s : tstate) (e : exn) :
  snd (read_next json_loads w filename pos s) = Some e -> e = TypeError.
Proof.
  unfold read_next.
  destruct (Dict.get filename (cache_lines s)); [discriminate|].
  destruct (_ =? ""); [discriminate|].
  intros H. now apply classify_raises in H.
Qed.

Lemma for_body_raises (filename : string) (s : tstate) (e : exn) :
  snd (for_body json_loads w filename s) = Some e ->
  e = TypeError \/ e = FileNotFoundError.
Proof.
  unfold for_body.
  destruct (Dict.get filename (open_file_handlers s)).
  - intros H. left. now apply read_next_raises in H.
  - destruct (is_excluded filename); [discriminate|].
    destruct (w_exists w _ _).
    + intros H. left. now apply read_next_raises in H.
    + intros [= <-]. now right.
Qed.

Lemma for_files_raises (files : list string) (s : tstate) (e : exn) :
  snd (for_files json_loads w files s) = Some e ->
  e = TypeError \/ e = FileNotFoundError.
Proof.
  revert s. induction files as [|f files IH]; simpl; intros s; [discriminate|].
  destruct (for_body json_loads w f s) as [s' [e'|]] eqn:E.
  - simpl. intros [= <-]. apply (for_body_raises f s). now rewrite E.
  - apply IH.
Qed.

Lemma emit_one_raises (q0 : list (qitem * option pyval)) (s s' : tstate)
      (e : exn) :
  tailer_inv q0 s -> emit_one w s = Raised e s' -> e = TypeError.
Proof.
  intros I. unfold emit_one, sorted_by_get.
  destruct (sort_by_value (time_last_lines s)) as [[|[key ts] r]|] eqn:Hs;
    simpl; try discriminate.
  - assert (Hin : In key (Dict.keys (cache_lines s))).
    { rewrite <- (inv_keys _ _ I). apply dict_In_keys with ts.
      apply (sort_by_value_In _ _ Hs). now left. }
    destruct (dict_get_keys _ _ Hin) as [a ->]. discriminate.
  - now intros [= <- _].
Qed.

Lemma loop_body_raises (q0 : list (qitem * option pyval)) (s s' : tstate)
      (e : exn) :
  tailer_inv q0 s ->
  loop_body json_loads w bro_timeout s = Raised e s' ->
  e = TypeError \/ e = FileNotFoundError.
Proof.
  intros I. unfold loop_body.
  pose proof (for_files_inv json_loads w q0 (zeek_files s) s I) as I1.
  pose proof (for_files_raises (zeek_files s) s) as R.
  destruct (for_files json_loads w (zeek_files s) s) as [s1 [e1|]];
    simpl in *.
  - intros [= <- _]. now apply R.
  - pose proof (quiescence_check_inv w bro_timeout q0 s1 I1) as I2.
    destruct (quiescence_check w bro_timeout s1) as [s2 [|]]; [discriminate|].
    simpl in I2. intros H. left. now apply (emit_one_raises q0 s2 s').
Qed.

Lemma tail_loop_raises (q0 : list (qitem * option pyval)) (fuel : nat)
      (s : tstate) (e : exn) :
  tailer_inv q0 s ->
  snd (tail_loop json_loads w bro_timeout fuel s) = Failed e ->
  e = TypeError \/ e = FileNotFoundError.
Proof.
  revert s. induction fuel as [|fuel IH]; simpl; intros s I; [discriminate|].
  pose proof (loop_body_inv json_loads w bro_timeout q0 s I) as I'.
  destruct (loop_body json_loads w bro_timeout s) as [s1|s1|e1 s1] eqn:E;
    simpl in *.
  - now apply IH.
  - discriminate.
  - intros [= <-]. now apply (loop_body_raises q0 s s1).
Qed.

End TailerExceptions.

(** X3.  The lookups of the tailer in its own dictionaries never fail:
    [read_zeek_files] does not end with a [KeyError] or an [IndexError].
    The key that [sorted] lists first is always a key of [cache_lines]
    (lines 271, 280 and 281), and the lookups of lines 173, 189, 209, 222
    and 259 are caught where they are made.  (What [open] and [readline]
    may raise besides a missing file is not the subject here.) *)
Theorem tailer_lookups_never_fail
        (json_loads : string -> option pyval) (w : world) (bro_timeout : Z)
        (fuel : nat) (m : machine) (e : exn) :
  snd (read_zeek_files json_loads w bro_timeout fuel m) = Failed e ->
  e <> KeyError /\ e <> IndexError.
Proof.
  unfold read_zeek_files.
  pose proof (tail_loop_raises json_loads w bro_timeout (puts (trace m)) fuel
                (tail_init w m) e (tail_init_inv w m)) as H.
  destruct (tail_loop json_loads w bro_timeout fuel (tail_init w m))
    as [s [n|e'|]]; simpl in *; try discriminate.
  intros E. destruct (H E) as [->| ->]; split; discriminate.
Qed.

Lemma tailer_lookups_never_fail_witness :
  snd (read_zeek_files Scenario.json_loads Scenario.mixed_formats 1 20
                       machine0) = Failed TypeError
  /\ (TypeError <> KeyError /\ TypeError <> IndexError).
Proof.
  split; [vm_compute; reflexivity|].
  apply (tailer_lookups_never_fail
           Scenario.json_loads Scenario.mixed_formats 1 20 machine0).
  vm_compute. reflexivity.
Defined.

(** X4.  A line that [json.loads] decodes to something other than an object
    (a bare number, a string, a list) stops the tailer: when the first file
    of the catalog starts with such a line, [read_zeek_files] fails with
    [TypeError] in its first turn and nothing is put. *)
Theorem non_object_json_line_stops_tailer
        (json_loads : string -> option pyval) (w : world) (bro_timeout : Z)
        (fuel : nat) (m : machine) (stem : string) (rest : list string)
        (v : pyval) :
  w_catalog w (tick m) = stem :: rest ->
  is_excluded stem = false ->
  w_exists w (2 + tick m) (stem ++ ".log") = true ->
  w_readline w (3 + tick m) (stem ++ ".log") 0 <> "" ->
  json_loads (w_readline w (3 + tick m) (stem ++ ".log") 0) = Some v ->
  (forall d, v <> PDict d) ->
  let r := read_zeek_files json_loads w bro_timeout (S fuel) m in
  snd r = Failed TypeError /\ puts (trace (fst r)) = puts (trace m).
Proof.
  intros Hcat Hex Hfile Hline Hjson Hv.
  change (2 + tick m) with (S (S (tick m))) in Hfile.
  change (3 + tick m) with (S (S (S (tick m)))) in Hline, Hjson.
  unfold read_zeek_files. simpl.
  unfold loop_body, tail_init. simpl. rewrite Hcat. simpl.
  unfold for_body. simpl. rewrite Hex. simpl. rewrite Hfile.
  unfold read_next. simpl.
  apply String.eqb_neq in Hline. rewrite Hline.
  rewrite (classify_non_object json_loads _ _ _ v Hjson Hv). simpl.
  split; reflexivity.
Qed.

Lemma non_object_json_line_stops_tailer_witness :
  let r := read_zeek_files ErrorScenario.json_loads ErrorScenario.bare_number
                           1 1 machine0 in
  snd r = Failed TypeError /\ puts (trace (fst r)) = puts (trace machine0).
Proof.
  apply (non_object_json_line_stops_tailer
           ErrorScenario.json_loads ErrorScenario.bare_number 1 0 machine0
           "x" [] (PNum (10 # 1)%Q)).
  - reflexivity.
  - reflexivity.
  - reflexivity.
  - vm_compute. discriminate.
  - reflexivity.
  - discriminate.
Defined.

(** X5.  A catalogued log that cannot be opened is not skipped: when the
    first stem of the catalog is not excluded and its file is missing,
    [read_zeek_files] fails with [FileNotFoundError] in its first turn. *)
Theorem missing_log_file_stops_tailer
        (json_loads : string -> option pyval) (w : world) (bro_timeout : Z)
        (fuel : nat) (m : machine) (stem : string) (rest : list string) :
  w_catalog w (tick m) = stem :: rest ->
  is_excluded stem = false ->
  w_exists w (2 + tick m) (stem ++ ".log") = false ->
  let r := read_zeek_files json_loads w bro_timeout (S fuel) m in
  snd r = Failed FileNotFoundError /\ puts (trace (fst r)) = puts (trace m).
Proof.
  intros Hcat Hex Hfile.
  change (2 + tick m) with (S (S (tick m))) in Hfile.
  unfold read_zeek_files. simpl.
  unfold loop_body, tail_init. simpl. rewrite Hcat. simpl.
  unfold for_body. simpl. rewrite Hex. simpl. rewrite Hfile. simpl.
  split; reflexivity.
Qed.

Lemma missing_log_file_stops_tailer_witness :
  let r := read_zeek_files Scenario.json_loads ErrorScenario.missing_log
                           1 1 machine0 in
  snd r = Failed FileNotFoundError
  /\ puts (trace (fst r)) = puts (trace machine0).
Proof.
  apply (missing_log_file_stops_tailer
           Scenario.json_loads ErrorScenario.missing_log 1 0 machine0
           "gone" []).
  - reflexivity.
  - reflexivity.
  - reflexivity.
Defined.

(** ** How [run] ends *)

Lemma read_zeek_files_puts_refs
      (json_loads : string -> option pyval) (w : world) (bro_timeout : Z)
      (fuel : nat) (m : machine) :
  exists new,
    puts (trace (fst (read_zeek_files json_loads w bro_timeout fuel m)))
    = (puts (trace m) ++ new)%list
    /\ Forall (fun p => exists a, fst p = QRef a) new.
Proof.
  unfold read_zeek_files.
  pose proof (tail_loop_inv json_loads w bro_timeout (puts (trace m)) fuel
                (tail_init w m) (tail_init_inv w m)) as I.
  destruct (tail_loop json_loads w bro_timeout fuel (tail_init w m))
    as [s o]. simpl in I.
  destruct (inv_queue _ _ I) as (new & E & F).
  exists new. split.
  - destruct o; simpl; rewrite ?close_all_puts; assumption.
  - eapply Forall_impl; [|exact F].
    intros p (a & k & P1 & _). now exists a.
Qed.

Lemma add_log_files_puts (dir : string) (files : list string) (m : machine) :
  puts (trace (add_log_files dir files m)) = puts (trace m)
  /\ heap (add_log_files dir files m) = heap m
  /\ tick (add_log_files dir files m) = tick m.
Proof.
  revert m. induction files as [|f files IH]; intros m; simpl; [auto|].
  destruct (_ =? ".log"); [|apply IH].
  edestruct IH as (P & H & T). rewrite P, H, T. simpl.
  rewrite puts_app. simpl. now rewrite app_nil_r.
Qed.

(** X6.  When [run] ends in [sys.exit(1)], whatever the mode, the sentinel
    has not been put: all that reached the profiler queue are records. *)
Theorem exit_failure_puts_no_sentinel
        (json_loads : string -> option pyval) (w : world) (cfg : config)
        (fuel : nat) (m : machine) :
  snd (run json_loads w cfg fuel m) = SysExit1 ->
  exists new,
    puts (trace (fst (run json_loads w cfg fuel m)))
    = (puts (trace m) ++ new)%list
    /\ Forall (fun p => exists a, fst p = QRef a) new.
Proof.
  assert (Nil : forall m', puts (trace m') = puts (trace m) ->
                           exists new,
                             puts (trace m') = (puts (trace m) ++ new)%list
                             /\ Forall (fun p => exists a, fst p = QRef a) new).
  { intros m' E. exists []. rewrite app_nil_r. auto. }
  assert (Tail : forall T m1 k,
             puts (trace m1) = puts (trace m) ->
             snd (after_tailer (read_zeek_files json_loads w T fuel m1) k)
             = SysExit1 ->
             exists new,
               puts (trace (fst (after_tailer
                                   (read_zeek_files json_loads w T fuel m1) k)))
               = (puts (trace m) ++ new)%list
               /\ Forall (fun p => exists a, fst p = QRef a) new
             \/ exists m2 n, read_zeek_files json_loads w T fuel m1
                             = (m2, Returned n)).
  { intros T m1 k E1.
    destruct (read_zeek_files_puts_refs json_loads w T fuel m1)
      as (new & E & F).
    destruct (read_zeek_files json_loads w T fuel m1) as [m2 [n|e|]];
      simpl in *.
    - intros _. exists []. right. now exists m2, n.
    - intros _. exists new. left. rewrite E, E1. auto.
    - discriminate. }
  unfold run.
  destruct (input_type cfg =? "file").
  - destruct (negb (info_truthy (input_information cfg))
              || info_is (input_information cfg) "-"); [discriminate|].
    destruct (info_truthy (input_information cfg)); [|discriminate].
    destruct (input_information cfg) as [path|]; [|discriminate].
    destruct (w_isdir w path).
    + destruct (add_log_files_puts path (w_listdir w path) m) as (P & _ & _).
      intros H.
      destruct (Tail 1%Z _ finish_file_mode P H) as [new [R|(m2 & n & R)]];
        [now exists new|].
      rewrite R in H. discriminate.
    + unfold run_single_file. destruct (w_exists w (tick m) path).
      * destruct (heap_alloc (heap (m_tick m))) as [h1 line].
        destruct (if _ : bool then _ else _) as [h2 d]. discriminate.
      * intros _. now apply Nil.
  - destruct (input_type cfg =? "nfdump").
    + destruct (input_information cfg); [|intros _; now apply Nil].
      unfold after_tailer.
      pose proof (nf_loop_out_of_fuel w 10 fuel (nf_init w m)) as O.
      unfold read_nfdump_file.
      destruct (nf_loop w 10 fuel (nf_init w m)) as [ns o].
      simpl in O. subst o. discriminate.
    + destruct ((input_type cfg =? "pcap") || (input_type cfg =? "interface"));
        [|discriminate].
      destruct (input_information cfg) as [target|];
        [|intros _; now apply Nil].
      destruct (if input_type cfg =? "interface" then _ else _) as [T|];
        [|intros _; now apply Nil].
      intros H.
      assert (P : puts (trace (m_sleep (3 # 1)%Q m)) = puts (trace m)).
      { simpl. rewrite puts_app. simpl. now rewrite app_nil_r. }
      destruct (Tail T _ (fun m2 => (m2, RunTrue)) P H)
        as [new [R|(m2 & n & R)]]; [now exists new|].
      rewrite R in H. discriminate.
Qed.

Lemma exit_failure_puts_no_sentinel_witness :
  let r := run Scenario.json_loads Scenario.silent
               (Config "pcap" (Some "")) 5 machine0 in
  exists new,
    puts (trace (fst r)) = (puts (trace machine0) ++ new)%list
    /\ Forall (fun p => exists a, fst p = QRef a) new.
Proof.
  apply (exit_failure_puts_no_sentinel
           Scenario.json_loads Scenario.silent (Config "pcap" (Some ""))
           5 machine0).
  reflexivity.
Defined.

(** ** Timeouts *)

Lemma timedelta_seconds_bound (diff : Z) :
  (0 <= timedelta_seconds diff < 86400)%Z.
Proof.
  unfold timedelta_seconds, usec_per_day, usec_per_second.
  pose proof (Z.mod_pos_bound diff 86400000000 ltac:(lia)) as [H1 H2].
  split.
  - apply Z.div_pos; lia.
  - apply Z.div_lt_upper_bound; lia.
Qed.

Section LongTimeout.

Variable json_loads : string -> option pyval.
Variable w : world.
Variable bro_timeout : Z.
Hypothesis timeout_over_a_day : (86400 <= bro_timeout)%Z.

Lemma loop_body_never_breaks (s s' : tstate) :
  loop_body json_loads w bro_timeout s <> Break s'.
Proof.
  intros H.
  assert (E : exists s', loop_body json_loads w bro_timeout s = Break s')
    by now exists s'.
  apply loop_body_break_iff in E. destruct E as (s1 & _ & _ & Hle).
  pose proof (timedelta_seconds_bound
                (w_now w (tick (mach s1)) - last_updated_file_time s1)).
  lia.
Qed.

Lemma tail_loop_never_returns (fuel : nat) (s : tstate) (n : Z) :
  snd (tail_loop json_loads w bro_timeout fuel s) <> Returned n.
Proof.
  revert s. induction fuel as [|fuel IH]; simpl; intros s; [discriminate|].
  destruct (loop_body json_loads w bro_timeout s) as [s1|s1|e s1] eqn:E.
  - apply IH.
  - now apply loop_body_never_breaks in E.
  - discriminate.
Qed.

End LongTimeout.

(** X7.  The break of the tailer cannot fire under a timeout of a day or
    more: the seconds field it is compared with stays below 86400.  With
    the 9999999999999999 that [run] sets for an interface (line 404),
    [read_zeek_files] never returns, whatever the logs hold, whatever the
    clock reads and however long it runs.  (How [run] itself ends in that
    mode, through an exception or an interrupt, is not the subject here.) *)
Theorem long_timeout_tailer_never_returns
        (json_loads : string -> option pyval) (w : world) (bro_timeout : Z)
        (fuel : nat) (m : machine) (n : Z) :
  (86400 <= bro_timeout)%Z ->
  snd (read_zeek_files json_loads w bro_timeout fuel m) <> Returned n.
Proof.
  intros Hlong. unfold read_zeek_files.
  pose proof (tail_loop_never_returns json_loads w bro_timeout Hlong fuel
                (tail_init w m)) as H.
  destruct (tail_loop json_loads w bro_timeout fuel (tail_init w m))
    as [s [n'|e|]]; simpl in *.
  - now destruct (H n').
  - discriminate.
  - discriminate.
Qed.

Lemma long_timeout_tailer_never_returns_witness :
  snd (read_zeek_files Scenario.json_loads Scenario.two_files
                       9999999999999999 40 machine0) = OutOfFuel
  /\ snd (read_zeek_files Scenario.json_loads Scenario.two_files
                          9999999999999999 40 machine0) <> Returned 3.
Proof.
  split; [vm_compute; reflexivity|].
  apply (long_timeout_tailer_never_returns
           Scenario.json_loads Scenario.two_files 9999999999999999 40
           machine0 3).
  lia.
Defined.

(** ** A catalog with nothing to read *)

Section NothingToRead.

Variable json_loads : string -> option pyval.
Variable w : world.
Variable bro_timeout : Z.

(** Every stem the catalog ever lists is excluded (an empty catalog is the
    plain case). *)
Hypothesis catalog_excluded :
  forall t stem, In stem (w_catalog w t) -> is_excluded stem = true.

Lemma for_files_untouched (files : list string) (s : tstate) :
  open_file_handlers s = [] ->
  (forall stem, In stem files -> is_excluded stem = true) ->
  for_files json_loads w files s = (s, None).
Proof.
  intros Ho. induction files as [|f files IH]; simpl; intros Hex;
    [reflexivity|].
  unfold for_body. rewrite Ho. simpl.
  rewrite (Hex f (or_introl eq_refl)). apply IH.
  intros stem Hin. apply Hex. now right.
Qed.

(** One turn with nothing to read: either the check lets the loop break, or
    the turn sleeps a second and comes back three ticks later with nothing
    changed. *)
Lemma loop_body_untouched (s : tstate) :
  untouched s ->
  let quiet :=
    (bro_timeout
     <=? timedelta_seconds
           (w_now w (tick (mach s)) - last_updated_file_time s))%Z in
  exists s',
    loop_body json_loads w bro_timeout s
    = (if quiet then Break s' else Continue s')
    /\ untouched s'
    /\ puts (trace (mach s')) = puts (trace (mach s))
    /\ last_updated_file_time s' = last_updated_file_time s
    /\ tick (mach s') = (if quiet then 1 else 3) + tick (mach s).
Proof.
  intros (Ho & Ht & Hc & Hl & Hex). cbv zeta.
  unfold loop_body. rewrite (for_files_untouched _ s Ho Hex).
  unfold quiescence_check. rewrite Hc. simpl.
  destruct (bro_timeout <=? _)%Z.
  - eexists. split; [reflexivity|]. simpl. repeat split; auto.
  - unfold emit_one. simpl. rewrite Ht. simpl.
    eexists. split; [reflexivity|]. simpl.
    repeat split; auto.
    + intros stem. apply catalog_excluded.
    + rewrite puts_app. simpl. now rewrite app_nil_r.
Qed.

Lemma tail_loop_untouched (fuel : nat) (s : tstate) :
  untouched s ->
  let r := tail_loop json_loads w bro_timeout fuel s in
  puts (trace (mach (fst r))) = puts (trace (mach s))
  /\ open_file_handlers (fst r) = []
  /\ (snd r = Returned 0 \/ snd r = OutOfFuel).
Proof.
  revert s. induction fuel as [|fuel IH]; intros s U; simpl.
  - destruct U as (Ho & _). auto.
  - destruct (loop_body_untouched s U) as (s' & E & U' & P & _).
    rewrite E. destruct (bro_timeout <=? _)%Z.
    + simpl. destruct U' as (Ho & _ & _ & Hl & _). rewrite Hl. auto.
    + destruct (IH s' U') as (P' & Ho' & R). cbv zeta in *.
      rewrite P'. auto.
Qed.


End NothingToRead.

Lemma tail_init_untouched (w : world) (m : machine) :
  (forall t stem, In stem (w_catalog w t) -> is_excluded stem = true) ->
  untouched (tail_init w m).
Proof.
  intros H. unfold untouched, tail_init. simpl. repeat split.
  intros stem. apply H.
Qed.



Lemma prefix_nil (s : string) : String.prefix "" s = true.
Proof. now destruct s. Qed.

Lemma prefix_app (sub a b : string) :
  String.prefix sub a = true -> String.prefix sub (a ++ b) = true.
Proof.
  revert a. induction sub as [|c sub IH]; intros a H; [apply prefix_nil|].
  destruct a as [|d a]; simpl in *; [discriminate|].
  destruct (ascii_dec c d); [now apply IH|discriminate].
Qed.

Lemma contains_app (sub a b : string) :
  PyStr.contains sub a = true -> PyStr.contains sub (a ++ b) = true.
Proof.
  induction a as [|d a IH]; simpl.
  - rewrite orb_false_r. intros H.
    destruct sub; [|discriminate]. now destruct b.
  - intros H. apply orb_true_iff in H. apply orb_true_iff.
    destruct H as [H|H]; [left|right; now apply IH].
    now apply (prefix_app sub (String d a) b).
Qed.

Lemma is_excluded_under (name dir rest : string) :
  In name excluded_names ->
  PyStr.contains name dir = true ->
  is_excluded (dir ++ rest) = true.
Proof.
  intros Hin Hc. apply (contains_app name dir rest) in Hc.
  unfold is_excluded. unfold excluded_names in Hin. simpl in Hin.
  repeat (destruct Hin as [<-|Hin]; [rewrite Hc; now rewrite ?orb_true_r|]).
  destruct Hin.
Qed.

(** X9.  The exclusion test looks at the whole stem, directory included:
    when the name of the directory holds one of the excluded names, every
    log under it is skipped and the tailer puts nothing. *)
Theorem excluded_directory_emits_nothing
        (json_loads : string -> option pyval) (w : world) (bro_timeout : Z)
        (fuel : nat) (m : machine) (dir name : string) :
  In name excluded_names ->
  PyStr.contains name dir = true ->
  (forall t stem, In stem (w_catalog w t) -> exists rest, stem = dir ++ rest) ->
  let r := read_zeek_files json_loads w bro_timeout fuel m in
  puts (trace (fst r)) = puts (trace m)
  /\ (snd r = Returned 0 \/ snd r = OutOfFuel).
Proof.
  intros Hname Hdir Hcat. cbv zeta.
  assert (Hex : forall t stem, In stem (w_catalog w t) ->
                               is_excluded stem = true).
  { intros t stem Hin. destruct (Hcat t stem Hin) as [rest ->].
    now apply (is_excluded_under name). }
  pose proof (tail_init_untouched w m Hex) as U.
  pose proof (tail_loop_untouched json_loads w bro_timeout Hex fuel _ U)
    as (P & Ho & R).
  unfold read_zeek_files.
  destruct (tail_loop json_loads w bro_timeout fuel (tail_init w m))
    as [s o]. simpl in *.
  destruct R as [-> | ->]; simpl; rewrite ?close_all_puts; auto.
Qed.

Lemma excluded_directory_emits_nothing_witness :
  let r := read_zeek_files Scenario.json_loads FolderScenario.under_stats
                           1 20 machine0 in
  puts (trace (fst r)) = puts (trace machine0)
  /\ (snd r = Returned 0 \/ snd r = OutOfFuel).
Proof.
  apply (excluded_directory_emits_nothing
           Scenario.json_loads FolderScenario.under_stats 1 20 machine0
           "logs/stats_2021" "stats").
  - simpl. tauto.
  - reflexivity.
  - intros t stem [<-|[]]. now exists "/conn".
Defined.

(** ** Standard input *)

Lemma fold_left_set_data (stream : list string) (t : string) (d : pydict) :
  fold_left (fun d t => Dict.set "data" (PStr t) d) (stream ++ [t]) d
  = Dict.set "data" (PStr t) d.
Proof.
  revert d. induction stream as [|t0 stream IH]; intros d; simpl;
    [reflexivity|].
  rewrite IH. apply dict_set_set.
Qed.

(** X10.  In stdin mode (no target, an empty one, or [-]) [run] puts one
    record per line of standard input, in order, each showing type [stdin]
    and the line as data when it is put, then the sentinel, and returns
    [True].  All these puts pass one and the same dictionary, which is left
    holding the last line. *)
Theorem stdin_mode_puts_every_line
        (json_loads : string -> option pyval) (w : world)
        (target : option string) (fuel : nat) (m : machine) :
  target = None \/ target = Some "" \/ target = Some "-" ->
  let r := run json_loads w (Config "file" target) fuel m in
  let line := List.length (heap m) in
  let rec_of (t : string) :=
    PDict [("type", PStr "stdin"); ("data", PStr t)] in
  snd r = RunTrue
  /\ trace (fst r)
     = (trace m
          ++ map (fun t => EvPut (QRef line) (Some (rec_of t))) (w_stdin w)
          ++ [EvPut (QStr "stop") (Some (PStr "stop"))])%list
  /\ forall before t,
      w_stdin w = (before ++ [t])%list ->
      deref (fst r) (QRef line) = Some (rec_of t).
Proof.
  intros Ht. cbv zeta.
  assert (E : run json_loads w (Config "file" target) fuel m
              = finish_file_mode (run_stdin w m)).
  { unfold run. simpl. now destruct Ht as [->|[->| ->]]. }
  rewrite E. unfold run_stdin, heap_alloc, heap_setitem.
  rewrite heap_update_last.
  match goal with
  | |- context [send_lines None ?a ?st ?mm] =>
      assert (Hd : heap_get (heap mm) a = Some [("type", PStr "stdin")])
        by (simpl; apply heap_get_last);
      destruct (send_lines_spec None a st mm _ Hd) as (T & H & _)
  end.
  cbv zeta in T, H. clear Hd.
  unfold finish_file_mode. cbn [fst snd].
  split; [reflexivity|]. split.
  - unfold m_put, m_emit. cbn [trace]. rewrite T. cbn [trace m_set_heap].
    rewrite <- app_assoc. f_equal.
  - intros before t Hs. unfold deref, m_put, m_emit. cbn [heap].
    rewrite H, Hs. now rewrite fold_left_set_data.
Qed.

Lemma stdin_mode_puts_every_line_witness :
  let w := Scenario.two_stdin_lines in
  let r := run Scenario.json_loads w (Config "file" None) 0 machine0 in
  let rec_of (t : string) :=
    PDict [("type", PStr "stdin"); ("data", PStr t)] in
  snd r = RunTrue
  /\ trace (fst r)
     = (map (fun t => EvPut (QRef 0) (Some (rec_of t))) (w_stdin w)
          ++ [EvPut (QStr "stop") (Some (PStr "stop"))])%list
  /\ forall before t,
      w_stdin w = (before ++ [t])%list ->
      deref (fst r) (QRef 0) = Some (rec_of t).
Proof.
  apply (stdin_mode_puts_every_line
           Scenario.json_loads Scenario.two_stdin_lines None 0 machine0).
  now left.
Defined.

(** ** Registering the logs of a folder *)

Lemma take_skip (n : nat) (s : string) :
  (PyStr.take n s ++ PyStr.skip n s)%string = s.
Proof.
  revert s. induction n as [|n IH]; intros [|c s]; simpl; try reflexivity.
  now rewrite IH.
Qed.

(** Cutting off the last four characters and putting them back. *)
Lemma drop_last_n_last_n (n : nat) (s : string) :
  (PyStr.drop_last_n n s ++ PyStr.last_n n s)%string = s.
Proof. apply take_skip. Qed.

Lemma string_app_assoc (a b c : string) :
  ((a ++ b) ++ c)%string = (a ++ (b ++ c))%string.
Proof. induction a as [|x a IH]; simpl; [reflexivity|now rewrite IH]. Qed.

Lemma add_log_files_trace (dir : string) (files : list string) (m : machine) :
  trace (add_log_files dir files m)
  = (trace m
       ++ map (fun f => EvAddZeekFile (dir ++ "/" ++ PyStr.drop_last_n 4 f))
              (filter (fun f => PyStr.last_n 4 f =? ".log") files))%list.
Proof.
  revert m. induction files as [|f files IH]; intros m; simpl.
  - now rewrite app_nil_r.
  - destruct (PyStr.last_n 4 f =? ".log"); rewrite IH; simpl;
      [now rewrite <- app_assoc|reflexivity].
Qed.

(** X11.  In folder mode the names registered in the catalog are the files
    of the folder that end in [.log], less that suffix, one registration per
    such file and in the order of the listing: putting [.log] back onto the
    registered stems gives the paths of the listed [.log] files, in listing
    order (excluded names too: they are filtered only when the tailer opens
    files).  Nothing else is done to the machine. *)
Theorem folder_registers_its_log_files
        (dir : string) (files : list string) (m : machine) :
  exists stems,
    trace (add_log_files dir files m)
    = (trace m ++ map EvAddZeekFile stems)%list
    /\ map (fun stem => (stem ++ ".log")%string) stems
       = map (fun f => (dir ++ "/" ++ f)%string)
             (filter (fun f => PyStr.last_n 4 f =? ".log") files).
Proof.
  exists (map (fun f => (dir ++ "/" ++ PyStr.drop_last_n 4 f)%string)
              (filter (fun f => PyStr.last_n 4 f =? ".log") files)).
  split.
  - rewrite add_log_files_trace. now rewrite map_map.
  - rewrite map_map. apply map_ext_in. intros f Hf.
    apply filter_In in Hf. destruct Hf as [_ Hlog].
    apply String.eqb_eq in Hlog.
    rewrite !string_app_assoc. f_equal. f_equal.
    rewrite <- Hlog. apply drop_last_n_last_n.
Qed.

(** A listing with a log, another file, and a second log. *)
Example folder_listing_order :
  trace (add_log_files "zeek" ["dns.log"; "notes.txt"; "conn.log"] machine0)
  = [EvAddZeekFile "zeek/dns"; EvAddZeekFile "zeek/conn"].
Proof. vm_compute. reflexivity. Qed.

(** ** What the nfdump reader sends *)

Section NfdumpInvariant.

Variable w : world.
Variable nfdump_timeout : Z.
Variable q0 : list (qitem * option pyval).

Lemma nf_inv_ext (s s' : nstate) :
  heap (nf_mach s') = heap (nf_mach s) ->
  puts (trace (nf_mach s')) = puts (trace (nf_mach s)) ->
  nf_next_line s' = nf_next_line s ->
  nf_lines s' = nf_lines s ->
  nf_line s' = nf_line s ->
  nf_inv w q0 s -> nf_inv w q0 s'.
Proof.
  intros Hh Ht Hn Hl Ha [I1 I2 I3]. constructor.
  - now rewrite Hn.
  - now rewrite Hh, Ha.
  - now rewrite Ht, Hl, Ha.
Qed.

Lemma nf_send_inv (row : string) (c : ascii) (s0 s : nstate) :
  nf_inv w q0 s0 ->
  heap (nf_mach s) = heap (nf_mach s0) ->
  puts (trace (nf_mach s)) = puts (trace (nf_mach s0)) ->
  nf_lines s = nf_lines s0 ->
  nf_line s = nf_line s0 ->
  PyStr.first_char (PyStr.split_head "," row) = Some c ->
  PyStr.isdigit (w_isdigit w) c (PyStr.split_head "," row) = true ->
  nf_inv w q0 (nf_send row s).
Proof.
  intros [I1 (d & Hd & Hcases) (new & E & L & F)] Hh Ht Hl Ha Hc Hdigit.
  assert (Hset : Dict.set "data" (PStr row) d
                 = [("type", PStr "nfdump"); ("data", PStr row)]).
  { destruct Hcases as [->|[row' ->]]; reflexivity. }
  assert (Hcell : heap_get
                    (heap_setitem (heap (nf_mach s)) (nf_line s) "data"
                                  (PStr row)) (nf_line s)
                  = Some [("type", PStr "nfdump"); ("data", PStr row)]).
  { unfold heap_setitem. rewrite Hh, Ha.
    rewrite (heap_get_update_same _ _ _ _ Hd). now rewrite Hset. }
  constructor; simpl.
  - reflexivity.
  - eexists. split; [exact Hcell|]. right. now exists row.
  - exists (new ++ [(QRef (nf_line s),
                     Some (PDict [("type", PStr "nfdump");
                                  ("data", PStr row)]))])%list.
    rewrite puts_app, Ht, E, app_assoc. simpl. unfold deref. simpl.
    rewrite Hcell. simpl. split; [reflexivity|]. split.
    + rewrite length_app, Hl, L. simpl. lia.
    + apply Forall_app. split; [now rewrite Ha|].
      constructor; [|constructor]. now exists row, c.
Qed.

Lemma nf_fetch_inv (pos : nat) (s : nstate) :
  nf_inv w q0 s ->
  exists s', nf_fetch w nfdump_timeout pos s = NContinue s'
             /\ nf_inv w q0 s' /\ nf_line s' = nf_line s.
Proof.
  intros I. unfold nf_fetch, nf_readline. rewrite (nfi_next _ _ _ I). simpl.
  destruct (py_truthy_str _).
  - destruct (PyStr.first_char _) as [c|] eqn:Hc.
    + destruct (PyStr.isdigit _ c _) eqn:Hd; simpl.
      * eexists. split; [reflexivity|]. split; [|reflexivity].
        now apply (nf_send_inv _ c s).
      * eexists. split; [reflexivity|]. split; [|reflexivity].
        destruct I as [I1 I2 I3]. constructor; simpl; auto.
    + eexists. split; [reflexivity|]. split; [|reflexivity].
      destruct I as [I1 I2 I3]. constructor; simpl; auto.
  - eexists. split; [reflexivity|]. split; [|reflexivity].
    now apply (nf_inv_ext s).
Qed.

Lemma nf_body_inv (s : nstate) :
  nf_inv w q0 s ->
  exists s', nf_body w nfdump_timeout s = NContinue s'
             /\ nf_inv w q0 s' /\ nf_line s' = nf_line s.
Proof.
  intros I. unfold nf_body. destruct (nf_file_handler s).
  - now apply nf_fetch_inv.
  - destruct (w_exists w _ _).
    + match goal with
      | |- context [nf_fetch _ _ _ ?s1] =>
          destruct (nf_fetch_inv 0 s1) as (s' & E & I' & L);
            [now apply (nf_inv_ext s)|]
      end.
      exists s'. auto.
    + eexists. split; [reflexivity|]. split; [|reflexivity].
      apply (nf_inv_ext s); simpl; auto.
      rewrite puts_app. simpl. now rewrite app_nil_r.
Qed.

Lemma nf_loop_inv (fuel : nat) (s : nstate) :
  nf_inv w q0 s ->
  nf_inv w q0 (fst (nf_loop w nfdump_timeout fuel s))
  /\ nf_line (fst (nf_loop w nfdump_timeout fuel s)) = nf_line s.
Proof.
  revert s. induction fuel as [|fuel IH]; simpl; intros s I; [auto|].
  destruct (nf_body_inv s I) as (s' & E & I' & L').
  rewrite E. destruct (IH s' I') as [J L]. split; [assumption|].
  now rewrite L.
Qed.

End NfdumpInvariant.

Lemma nf_init_inv (w : world) (m : machine) :
  nf_inv w (puts (trace m)) (nf_init w m)
  /\ nf_line (nf_init w m) = List.length (heap m).
Proof.
  unfold nf_init, heap_alloc, heap_setitem. simpl.
  rewrite heap_update_last. split; [|reflexivity].
  constructor; simpl.
  - reflexivity.
  - eexists. split; [apply heap_get_last|]. now left.
  - exists []. rewrite app_nil_r. repeat split. constructor.
Qed.

(** X12.  Whatever the nfdump output holds and however long the reader
    runs, every record it puts shows type [nfdump] and, as data, a row whose
    first comma-separated field starts with a character that [str.isdigit]
    accepts: one of [0] to [9], or a digit outside ASCII (the test of line
    124 is not confined to ASCII).  A row whose first field is empty, or
    starts with an ASCII character that is not a digit, is never sent.  All
    the puts pass one and the same dictionary. *)
Theorem nfdump_reader_sends_only_valid_rows
        (w : world) (nfdump_timeout : Z) (fuel : nat) (m : machine) :
  exists new,
    puts (trace (fst (read_nfdump_file w nfdump_timeout fuel m)))
    = (puts (trace m) ++ new)%list
    /\ Forall (nf_put w (List.length (heap m))) new
    /\ Forall (fun p =>
                 exists c,
                   put_first_byte p = Some c
                   /\ ((nat_of_ascii c < 128)%nat ->
                       PyStr.ascii_digit c = true)) new.
Proof.
  destruct (nf_init_inv w m) as [I0 L0].
  destruct (nf_loop_inv w nfdump_timeout _ fuel _ I0) as [I L].
  unfold read_nfdump_file.
  pose proof (nf_loop_out_of_fuel w nfdump_timeout fuel (nf_init w m)) as O.
  destruct (nf_loop w nfdump_timeout fuel (nf_init w m)) as [s o].
  cbn [fst snd] in *. subst o. cbn [fst].
  destruct (nfi_new _ _ _ I) as (new & E & _ & F).
  exists new. split; [assumption|]. rewrite L, L0 in F.
  split; [exact F|].
  eapply Forall_impl; [|exact F].
  intros p (row & c & -> & Hc & Hd). exists c.
  split; [exact Hc|].
  intros Hlt. unfold PyStr.isdigit in Hd.
  apply Nat.ltb_lt in Hlt. now rewrite Hlt in Hd.
Qed.

(** A header row, a row that starts with the Arabic-Indic digit three and a
    row that starts with an ASCII digit: the header is skipped, the other
    two are sent. *)
Example nfdump_header_row_is_skipped :
  map (fun p => seen_field "data" (snd p))
      (puts (trace (fst (read_nfdump_file Scenario.nfdump_three_rows
                                          10 30 machine0))))
  = [Some (PStr Scenario.arabic_three_row);
     Some (PStr ("1620000000,1.2.3.4" ++ Scenario.nl))].
Proof. vm_compute. reflexivity. Qed.

(** ** Closing the logs *)

Lemma closes_app (t1 t2 : list event) :
  closes (t1 ++ t2) = (closes t1 ++ closes t2)%list.
Proof. unfold closes. apply flat_map_app. Qed.

Section TailerHandles.

Variable json_loads : string -> option pyval.
Variable w : world.
Variable bro_timeout : Z.
Variable c0 : list string.

Lemma tailer_handles_ext (s s' : tstate) :
  closes (trace (mach s')) = closes (trace (mach s)) ->
  open_file_handlers s' = open_file_handlers s ->
  tailer_handles c0 s -> tailer_handles c0 s'.
Proof. intros Ht Ho [H1 H2]. split; [now rewrite Ht|now rewrite Ho]. Qed.

Lemma classify_handles (filename zeek_line : string) (s : tstate) :
  tailer_handles c0 s ->
  tailer_handles c0 (fst (classify json_loads filename zeek_line s)).
Proof.
  intros H. apply (tailer_handles_ext s); [| |assumption];
    unfold classify;
    (destruct (json_loads zeek_line) as [v|];
     [destruct v; reflexivity|]);
    (destruct (PyStr.first_char zeek_line) as [c|]; [|reflexivity]);
    destruct (Ascii.eqb c "#"); reflexivity.
Qed.

Lemma read_next_handles (filename : string) (pos : nat) (s : tstate) :
  tailer_handles c0 s ->
  tailer_handles c0 (fst (read_next json_loads w filename pos s)).
Proof.
  intros H. unfold read_next.
  destruct (Dict.get filename (cache_lines s)); [exact H|].
  destruct (_ =? ""); simpl.
  - now apply (tailer_handles_ext s).
  - apply classify_handles. destruct H as [H1 H2]. split; simpl.
    + assumption.
    + now apply dict_NoDup_set.
Qed.

Lemma for_body_handles (filename : string) (s : tstate) :
  tailer_handles c0 s ->
  tailer_handles c0 (fst (for_body json_loads w filename s)).
Proof.
  intros H. unfold for_body.
  destruct (Dict.get filename (open_file_handlers s)).
  - now apply read_next_handles.
  - destruct (is_excluded filename); [exact H|].
    destruct (w_exists w _ _); simpl.
    + apply read_next_handles. destruct H as [H1 H2]. split; simpl.
      * assumption.
      * now apply dict_NoDup_set.
    + now apply (tailer_handles_ext s).
Qed.

Lemma for_files_handles (files : list string) (s : tstate) :
  tailer_handles c0 s ->
  tailer_handles c0 (fst (for_files json_loads w files s)).
Proof.
  revert s. induction files as [|f files IH]; simpl; intros s H;
    [assumption|].
  pose proof (for_body_handles f s H) as H'.
  destruct (for_body json_loads w f s) as [s' [e|]]; simpl in *;
    [assumption|now apply IH].
Qed.

Lemma emit_one_handles (s : tstate) :
  tailer_handles c0 s -> tailer_handles c0 (step_state (emit_one w s)).
Proof.
  intros H. unfold emit_one.
  destruct (sorted_by_get (time_last_lines s)) as [[|key ks]|]; simpl;
    [| |assumption].
  - apply (tailer_handles_ext s); simpl; auto.
    rewrite closes_app. simpl. now rewrite app_nil_r.
  - destruct (Dict.get key (cache_lines s)); simpl; [|assumption].
    apply (tailer_handles_ext s); simpl; auto.
    rewrite closes_app. simpl. now rewrite app_nil_r.
Qed.

Lemma loop_body_handles (s : tstate) :
  tailer_handles c0 s ->
  tailer_handles c0 (step_state (loop_body json_loads w bro_timeout s)).
Proof.
  intros H. unfold loop_body.
  pose proof (for_files_handles (zeek_files s) s H) as H1.
  destruct (for_files json_loads w (zeek_files s) s) as [s1 [e|]];
    simpl in *; [assumption|].
  unfold quiescence_check.
  destruct (Dict.is_empty (cache_lines s1)).
  - destruct (bro_timeout <=? _)%Z; simpl.
    + now apply (tailer_handles_ext s1).
    + apply emit_one_handles. now apply (tailer_handles_ext s1).
  - now apply emit_one_handles.
Qed.

Lemma tail_loop_handles (fuel : nat) (s : tstate) :
  tailer_handles c0 s ->
  tailer_handles c0 (fst (tail_loop json_loads w bro_timeout fuel s)).
Proof.
  revert s. induction fuel as [|fuel IH]; simpl; intros s H; [assumption|].
  pose proof (loop_body_handles s H) as H'.
  destruct (loop_body json_loads w bro_timeout s); simpl in *;
    [now apply IH|assumption|assumption].
Qed.

End TailerHandles.

Lemma close_all_closes (s : tstate) :
  closes (trace (close_all s))
  = (closes (trace (mach s)) ++ Dict.keys (open_file_handlers s))%list.
Proof.
  unfold close_all. generalize (mach s).
  induction (Dict.keys (open_file_handlers s)) as [|f fs IH]; simpl; intros m.
  - now rewrite app_nil_r.
  - rewrite IH. simpl. rewrite closes_app. simpl.
    now rewrite <- app_assoc.
Qed.

Section HandlesCover.

Variable json_loads : string -> option pyval.
Variable w : world.
Variable bro_timeout : Z.
Variable q0 : list (qitem * option pyval).

(** A step that puts nothing, buffers at most a head for [filename], which
    has a handle, and forgets no handle. *)
Lemma handles_cover_step (filename : string) (s s' : tstate) :
  puts (trace (mach s')) = puts (trace (mach s)) ->
  (forall k, In k (Dict.keys (cache_lines s')) ->
             k = filename \/ In k (Dict.keys (cache_lines s))) ->
  (forall k, In k (Dict.keys (open_file_handlers s)) ->
             In k (Dict.keys (open_file_handlers s'))) ->
  In filename (Dict.keys (open_file_handlers s')) ->
  handles_cover q0 s -> handles_cover q0 s'.
Proof.
  intros Hp Hc Ho Hf [C (new & E & F)]. split.
  - intros k Hk. destruct (Hc k Hk) as [->|Hin]; [assumption|].
    apply Ho. now apply C.
  - exists new. rewrite Hp. split; [assumption|].
    eapply Forall_impl; [|exact F].
    intros p (stem & P1 & P2). exists stem. split; [assumption|].
    now apply Ho.
Qed.

(** A step that puts nothing, buffers nothing and forgets no handle. *)
Lemma handles_cover_ext (s s' : tstate) :
  puts (trace (mach s')) = puts (trace (mach s)) ->
  cache_lines s' = cache_lines s ->
  (forall k, In k (Dict.keys (open_file_handlers s)) ->
             In k (Dict.keys (open_file_handlers s'))) ->
  handles_cover q0 s -> handles_cover q0 s'.
Proof.
  intros Hp Hc Ho [C (new & E & F)]. split.
  - intros k Hk. rewrite Hc in Hk. apply Ho. now apply C.
  - exists new. rewrite Hp. split; [assumption|].
    eapply Forall_impl; [|exact F].
    intros p (stem & P1 & P2). exists stem. split; [assumption|].
    now apply Ho.
Qed.

(** What [classify] leaves alone. *)
Lemma classify_frame (filename zeek_line : string) (s : tstate) :
  puts (trace (mach (fst (classify json_loads filename zeek_line s))))
  = puts (trace (mach s))
  /\ open_file_handlers (fst (classify json_loads filename zeek_line s))
     = open_file_handlers s
  /\ forall k,
      In k (Dict.keys
              (cache_lines (fst (classify json_loads filename zeek_line s)))) ->
      k = filename \/ In k (Dict.keys (cache_lines s)).
Proof.
  unfold classify.
  destruct (json_loads zeek_line) as [[]|];
    try (simpl; repeat split; now auto).
  - rewrite new_line_eq. simpl. repeat split.
    intros k. apply dict_keys_set_In.
  - destruct (PyStr.first_char zeek_line) as [c|];
      [|simpl; repeat split; now auto].
    destruct (Ascii.eqb c "#"); [simpl; repeat split; now auto|].
    rewrite new_line_eq. simpl. repeat split.
    intros k. apply dict_keys_set_In.
Qed.

Lemma read_next_cover (filename : string) (pos : nat) (s : tstate) :
  In filename (Dict.keys (open_file_handlers s)) ->
  handles_cover q0 s ->
  handles_cover q0 (fst (read_next json_loads w filename pos s)).
Proof.
  intros Hf H. unfold read_next.
  destruct (Dict.get filename (cache_lines s)); [exact H|].
  destruct (_ =? ""); cbn [fst].
  - apply (handles_cover_ext s); auto.
  - match goal with
    | |- context [classify json_loads filename ?l ?s3] =>
        destruct (classify_frame filename l s3) as (Fp & Fo & Fc);
          apply (handles_cover_step filename s);
          [rewrite Fp; reflexivity
          |intros k Hk; exact (Fc k Hk)
          |intros k Hk; rewrite Fo; simpl; now apply dict_keys_set_incl
          |rewrite Fo; simpl; apply dict_keys_set_same
          |exact H]
    end.
Qed.

Lemma for_body_cover (filename : string) (s : tstate) :
  handles_cover q0 s ->
  handles_cover q0 (fst (for_body json_loads w filename s)).
Proof.
  intros H. unfold for_body.
  destruct (Dict.get filename (open_file_handlers s)) as [pos|] eqn:E.
  - apply read_next_cover; [|assumption].
    apply dict_In_keys with pos. now apply dict_get_In.
  - destruct (is_excluded filename); [exact H|].
    destruct (w_exists w _ _); cbn [fst].
    + apply read_next_cover; [simpl; apply dict_keys_set_same|].
      apply (handles_cover_ext s); auto.
      intros k Hk. simpl. now apply dict_keys_set_incl.
    + apply (handles_cover_ext s); auto.
Qed.

Lemma for_files_cover (files : list string) (s : tstate) :
  handles_cover q0 s ->
  handles_cover q0 (fst (for_files json_loads w files s)).
Proof.
  revert s. induction files as [|f files IH]; simpl; intros s H;
    [assumption|].
  pose proof (for_body_cover f s H) as H'.
  destruct (for_body json_loads w f s) as [s' [e|]]; simpl in *;
    [assumption|now apply IH].
Qed.

Lemma emit_one_cover (s : tstate) :
  tailer_inv q0 s ->
  handles_cover q0 s -> handles_cover q0 (step_state (emit_one w s)).
Proof.
  intros I H. unfold emit_one.
  destruct (sorted_by_get (time_last_lines s)) as [[|key ks]|];
    cbn [step_state]; [| |assumption].
  - apply (handles_cover_ext s); simpl; auto.
    rewrite puts_app. simpl. now rewrite app_nil_r.
  - destruct (Dict.get key (cache_lines s)) as [a|] eqn:E;
      cbn [step_state]; [|assumption].
    apply dict_get_In in E.
    destruct H as [C (new & E5 & F)].
    destruct (inv_cache _ _ I key a E) as [_ [data R]].
    split.
    + intros k Hk. simpl in Hk. apply dict_keys_del_In in Hk.
      simpl. now apply C.
    + exists (new ++ [(QRef a, deref (mach s) (QRef a))])%list.
      split.
      * simpl. rewrite puts_app, E5, app_assoc. reflexivity.
      * apply Forall_app. split.
        -- eapply Forall_impl; [|exact F].
           intros p (stem & P1 & P2). exists stem. now split.
        -- constructor; [|constructor].
           exists key. split.
           ++ unfold put_stem. cbn [snd]. rewrite R. reflexivity.
           ++ simpl. apply C. now apply dict_In_keys with a.
Qed.

Lemma loop_body_cover (s : tstate) :
  tailer_inv q0 s ->
  handles_cover q0 s ->
  handles_cover q0 (step_state (loop_body json_loads w bro_timeout s)).
Proof.
  intros I H. unfold loop_body.
  pose proof (for_files_inv json_loads w q0 (zeek_files s) s I) as I1.
  pose proof (for_files_cover (zeek_files s) s H) as H1.
  destruct (for_files json_loads w (zeek_files s) s) as [s1 [e|]];
    simpl in *; [assumption|].
  pose proof (quiescence_check_inv w bro_timeout q0 s1 I1) as I2.
  assert (H2 : handles_cover q0 (fst (quiescence_check w bro_timeout s1))).
  { unfold quiescence_check.
    destruct (Dict.is_empty (cache_lines s1)); simpl; [|assumption].
    apply (handles_cover_ext s1); auto. }
  destruct (quiescence_check w bro_timeout s1) as [s2 [|]]; simpl in *;
    [assumption|].
  now apply emit_one_cover.
Qed.

Lemma tail_loop_cover (fuel : nat) (s : tstate) :
  tailer_inv q0 s ->
  handles_cover q0 s ->
  handles_cover q0 (fst (tail_loop json_loads w bro_timeout fuel s)).
Proof.
  revert s. induction fuel as [|fuel IH]; simpl; intros s I H;
    [assumption|].
  pose proof (loop_body_inv json_loads w bro_timeout q0 s I) as I'.
  pose proof (loop_body_cover s I H) as H'.
  destruct (loop_body json_loads w bro_timeout s); simpl in *;
    [now apply IH|assumption|assumption].
Qed.

End HandlesCover.

Lemma tail_init_cover (w : world) (m : machine) :
  handles_cover (puts (trace m)) (tail_init w m).
Proof.
  split.
  - intros k [].
  - exists []. rewrite app_nil_r. split; [reflexivity|constructor].
Qed.

(** X13.  The logs the tailer has opened are the stems that hold a handle
    in [open_file_handlers] when its loop ends: none of them has an excluded
    name, none occurs twice, and every record it has put shows one of them
    as its type.  When the tailer returns it closes exactly these, each
    once and in the order they were opened.  When it ends with an exception
    (or is still running) it has closed nothing. *)
Theorem tailer_closes_what_it_opened
        (json_loads : string -> option pyval) (w : world) (bro_timeout : Z)
        (fuel : nat) (m : machine) :
  let final := fst (tail_loop json_loads w bro_timeout fuel (tail_init w m)) in
  let opened := Dict.keys (open_file_handlers final) in
  let r := read_zeek_files json_loads w bro_timeout fuel m in
  (exists new,
      puts (trace (fst r)) = (puts (trace m) ++ new)%list
      /\ Forall (fun p => exists stem,
                     put_stem p = Some stem /\ In stem opened) new)
  /\ NoDup opened
  /\ Forall (fun stem => is_excluded stem = false) opened
  /\ match snd r with
     | Returned _ =>
         closes (trace (fst r)) = (closes (trace m) ++ opened)%list
     | _ => closes (trace (fst r)) = closes (trace m)
     end.
Proof.
  cbv zeta. unfold read_zeek_files.
  assert (H0 : tailer_handles (closes (trace m)) (tail_init w m)).
  { split; simpl; [reflexivity|constructor]. }
  pose proof (tail_loop_handles json_loads w bro_timeout _ fuel _ H0)
    as [H1 H2].
  pose proof (tail_loop_inv json_loads w bro_timeout (puts (trace m)) fuel
                (tail_init w m) (tail_init_inv w m)) as I.
  pose proof (tail_loop_cover json_loads w bro_timeout (puts (trace m)) fuel
                (tail_init w m) (tail_init_inv w m) (tail_init_cover w m))
    as [_ (new & E & F)].
  destruct (tail_loop json_loads w bro_timeout fuel (tail_init w m))
    as [s o]. cbn [fst snd] in *.
  assert (P : puts (trace (fst match o with
                               | Returned n => (close_all s, Returned n)
                               | _ => (mach s, o)
                               end))
              = puts (trace (mach s))).
  { destruct o; cbn [fst]; [apply close_all_puts|reflexivity|reflexivity]. }
  split; [|split; [|split]].
  - exists new. rewrite P. split; [exact E|exact F].
  - exact H2.
  - apply Forall_forall. apply (inv_handlers _ _ I).
  - destruct o; cbn [fst snd]; try assumption.
    now rewrite close_all_closes, H1.
Qed.

(** In the two-file scenario both logs are closed at the end, in the order
    they were opened. *)
Example two_files_closed :
  closes (trace (fst (read_zeek_files Scenario.json_loads Scenario.two_files
                                      1 20 machine0)))
  = ["conn"; "dns"].
Proof. vm_compute. reflexivity. Qed.

(** ** Telemetry lines *)

Lemma split_head_app (sep : ascii) (a rest : string) :
  PyStr.has_char sep a = false ->
  PyStr.split_head sep (a ++ String sep rest) = a.
Proof.
  induction a as [|c a IH]; simpl.
  - now rewrite Ascii.eqb_refl.
  - intros H. apply orb_false_iff in H. destruct H as [H1 H2].
    rewrite H1. now rewrite IH.
Qed.

Lemma string_of_uint_no_bar (d : Decimal.uint) :
  PyStr.has_char "|" (NilEmpty.string_of_uint d) = false.
Proof. induction d; simpl; auto. Qed.

Lemma py_str_int_no_bar (z : Z) : PyStr.has_char "|" (py_str_int z) = false.
Proof.
  unfold py_str_int, NilZero.string_of_int, NilZero.string_of_uint.
  destruct (Z.to_int z) as [d|d]; simpl.
  - destruct d; try reflexivity; apply (string_of_uint_no_bar (_ d)) || idtac;
      simpl; apply string_of_uint_no_bar.
  - destruct d; try reflexivity; simpl; apply string_of_uint_no_bar.
Qed.

Lemma to_int_not_nil (z : Z) : Z.to_int z <> Pos Nil /\ Z.to_int z <> Neg Nil.
Proof.
  destruct z as [|p|p]; simpl; split; try discriminate;
    intros [= H]; now apply (DecimalPos.Unsigned.to_uint_nonnil p).
Qed.

(** X14.  A telemetry line starts with the level [verbose * 10 + debug] in
    decimal, up to the first bar, whatever the text holds; for a debug
    level from 0 to 9 the two levels are read back from it by division
    by ten. *)
Theorem print_level_parses_back
        (name text : string) (verbose debug : Z) :
  (0 <= debug < 10)%Z ->
  let msg := print_message name text verbose debug in
  let level := PyStr.split_head "|" msg in
  level = py_str_int (verbose * 10 + debug)
  /\ option_map Z.of_int (NilZero.int_of_string level)
     = Some (verbose * 10 + debug)%Z
  /\ (Z.div (verbose * 10 + debug) 10 = verbose
      /\ Z.modulo (verbose * 10 + debug) 10 = debug).
Proof.
  intros Hd. cbv zeta.
  assert (E : PyStr.split_head "|" (print_message name text verbose debug)
              = py_str_int (verbose * 10 + debug)).
  { unfold print_message. cbv zeta.
    change ("|" ++ name ++ "|[" ++ name ++ "] " ++ text)
      with (String "|" (name ++ "|[" ++ name ++ "] " ++ text)).
    apply split_head_app. apply py_str_int_no_bar. }
  rewrite E. split; [reflexivity|]. split.
  - unfold py_str_int.
    destruct (to_int_not_nil (verbose * 10 + debug)) as [N1 N2].
    rewrite (NilZero.isi _ N1 N2). simpl. f_equal. apply DecimalZ.of_to.
  - split.
    + symmetry. apply (Z.div_unique _ 10 verbose debug); lia.
    + symmetry. apply (Z.mod_unique _ 10 verbose debug); lia.
Qed.

Lemma print_level_parses_back_witness :
  let msg := print_message "input" "Receiving flows" 3 0 in
  let level := PyStr.split_head "|" msg in
  msg = "30|input|[input] Receiving flows"
  /\ level = py_str_int (3 * 10 + 0)
  /\ option_map Z.of_int (NilZero.int_of_string level) = Some (3 * 10 + 0)%Z
  /\ (Z.div (3 * 10 + 0) 10 = 3%Z /\ Z.modulo (3 * 10 + 0) 10 = 0%Z).
Proof.
  split; [reflexivity|].
  apply (print_level_parses_back "input" "Receiving flows" 3 0). lia.
Defined.

(** ** Order within a file *)




Section OrderWithinFile.

Variable json_loads : string -> option pyval.
Variable w : world.
Variable bro_timeout : Z.
Variable content : string -> list string.
Variable q0 : list (qitem * option pyval).
Hypothesis files_static : static_files w content.















End OrderWithinFile.




(** ** Order across files *)


Lemma StronglySorted_snoc {A : Type} (R : A -> A -> Prop) (l : list A) (x : A) :
  StronglySorted R l -> Forall (fun y => R y x) l ->
  StronglySorted R (l ++ [x]).
Proof.
  induction 1 as [|a l Hs IH Ha]; intros F; simpl.
  - constructor; constructor.
  - inversion F as [|? ? Rax F']; subst.
    constructor; [now apply IH|].
    apply Forall_app. split; [assumption|]. now constructor.
Qed.

Lemma nth_not_default_lt (l : list string) (i : nat) :
  nth i l "" <> "" -> (i < List.length l)%nat.
Proof.
  intros H. destruct (Nat.lt_ge_cases i (List.length l)) as [|Hge];
    [assumption|]. now rewrite nth_overflow in H.
Qed.

Lemma py_lt_true_q (a b : pyval) (x y : Q) :
  num_of a = Some x -> num_of b = Some y ->
  py_lt a b = Some true -> (x <= y)%Q.
Proof.
  intros Ha Hb. rewrite (py_lt_num _ _ _ _ Ha Hb). intros [= H].
  apply Qltb_true_iff in H. now apply Qlt_le_weak.
Qed.

Lemma py_lt_false_q (a b : pyval) (x y : Q) :
  num_of a = Some x -> num_of b = Some y ->
  py_lt b a = Some false -> (x <= y)%Q.
Proof.
  intros Ha Hb. rewrite (py_lt_num _ _ _ _ Hb Ha). intros [= H].
  now apply Qltb_false_iff in H.
Qed.

Section OrderAcrossFiles.

Variable json_loads : string -> option pyval.
Variable w : world.
Variable bro_timeout : Z.
Variable content : string -> list string.
Variable catalog : list string.
Variable q0 : list (qitem * option pyval).

Hypothesis files_static : static_files w content.
Hypothesis catalog_constant : forall t, w_catalog w t = catalog.
(** Every line of a log that is read is a JSON object whose timestamp,
    given or substituted, is a number. *)
Hypothesis json_numeric :
  forall stem zeek_line,
    tracked catalog stem ->
    In zeek_line (content (stem ++ ".log")) ->
    zeek_line <> ""
    /\ exists d q, json_loads zeek_line = Some (PDict d)
                   /\ num_of (ts_of_dict d) = Some q.
(** Within each log the timestamps do not decrease. *)
Hypothesis file_sorted :
  forall stem i j,
    tracked catalog stem ->
    (i <= j)%nat ->
    (j < List.length (content (stem ++ ".log")))%nat ->
    (line_q json_loads (nth i (content (stem ++ ".log")) "")
     <= line_q json_loads (nth j (content (stem ++ ".log")) ""))%Q.

Lemma frontier_ext (stem : string) (s s' : tstate) :
  open_file_handlers s' = open_file_handlers s ->
  cache_lines s' = cache_lines s ->
  frontier stem s' = frontier stem s.
Proof. intros Ho Hc. unfold frontier, pos_of. now rewrite Ho, Hc. Qed.

Lemma merge_inv_ext (s s' : tstate) :
  heap (mach s') = heap (mach s) ->
  puts (trace (mach s')) = puts (trace (mach s)) ->
  open_file_handlers s' = open_file_handlers s ->
  time_last_lines s' = time_last_lines s ->
  cache_lines s' = cache_lines s ->
  zeek_files s' = zeek_files s ->
  merge_inv json_loads content catalog q0 s -> merge_inv json_loads content catalog q0 s'.
Proof.
  intros Hh Hp Ho Ht Hc Hz [M1 M2 (new & E & F & Srt)]. constructor.
  - now rewrite Hz.
  - rewrite Hc. intros stem a Hin.
    destruct (M2 stem a Hin) as (T & i & d & P1 & P2 & P3 & P4 & P5).
    split; [assumption|]. exists i, d. unfold pos_of, deref in *.
    rewrite Ho, Hh, Ht. auto.
  - exists new. rewrite Hp. split; [assumption|]. split; [|assumption].
    eapply Forall_impl; [|exact F]. intros p B stem j T Hj Hlen.
    apply B; try assumption. now rewrite <- (frontier_ext stem s s' Ho Hc).
Qed.

(** Buffering the line that was just read keeps the invariant: the frontier
    of no stem moves. *)
Lemma buffer_merge (filename : string) (pos : nat) (d : pydict)
      (s s3 : tstate) :
  merge_inv json_loads content catalog q0 s ->
  tailer_inv q0 s ->
  tracked catalog filename ->
  Dict.get filename (cache_lines s) = None ->
  pos_of filename s = pos ->
  nth pos (content (filename ++ ".log")) "" <> "" ->
  json_loads (nth pos (content (filename ++ ".log")) "") = Some (PDict d) ->
  heap (mach s3) = heap (mach s) ->
  puts (trace (mach s3)) = puts (trace (mach s)) ->
  cache_lines s3 = cache_lines s ->
  time_last_lines s3 = time_last_lines s ->
  zeek_files s3 = zeek_files s ->
  open_file_handlers s3
  = Dict.set filename (S pos) (open_file_handlers s) ->
  merge_inv json_loads content catalog q0 (store_head filename (ts_of_dict d)
                   (snd (new_line filename (PDict d) s3))
                   (fst (new_line filename (PDict d) s3))).
Proof.
  intros [M1 M2 (new & E & F & Srt)] I T Hc Hpos Hne Hjson Hh Hp Hc3 Ht3 Hz3 Ho3.
  rewrite new_line_eq. cbn [fst snd].
  set (cell := [("type", PStr filename); ("data", PDict d)]).
  match goal with |- merge_inv _ _ _ _ ?st => set (s' := st) end.
  assert (Hc' : cache_lines s'
                = Dict.set filename (List.length (heap (mach s)))
                           (cache_lines s)).
  { unfold s'. simpl. now rewrite Hc3, Hh. }
  assert (Ht' : time_last_lines s'
                = Dict.set filename (ts_of_dict d) (time_last_lines s)).
  { unfold s'. simpl. now rewrite Ht3. }
  assert (Ho' : open_file_handlers s'
                = Dict.set filename (S pos) (open_file_handlers s))
    by exact Ho3.
  assert (Hheap : heap (mach s') = (heap (mach s) ++ [cell])%list).
  { unfold s'. simpl. now rewrite Hh. }
  assert (Hp' : puts (trace (mach s')) = puts (trace (mach s))) by exact Hp.
  assert (Hz' : zeek_files s' = zeek_files s) by exact Hz3.
  clearbody s'.
  assert (Hfr : forall stem, frontier stem s' = frontier stem s).
  { intros stem. unfold frontier, pos_of. rewrite Hc', Ho'.
    destruct (String.eqb_spec filename stem) as [Heq|Hk].
    - rewrite <- Heq. rewrite !dict_get_set_same, Hc.
      unfold pos_of in Hpos. rewrite Hpos. lia.
    - now rewrite !(dict_get_set_other filename stem) by assumption. }
  constructor.
  - now rewrite Hz'.
  - rewrite Hc'. intros stem a Hin. apply dict_In_set in Hin.
    destruct Hin as [[-> ->]|Hin].
    + split; [assumption|]. exists pos, d.
      unfold pos_of, deref. rewrite Ho', Hheap, Ht'.
      rewrite dict_get_set_same, heap_get_last.
      repeat split; try assumption. apply dict_In_set_same.
    + assert (Hk : filename <> stem).
      { intros <-. apply dict_In_keys in Hin.
        now apply (dict_get_None _ _ Hc). }
      destruct (M2 stem a Hin) as (T' & i & d' & P1 & P2 & P3 & P4 & P5).
      split; [assumption|]. exists i, d'.
      unfold pos_of, deref in *. rewrite Ho', Hheap, Ht'.
      rewrite (dict_get_set_other filename stem) by assumption.
      repeat split; try assumption.
      * destruct (heap_get (heap (mach s)) a) as [c|] eqn:Ea;
          [|discriminate].
        now rewrite (heap_get_app _ [cell] _ _ Ea).
      * now apply dict_In_set_other.
  - exists new. rewrite Hp'. split; [assumption|]. split; [|assumption].
    eapply Forall_impl; [|exact F]. intros p B stem j T' Hj Hlen.
    apply B; try assumption. now rewrite <- Hfr.
Qed.

Lemma read_next_merge (filename : string) (pos : nat) (s : tstate) :
  merge_inv json_loads content catalog q0 s ->
  tailer_inv q0 s ->
  tracked catalog filename ->
  (Dict.get filename (cache_lines s) = None ->
   pos_of filename s = pos) ->
  forall s0,
    heap (mach s0) = heap (mach s) ->
    puts (trace (mach s0)) = puts (trace (mach s)) ->
    cache_lines s0 = cache_lines s ->
    time_last_lines s0 = time_last_lines s ->
    zeek_files s0 = zeek_files s ->
    (open_file_handlers s0 = open_file_handlers s
     \/ (Dict.get filename (open_file_handlers s) = None
         /\ pos = 0%nat
         /\ open_file_handlers s0
            = Dict.set filename 0%nat (open_file_handlers s))) ->
    merge_inv json_loads content catalog q0 (fst (read_next json_loads w filename pos s0))
    /\ (snd (read_next json_loads w filename pos s0) = None ->
        exhausted_or_buffered content
          (fst (read_next json_loads w filename pos s0)) filename).
Proof.
  intros M I T Hpos s0 Hh Hp Hc Ht Hz Ho.
  assert (M0 : merge_inv json_loads content catalog q0 s0).
  { destruct Ho as [Ho|(Hnone & -> & Ho)].
    - now apply (merge_inv_ext s).
    - destruct M as [M1 M2 (new & E & F & Srt)].
      assert (Hpo : forall stem, pos_of stem s0 = pos_of stem s).
      { intros stem. unfold pos_of. rewrite Ho.
        destruct (String.eqb_spec filename stem) as [Heq|Hk].
        - rewrite <- Heq. now rewrite dict_get_set_same, Hnone.
        - now rewrite (dict_get_set_other filename stem) by assumption. }
      assert (Hfr : forall stem, frontier stem s0 = frontier stem s).
      { intros stem. unfold frontier. now rewrite Hc, Hpo. }
      constructor.
      + now rewrite Hz.
      + rewrite Hc. intros stem a Hin.
        destruct (M2 stem a Hin) as (T' & i & d & P1 & P2 & P3 & P4 & P5).
        split; [assumption|]. exists i, d. unfold deref in *.
        rewrite Hpo, Hh, Ht. auto.
      + exists new. rewrite Hp. split; [assumption|]. split; [|assumption].
        eapply Forall_impl; [|exact F]. intros p B stem j T' Hj Hlen.
        apply B; try assumption. now rewrite <- Hfr. }
  assert (Hpos0 : Dict.get filename (cache_lines s) = None ->
                  pos_of filename s0 = pos
                  /\ Dict.get filename (open_file_handlers s0) = Some pos
                     \/ pos_of filename s0 = pos).
  { intros Hn. right. unfold pos_of.
    destruct Ho as [->|(Hnone & -> & ->)]; [now apply Hpos|].
    now rewrite dict_get_set_same. }
  unfold read_next. rewrite Hc.
  destruct (Dict.get filename (cache_lines s)) as [a|] eqn:Ecache.
  - cbn [fst snd]. split; [assumption|]. intros _. left.
    rewrite Hc, Ecache. discriminate.
  - rewrite files_static.
    assert (Hp0 : pos_of filename s0 = pos).
    { destruct (Hpos0 eq_refl) as [[H _]|H]; exact H. }
    destruct (String.eqb_spec (nth pos (content (filename ++ ".log")) "") "")
      as [Heq|Hne]; cbn [fst snd].
    + split; [now apply (merge_inv_ext s0)|].
      intros _. right.
      change (pos_of filename (on_mach m_tick s0)) with (pos_of filename s0).
      rewrite Hp0.
      destruct (Nat.le_gt_cases
                  (List.length (content (filename ++ ".log"))) pos)
        as [Hle|Hgt]; [assumption|].
      exfalso.
      destruct (json_numeric filename
                  (nth pos (content (filename ++ ".log")) "") T
                  (nth_In _ _ Hgt)) as [Hnot _].
      now apply Hnot.
    + destruct (json_numeric filename
                  (nth pos (content (filename ++ ".log")) "") T
                  (nth_In _ _ (nth_not_default_lt _ _ Hne)))
        as [_ (d & q & Hjson & Hq)].
      unfold classify. rewrite ?files_static, Hjson.
      assert (I0 : tailer_inv q0 s0).
      { destruct I as [I1 I2 I3 I4 I5]. constructor.
        - now rewrite Ht, Hc.
        - now rewrite Ht.
        - destruct Ho as [->|(Hnone & _ & ->)]; [assumption|].
          intros k Hin. apply dict_keys_set_In in Hin.
          destruct Hin as [->|Hin]; [apply T|now apply I3].
        - rewrite Hc. intros k a Hin. unfold deref. rewrite Hh.
          now apply I4.
        - destruct I5 as (new & E & F). exists new. rewrite Hp.
          split; [assumption|].
          eapply Forall_impl; [|exact F]. intros p.
          now apply flow_put_heap_eq. }
      match goal with
      | |- context [new_line filename (PDict d) ?s3] =>
          pose proof (buffer_merge filename pos d s0 s3 M0 I0 T
                        ltac:(now rewrite Hc) Hp0 Hne Hjson
                        eq_refl eq_refl eq_refl eq_refl eq_refl eq_refl)
            as B;
          fold (ts_of_dict d);
          destruct (new_line filename (PDict d) s3) as [s4 a] eqn:Enl
      end.
      cbn [fst snd] in *. split; [exact B|].
      intros _. left. unfold store_head. simpl.
      rewrite dict_get_set_same. discriminate.
Qed.

Lemma for_body_merge (filename : string) (s : tstate) :
  merge_inv json_loads content catalog q0 s ->
  tailer_inv q0 s ->
  In filename catalog ->
  merge_inv json_loads content catalog q0
            (fst (for_body json_loads w filename s))
  /\ (snd (for_body json_loads w filename s) = None ->
      is_excluded filename = false ->
      exhausted_or_buffered content
        (fst (for_body json_loads w filename s)) filename).
Proof.
  intros M I Hin. unfold for_body.
  destruct (Dict.get filename (open_file_handlers s)) as [pos|] eqn:Eh.
  - assert (T : tracked catalog filename).
    { split; [assumption|]. apply (inv_handlers _ _ I).
      apply dict_In_keys with pos. now apply dict_get_In. }
    destruct (read_next_merge filename pos s M I T) with (s0 := s)
      as [M' X]; auto.
    intros _. unfold pos_of. now rewrite Eh.
  - destruct (is_excluded filename) eqn:Hex.
    + cbn [fst snd]. split; [assumption|]. discriminate.
    + destruct (w_exists w _ _).
      * assert (T : tracked catalog filename) by now split.
        match goal with
        | |- context [read_next _ _ _ _ ?s1] =>
            destruct (read_next_merge filename 0 s M I T) with (s0 := s1)
              as [M' X]; auto
        end.
        intros _. unfold pos_of. now rewrite Eh.
      * cbn [fst snd]. split; [now apply (merge_inv_ext s)|]. discriminate.
Qed.

(** Reading one stem leaves what is known of the others. *)
Lemma for_body_frame (filename stem : string) (s : tstate) :
  filename <> stem ->
  Dict.get stem (cache_lines (fst (for_body json_loads w filename s)))
  = Dict.get stem (cache_lines s)
  /\ pos_of stem (fst (for_body json_loads w filename s)) = pos_of stem s.
Proof.
  intros Hne.
  assert (R : forall pos s0,
             Dict.get stem
                      (cache_lines (fst (read_next json_loads w filename pos s0)))
             = Dict.get stem (cache_lines s0)
             /\ pos_of stem (fst (read_next json_loads w filename pos s0))
                = pos_of stem s0).
  { intros pos s0. unfold read_next.
    destruct (Dict.get filename (cache_lines s0)); [auto|].
    destruct (_ =? ""); [auto|].
    unfold classify.
    destruct (json_loads _) as [v|].
    - destruct v; cbn [fst]; unfold pos_of; simpl;
        rewrite ?(dict_get_set_other filename stem) by assumption; auto.
    - destruct (PyStr.first_char _) as [c|];
        [destruct (Ascii.eqb c "#")|]; cbn [fst]; unfold pos_of; simpl;
        rewrite ?(dict_get_set_other filename stem) by assumption; auto. }
  unfold for_body.
  destruct (Dict.get filename (open_file_handlers s)) as [pos|]; [apply R|].
  destruct (is_excluded filename); [auto|].
  destruct (w_exists w _ _); [|auto].
  match goal with
  | |- context [read_next _ _ _ _ ?s1] => destruct (R 0%nat s1) as [R1 R2]
  end.
  rewrite R1, R2. unfold pos_of. simpl.
  now rewrite (dict_get_set_other filename stem) by assumption.
Qed.

Lemma for_files_merge (files : list string) (s : tstate) :
  (forall f, In f files -> In f catalog) ->
  merge_inv json_loads content catalog q0 s ->
  tailer_inv q0 s ->
  merge_inv json_loads content catalog q0
            (fst (for_files json_loads w files s))
  /\ (snd (for_files json_loads w files s) = None ->
      forall stem,
        is_excluded stem = false ->
        (In stem files \/ exhausted_or_buffered content s stem) ->
        In stem catalog ->
        exhausted_or_buffered content
          (fst (for_files json_loads w files s)) stem).
Proof.
  revert s. induction files as [|f files IH]; intros s Hsub M I.
  - simpl. split; [assumption|]. intros _ stem _ [[]|H] _. exact H.
  - simpl.
    destruct (for_body_merge f s M I (Hsub f (or_introl eq_refl)))
      as [M' X].
    pose proof (for_body_inv json_loads w q0 f s I) as I'.
    assert (Fr : forall stem,
               f <> stem ->
               Dict.get stem
                        (cache_lines (fst (for_body json_loads w f s)))
               = Dict.get stem (cache_lines s)
               /\ pos_of stem (fst (for_body json_loads w f s))
                  = pos_of stem s)
      by (intros stem Hk; now apply for_body_frame).
    destruct (for_body json_loads w f s) as [s' [e|]] eqn:Efb;
      cbn [fst snd] in *.
    + split; [assumption|]. discriminate.
    + destruct (IH s' (fun g Hg => Hsub g (or_intror Hg)) M' I')
        as [M'' X'].
      split; [assumption|].
      intros Hnone stem Hex Hstem Hcat.
      apply (X' Hnone stem Hex); [|assumption].
      destruct (String.eqb_spec f stem) as [Heq|Hk].
      * right. rewrite <- Heq. apply X; [reflexivity|now rewrite Heq].
      * destruct Hstem as [[Heq|Hin]|Hx]; [congruence|now left|].
        right. destruct (Fr stem Hk) as [F1 F2].
        unfold exhausted_or_buffered in *. now rewrite F1, F2.
Qed.

(** The numeric timestamp of a line that is read. *)
Lemma line_q_numeric (stem : string) (i : nat) (d : pydict) :
  tracked catalog stem ->
  nth i (content (stem ++ ".log")) "" <> "" ->
  json_loads (nth i (content (stem ++ ".log")) "") = Some (PDict d) ->
  num_of (ts_of_dict d)
  = Some (line_q json_loads (nth i (content (stem ++ ".log")) "")).
Proof.
  intros T Hne Hjson.
  destruct (json_numeric stem (nth i (content (stem ++ ".log")) "") T
                         (nth_In _ _ (nth_not_default_lt _ _ Hne)))
    as [_ (d' & q & Hj & Hq)].
  rewrite Hjson in Hj. injection Hj as <-.
  unfold line_q. rewrite Hjson. unfold q_of. now rewrite Hq.
Qed.

Lemma emit_one_merge (s : tstate) :
  merge_inv json_loads content catalog q0 s ->
  tailer_inv q0 s ->
  (forall stem, tracked catalog stem ->
                exhausted_or_buffered content s stem) ->
  merge_inv json_loads content catalog q0 (step_state (emit_one w s)).
Proof.
  intros M I X. unfold emit_one, sorted_by_get.
  destruct (sort_by_value (time_last_lines s)) as [[|[key ts] r]|] eqn:Hs;
    cbn [option_map map fst step_state]; [| |assumption].
  - destruct M as [M1 M2 M3]. constructor.
    + simpl. apply catalog_constant.
    + exact M2.
    + destruct M3 as (new & E & F & Srt). exists new. simpl.
      rewrite puts_app. simpl. rewrite app_nil_r. auto.
  - destruct (Dict.get key (cache_lines s)) as [a|] eqn:Ec;
      cbn [step_state]; [|assumption].
    pose proof (dict_get_In _ _ _ Ec) as Hin.
    destruct M as [M1 M2 (new & E & F & Srt)].
    destruct (M2 key a Hin) as (Tk & i & d & Pk & Nk & Jk & Dk & Ik).
    destruct (sort_by_value_head _ _ _ Hs) as (l1 & l2 & Et & H1 & H2).
    rewrite Forall_forall in H1, H2.
    assert (Hts : ts = ts_of_dict d).
    { assert (G1 : Dict.get key (time_last_lines s) = Some ts).
      { apply dict_In_get; [apply (inv_nodup _ _ I)|].
        rewrite Et. apply in_or_app. right. now left. }
      assert (G2 : Dict.get key (time_last_lines s) = Some (ts_of_dict d)).
      { apply dict_In_get; [apply (inv_nodup _ _ I)|assumption]. }
      congruence. }
    subst ts.
    pose proof (line_q_numeric key i d Tk Nk Jk) as Qk.
    set (p := (QRef a, deref (mach s) (QRef a))).
    assert (Hp : put_q p
                 = line_q json_loads (nth i (content (key ++ ".log")) "")).
    { unfold p, put_q. rewrite Dk. simpl. unfold line_q. now rewrite Jk. }
    assert (Hnd : NoDup (Dict.keys (cache_lines s))).
    { rewrite <- (inv_keys _ _ I). apply (inv_nodup _ _ I). }
    (* the smallest of the buffered timestamps *)
    assert (Hmin : forall stem a',
               In (stem, a') (cache_lines s) ->
               forall i' d',
                 nth i' (content (stem ++ ".log")) "" <> "" ->
                 json_loads (nth i' (content (stem ++ ".log")) "")
                 = Some (PDict d') ->
                 In (stem, ts_of_dict d') (time_last_lines s) ->
                 tracked catalog stem ->
                 (put_q p
                  <= line_q json_loads
                            (nth i' (content (stem ++ ".log")) ""))%Q).
    { intros stem a' Hin' i' d' N' J' I' T'.
      pose proof (line_q_numeric stem i' d' T' N' J') as Q'.
      rewrite Hp. rewrite Et in I'. apply in_app_or in I'.
      destruct I' as [I'|[I'|I']].
      - apply (py_lt_true_q (ts_of_dict d) (ts_of_dict d')); try assumption.
        apply (H1 _ I').
      - injection I' as -> E'. rewrite <- E' in Q'. rewrite Qk in Q'.
        injection Q' as ->. apply Qle_refl.
      - apply (py_lt_false_q (ts_of_dict d) (ts_of_dict d')); try assumption.
        apply (H2 _ I'). }
    match goal with |- merge_inv _ _ _ _ ?st => set (s' := st) end.
    assert (Hc' : cache_lines s' = Dict.del key (cache_lines s))
      by reflexivity.
    assert (Ht' : time_last_lines s' = Dict.del key (time_last_lines s))
      by reflexivity.
    assert (Ho' : open_file_handlers s' = open_file_handlers s)
      by reflexivity.
    assert (Hh' : heap (mach s') = heap (mach s)) by reflexivity.
    assert (Hp' : puts (trace (mach s'))
                  = (puts (trace (mach s)) ++ [p])%list).
    { unfold s'. simpl. now rewrite puts_app. }
    assert (Hz' : zeek_files s' = catalog).
    { unfold s'. simpl. apply catalog_constant. }
    clearbody s'.
    assert (Hfr : forall stem,
               (frontier stem s <= frontier stem s')%nat
               /\ (stem <> key -> frontier stem s' = frontier stem s)).
    { intros stem. unfold frontier, pos_of. rewrite Hc', Ho'.
      destruct (String.eqb_spec key stem) as [Heq|Hk].
      - rewrite <- Heq. rewrite (dict_get_del_same key _ Hnd), Ec.
        split; [lia|congruence].
      - rewrite (dict_get_del_other key stem) by assumption. split; auto. }
    constructor.
    + exact Hz'.
    + rewrite Hc'. intros stem a' Hin'.
      pose proof (dict_In_del_neq _ _ _ _ Hnd Hin') as Hk.
      apply dict_In_del in Hin'.
      destruct (M2 stem a' Hin') as (T' & i' & d' & P1 & P2 & P3 & P4 & P5).
      split; [assumption|]. exists i', d'.
      unfold pos_of, deref in *. rewrite Ho', Hh', Ht'.
      repeat split; try assumption. now apply dict_In_del_other.
    + exists (new ++ [p])%list. rewrite Hp', E, app_assoc.
      split; [reflexivity|]. split.
      * apply Forall_app. split.
        -- eapply Forall_impl; [|exact F]. intros p0 B stem j T' Hj Hlen.
           apply B; try assumption. destruct (Hfr stem) as [Hle _]. lia.
        -- constructor; [|constructor].
           intros stem j T' Hj Hlen.
           destruct (String.eqb_spec stem key) as [->|Hk].
           ++ rewrite Hp. apply file_sorted; try assumption.
              revert Hj. unfold frontier, pos_of. rewrite Hc', Ho'.
              rewrite (dict_get_del_same key _ Hnd).
              unfold pos_of in Pk. rewrite Pk. lia.
           ++ destruct (Hfr stem) as [_ Hsame]. rewrite (Hsame Hk) in Hj.
              destruct (Dict.get stem (cache_lines s)) as [a'|] eqn:Es.
              ** pose proof (dict_get_In _ _ _ Es) as Hin'.
                 destruct (M2 stem a' Hin')
                   as (_ & i' & d' & P1 & P2 & P3 & P4 & P5).
                 apply Qle_trans
                   with (line_q json_loads
                                (nth i' (content (stem ++ ".log")) "")).
                 --- now apply (Hmin stem a' Hin' i' d').
                 --- apply file_sorted; try assumption.
                     revert Hj. unfold frontier. rewrite Es, P1. lia.
              ** exfalso. destruct (X stem T') as [Hb|Hx];
                   [now apply Hb|].
                 revert Hj. unfold frontier. rewrite Es. lia.
      * apply StronglySorted_snoc; [assumption|].
        eapply Forall_impl; [|exact F]. intros p0 B. rewrite Hp.
        apply B; [assumption| |now apply nth_not_default_lt].
        unfold frontier. rewrite Ec, Pk. lia.
Qed.

Lemma loop_body_merge (s : tstate) :
  merge_inv json_loads content catalog q0 s ->
  tailer_inv q0 s ->
  merge_inv json_loads content catalog q0
            (step_state (loop_body json_loads w bro_timeout s)).
Proof.
  intros M I. unfold loop_body.
  destruct (for_files_merge (zeek_files s) s) as [M1 X]; try assumption.
  { intros f Hf. now rewrite <- (merge_catalog _ _ _ _ _ M). }
  pose proof (for_files_inv json_loads w q0 (zeek_files s) s I) as I1.
  destruct (for_files json_loads w (zeek_files s) s) as [s1 [e|]];
    cbn [fst snd step_state] in *; [assumption|].
  assert (X1 : forall stem, tracked catalog stem ->
                            exhausted_or_buffered content s1 stem).
  { intros stem [Hin Hex]. apply (X eq_refl stem Hex); [|assumption].
    left. now rewrite (merge_catalog _ _ _ _ _ M). }
  unfold quiescence_check.
  destruct (Dict.is_empty (cache_lines s1)).
  - destruct (bro_timeout <=? _)%Z; cbn [step_state].
    + now apply (merge_inv_ext s1).
    + apply emit_one_merge.
      * now apply (merge_inv_ext s1).
      * now apply (tailer_inv_ext q0 s1).
      * exact X1.
  - now apply emit_one_merge.
Qed.

Lemma tail_loop_merge (fuel : nat) (s : tstate) :
  merge_inv json_loads content catalog q0 s ->
  tailer_inv q0 s ->
  merge_inv json_loads content catalog q0
            (fst (tail_loop json_loads w bro_timeout fuel s)).
Proof.
  revert s. induction fuel as [|fuel IH]; simpl; intros s M I; [assumption|].
  pose proof (loop_body_inv json_loads w bro_timeout q0 s I) as I'.
  pose proof (loop_body_merge s M I) as M'.
  destruct (loop_body json_loads w bro_timeout s); simpl in *;
    [now apply IH|assumption|assumption].
Qed.

End OrderAcrossFiles.

Lemma tail_init_merge (json_loads : string -> option pyval) (w : world)
      (content : string -> list string) (catalog : list string) (m : machine) :
  (forall t, w_catalog w t = catalog) ->
  merge_inv json_loads content catalog (puts (trace m)) (tail_init w m).
Proof.
  intros Hcat. constructor.
  - simpl. apply Hcat.
  - intros stem a [].
  - exists []. rewrite app_nil_r. repeat split; constructor.
Qed.

(** X16.  The merge proper.  When the catalog does not change, the logs do
    not change while they are read, every line of a log that is read is a
    JSON object with a numeric (or missing) [ts], and within each log the
    timestamps do not decrease, then at every point of a run the records
    put so far are in non-decreasing order of timestamp across all files. *)
Theorem merged_timestamps_do_not_decrease
        (json_loads : string -> option pyval) (w : world) (bro_timeout : Z)
        (content : string -> list string) (catalog : list string)
        (fuel : nat) (m : machine) :
  static_files w content ->
  (forall t, w_catalog w t = catalog) ->
  (forall stem zeek_line,
      tracked catalog stem ->
      In zeek_line (content (stem ++ ".log")) ->
      zeek_line <> ""
      /\ exists d q, json_loads zeek_line = Some (PDict d)
                     /\ num_of (ts_of_dict d) = Some q) ->
  (forall stem i j,
      tracked catalog stem ->
      (i <= j)%nat ->
      (j < List.length (content (stem ++ ".log")))%nat ->
      (line_q json_loads (nth i (content (stem ++ ".log")) "")
       <= line_q json_loads (nth j (content (stem ++ ".log")) ""))%Q) ->
  let s := fst (tail_loop json_loads w bro_timeout fuel (tail_init w m)) in
  exists new,
    puts (trace (mach s)) = (puts (trace m) ++ new)%list
    /\ StronglySorted (fun p q => (put_q p <= put_q q)%Q) new.
Proof.
  intros Hstatic Hcat Hjson Hsorted. cbv zeta.
  pose proof (tail_loop_merge json_loads w bro_timeout content catalog
                (puts (trace m)) Hstatic Hcat Hjson Hsorted fuel
                (tail_init w m)
                (tail_init_merge json_loads w content catalog m Hcat)
                (tail_init_inv w m)) as M.
  destruct (merge_new _ _ _ _ _ M) as (new & E & _ & Srt).
  now exists new.
Qed.

Lemma merged_timestamps_do_not_decrease_witness :
  let w := Scenario.two_files in
  let s := fst (tail_loop Scenario.json_loads w 1 20 (tail_init w machine0)) in
  map put_q (puts (trace (mach s))) = [(3 # 1)%Q; (4 # 1)%Q; (5 # 1)%Q]
  /\ exists new,
      puts (trace (mach s)) = (puts (trace machine0) ++ new)%list
      /\ StronglySorted (fun p q => (put_q p <= put_q q)%Q) new.
Proof.
  split; [vm_compute; reflexivity|].
  apply (merged_timestamps_do_not_decrease
           Scenario.json_loads Scenario.two_files 1
           MergeScenario.two_files_content ["conn"; "dns"] 20 machine0).
  - intros t path n. reflexivity.
  - intros t. reflexivity.
  - intros stem zeek_line [[<-|[<-|[]]] _] Hin; simpl in Hin;
      repeat (destruct Hin as [<-|Hin];
              [split; [discriminate|];
               eexists; eexists; split; reflexivity|]);
      destruct Hin.
  - intros stem i j [[<-|[<-|[]]] _] Hij Hlen; simpl in Hlen.
    + destruct j as [|[|j]]; [| |lia];
        destruct i as [|[|i]]; try lia; vm_compute; discriminate.
    + destruct j as [|j]; [|lia].
      destruct i as [|i]; [|lia]. vm_compute. discriminate.
Defined.

(** Without the assumption on the lines the order can break: a comment
    line buffers nothing, so in the turn that reads it the other log goes
    first, whatever the timestamp of the row behind the comment. *)
Example comment_line_lets_newer_row_pass :
  map (fun p => seen_field "data" (snd p))
      (puts (trace (fst (read_zeek_files Scenario.json_loads
                                         MergeScenario.comment_first 1 20
                                         machine0))))
  = [Some (PStr ("5" ++ Scenario.tb ++ "b" ++ Scenario.nl));
     Some (PStr ("1" ++ Scenario.tb ++ "a" ++ Scenario.nl))].
Proof. vm_compute. reflexivity. Qed.
